(** * Hikari TypeScript SDK and schema: a shallow embedding

    The development follows the sources of the repository:

    - [pricing.ts]   (class [PricingModel]): section "Pricing";
    - [providers/openai.ts], [providers/anthropic.ts], [providers/google.ts]
      (the [makeWrapper] functions): section "Provider wrappers";
    - [exporter.ts]  ([spanToOtlp] and class [HikariSpanExporter]);
    - [migrations/002_continuous_aggregates.sql] (the three views).

    JavaScript's [number] is IEEE-754 binary64, which is what Rocq's
    primitive [float] is, so numbers are modelled as [float] and the
    arithmetic of the source is the arithmetic of the model.  [null] is
    [None]. *)

From Stdlib Require Import ZArith Floats DecimalString DecimalZ DecimalPos.
From stdpp Require Import gmap strings list fin_maps.

Set Warnings "-inexact-float".
Local Open Scope string_scope.

(** ** JavaScript values used by the SDK *)

Module JS.

(** [number]: a binary64 value. *)
Abbreviation number := PrimFloat.float.

(** [T | null]. *)
Abbreviation nullable := option.

(** A template literal [`${a}/${b}`]. *)
Definition template_slash (a b : string) : string := a +:+ "/" +:+ b.

(** A [Record<string, V>] (an object used as a dictionary) has one value
    per key; [Object.entries] lists its own enumerable pairs, each key
    once. *)
Definition Object_entries {V} (o : gmap string V) : list (string * V) :=
  map_to_list o.

(** A thrown value. *)
Inductive JsError : Type :=
| TypeError (msg : string)
| Error (msg : string).

(** The settlement of a promise of [R]. *)
Inductive Outcome (R : Type) : Type :=
| Resolved (r : R)
| Rejected (e : JsError).
Arguments Resolved {R} r.
Arguments Rejected {R} e.

(** Truthiness of a [string | undefined]: [undefined] and the empty
    string are falsy. *)
Definition truthy (s : option string) : bool :=
  match s with
  | Some EmptyString => false
  | Some _ => true
  | None => false
  end.

End JS.

(** ** Pricing ([pricing.ts]) *)

Module Pricing.
Import JS.

Record ModelPricing : Type := mkModelPricing {
  inputCostPerToken : number;
  outputCostPerToken : number;
}.

Record CostResult : Type := mkCostResult {
  inputCost : nullable number;
  outputCost : nullable number;
  totalCost : nullable number;
}.

(** The bundled table, in the order of the object literal. *)
Definition DEFAULT_PRICING_entries : list (string * ModelPricing) :=
  [ ("openai/gpt-4o", mkModelPricing 0.0000025 0.00001);
    ("openai/gpt-4o-mini", mkModelPricing 0.00000015 0.0000006);
    ("anthropic/claude-3-5-sonnet-20241022", mkModelPricing 0.000003 0.000015);
    ("anthropic/claude-3-haiku-20240307", mkModelPricing 0.00000025 0.00000125);
    ("google/gemini-1.5-pro", mkModelPricing 0.00000125 0.000005);
    ("google/gemini-1.5-flash", mkModelPricing 0.000000075 0.0000003) ].

Definition DEFAULT_PRICING : gmap string ModelPricing :=
  list_to_map DEFAULT_PRICING_entries.

(** The class has one field, [table : Map<string, ModelPricing>]. *)
Record PricingModel : Type := mkPricingModel {
  table : gmap string ModelPricing;
}.

(** [for (const [key, value] of entries) this.table.set(key, value)]. *)
Definition set_all (t : gmap string ModelPricing)
    (entries : list (string * ModelPricing)) : gmap string ModelPricing :=
  foldl (fun acc kv => <[ kv.1 := kv.2 ]> acc) t entries.

(** [constructor(overrides?)]. *)
Definition new (overrides : option (gmap string ModelPricing)) : PricingModel :=
  let t0 : gmap string ModelPricing := ∅ in
  let t1 := set_all t0 (Object_entries DEFAULT_PRICING) in
  let t2 := match overrides with
            | Some o => set_all t1 (Object_entries o)
            | None => t1
            end in
  mkPricingModel t2.

(** [get(provider, model)]: [this.table.get(key) ?? null]. *)
Definition get (pm : PricingModel) (provider model : string)
    : nullable ModelPricing :=
  let key := template_slash provider model in
  table pm !! key.

(** [computeCost(provider, model, inputTokens, outputTokens)]. *)
Definition computeCost (pm : PricingModel) (provider model : string)
    (inputTokens outputTokens : nullable number) : CostResult :=
  let pricing := get pm provider model in
  let inputCost :=
    match pricing, inputTokens with
    | Some p, Some n => Some (inputCostPerToken p * n)%float
    | _, _ => None
    end in
  let outputCost :=
    match pricing, outputTokens with
    | Some p, Some n => Some (outputCostPerToken p * n)%float
    | _, _ => None
    end in
  let totalCost :=
    match inputCost, outputCost with
    | Some a, Some b => Some (a + b)%float
    | _, _ => None
    end in
  mkCostResult inputCost outputCost totalCost.

(** [update(modelKey, inputCostPerToken, outputCostPerToken)] mutates the
    table; the new state is returned. *)
Definition update (pm : PricingModel) (modelKey : string)
    (i o : number) : PricingModel :=
  mkPricingModel (<[ modelKey := mkModelPricing i o ]> (table pm)).

End Pricing.

(** ** Attribute names ([attributes.ts]) *)

Module Attributes.
Definition PIPELINE_ID := "hikari.pipeline_id".
Definition STAGE := "hikari.stage".
Definition MODEL := "hikari.model".
Definition PROVIDER := "hikari.provider".
Definition TOKENS_INPUT := "hikari.tokens.input".
Definition TOKENS_OUTPUT := "hikari.tokens.output".
Definition COST_INPUT := "hikari.cost.input".
Definition COST_OUTPUT := "hikari.cost.output".
Definition COST_TOTAL := "hikari.cost.total".
End Attributes.

(** ** Context propagation ([context.ts]) *)

Module Context.

Record HikariContext : Type := mkHikariContext {
  pipelineId : option string;
  stage : option string;
}.

(** What [storage.getStore()] returns in the current async context. *)
Definition Store := option HikariContext.

(** [storage.getStore()?.pipelineId]. *)
Definition getPipelineId (store : Store) : option string :=
  match store with
  | Some c => pipelineId c
  | None => None
  end.

(** [storage.getStore()?.stage]. *)
Definition getStage (store : Store) : option string :=
  match store with
  | Some c => stage c
  | None => None
  end.

End Context.

(** ** The part of the OpenTelemetry API the SDK uses *)

Module Otel.
Import JS.

Inductive Primitive : Type :=
| PStr (s : string)
| PNum (n : number)
| PBool (b : bool).

(** [AttributeValue | undefined]: a string, a number, a boolean, or an
    array of those (with holes). *)
Inductive AttributeValue : Type :=
| AStr (s : string)
| ANum (n : number)
| ABool (b : bool)
| AArray (items : list (option Primitive))
| AUndefined.

(** An attribute object, as [Object.entries] lists it: insertion order,
    each key once. *)
Abbreviation Attributes := (list (string * AttributeValue)).

(** [attributes[key] = value]: an existing key keeps its place. *)
Fixpoint assign (key : string) (value : AttributeValue) (a : Attributes)
    : Attributes :=
  match a with
  | [] => [(key, value)]
  | (k, v) :: rest =>
      if String.eqb k key then (k, value) :: rest
      else (k, v) :: assign key value rest
  end.

(** [attributes[key]]. *)
Fixpoint lookup (key : string) (a : Attributes) : option AttributeValue :=
  match a with
  | [] => None
  | (k, v) :: rest => if String.eqb k key then Some v else lookup key rest
  end.

(** Code that runs against a span: it may throw, and what it did to the
    span before throwing stays done. *)
Definition M (S A : Type) : Type := S -> (JsError + A) * S.

Definition ret {S A} (a : A) : M S A := fun s => (inr a, s).

Definition throw {S A} (e : JsError) : M S A := fun s => (inl e, s).

Definition bind {S A B} (m : M S A) (f : A -> M S B) : M S B :=
  fun s =>
    match m s with
    | (inr a, s') => f a s'
    | (inl e, s') => (inl e, s')
    end.

(** A pure computation that may throw. *)
Definition lift {S A} (r : JsError + A) : M S A := fun s => (r, s).

(** [if (c) { m }]. *)
Definition when {S} (c : bool) (m : M S unit) : M S unit :=
  if c then m else ret tt.

(** [try { m } catch (err) { console.debug(...) }]: the error is dropped,
    the span keeps what was set. *)
Definition try_catch_log {S} (m : M S unit) (s : S) : S := snd (m s).

(** The tracer and span operations the wrappers call. *)
Class Tracing (S : Type) : Type := {
  startActiveSpan : string -> S;
  setAttribute : string -> AttributeValue -> M S unit;
  span_end : S -> S;
}.

(** The SDK's recording span. *)
Record Span : Type := mkSpan {
  name : string;
  attributes : Attributes;
  ended : bool;
}.

(** [setAttribute] of the recording span: ignored for [undefined] and
    once the span has ended, an assignment otherwise; it does not
    throw. *)
Definition Span_setAttribute (key : string) (value : AttributeValue)
    : M Span unit :=
  fun s =>
    match value with
    | AUndefined => (inr tt, s)
    | _ =>
        if ended s then (inr tt, s)
        else (inr tt, mkSpan (name s) (assign key value (attributes s)) (ended s))
    end.

#[export] Instance recording : Tracing Span := {
  startActiveSpan spanName := mkSpan spanName [] false;
  setAttribute := Span_setAttribute;
  span_end s := mkSpan (name s) (attributes s) true;
}.

End Otel.

Declare Scope span_scope.
Delimit Scope span_scope with span.
Notation "'let*' x ':=' m 'in' k" := (Otel.bind m (fun x => k))
  (at level 10, x name, k at level 200) : span_scope.
Notation "m ';;' k" := (Otel.bind m (fun _ => k))
  (at level 100, right associativity) : span_scope.

(** ** Provider wrappers ([providers/*.ts]) *)

Module Providers.
Import JS Otel Context.
Local Open Scope span_scope.

(** What a wrapper is given as [pricing]: its [computeCost] method.  The
    class of [pricing.ts] never throws; an object of another class
    passed in its place may. *)
Definition CostFn : Type :=
  string -> string -> nullable number -> nullable number ->
  JsError + Pricing.CostResult.

Definition of_PricingModel (pm : Pricing.PricingModel) : CostFn :=
  fun provider model inputTokens outputTokens =>
    inr (Pricing.computeCost pm provider model inputTokens outputTokens).

(** The first call argument, [args[0]], read as the request object. *)
Record Kwargs : Type := mkKwargs { kw_model : option string }.

(** [(args[0] as Record<string, unknown>) ?? {}]. *)
Definition kwargs_of (args : list (option Kwargs)) : Kwargs :=
  match args with
  | Some k :: _ => k
  | _ => mkKwargs None
  end.

(** Reading a property of [null] or [undefined] throws. *)
Definition property_of {T A} (what : string) (o : option T) (f : T -> A)
    : JsError + A :=
  match o with
  | Some t => inr (f t)
  | None => inl (TypeError ("Cannot read properties of undefined (reading '" +:+ what +:+ "')"))
  end.

(** The cost attributes, as all three wrappers set them. *)
Definition number_or_skip {S} `{Tracing S} (key : string)
    (v : nullable number) : M S unit :=
  match v with
  | Some n => setAttribute key (ANum n)
  | None => ret tt
  end.

Module OpenAI.

Definition PROVIDER_NAME := "openai".

Record OpenAIUsage : Type := mkUsage {
  prompt_tokens : option number;
  completion_tokens : option number;
}.

Record OpenAIResponse : Type := mkResponse {
  usage : option OpenAIUsage;
  model : option string;
}.

(** The value the client method resolves with is typed
    [OpenAIResponse]; at run time it may be [null] or [undefined]
    ([None]). *)
Definition Response := option OpenAIResponse.

Definition extractTokens (response : Response)
    : JsError + (nullable number * nullable number) :=
  match property_of "usage" response usage with
  | inl e => inl e
  | inr None => inr (None, None)
  | inr (Some u) => inr (prompt_tokens u, completion_tokens u)
  end.

Definition extractModel (response : Response) (kwargs : Kwargs)
    : JsError + string :=
  match property_of "model" response model with
  | inl e => inl e
  | inr (Some m) => inr m
  | inr None => inr (default "unknown" (kw_model kwargs))
  end.

(** The wrapper reads the context twice: [getStage()] when it is
    called, and [getPipelineId()] once the original call has settled.
    The setters of [context.ts] write into the context object in place,
    so the two reads may differ: [store] is the context as it is when the
    wrapper is called, [settled] as it is when the call has settled. *)
Definition makeWrapper {S} `{Tracing S}
    (original : list (option Kwargs) -> Outcome Response)
    (pricing : CostFn) (store settled : Store)
    (args : list (option Kwargs)) : Outcome Response * S :=
  let spanName := "openai.chat.completions.create" in
  let stage := default spanName (getStage store) in
  let span := startActiveSpan spanName in
  match original args with
  | Resolved response =>
      let span :=
        try_catch_log
          (let* tokens := lift (extractTokens response) in
           let inputTokens := tokens.1 in
           let outputTokens := tokens.2 in
           let kwargs := kwargs_of args in
           let* model := lift (extractModel response kwargs) in
           let pipelineId := getPipelineId settled in
           when (truthy pipelineId)
             (setAttribute Attributes.PIPELINE_ID (AStr (default "" pipelineId))) ;;
           setAttribute Attributes.STAGE (AStr stage) ;;
           setAttribute Attributes.MODEL (AStr model) ;;
           setAttribute Attributes.PROVIDER (AStr PROVIDER_NAME) ;;
           number_or_skip Attributes.TOKENS_INPUT inputTokens ;;
           number_or_skip Attributes.TOKENS_OUTPUT outputTokens ;;
           let* cost := lift (pricing PROVIDER_NAME model inputTokens outputTokens) in
           number_or_skip Attributes.COST_INPUT (Pricing.inputCost cost) ;;
           number_or_skip Attributes.COST_OUTPUT (Pricing.outputCost cost) ;;
           number_or_skip Attributes.COST_TOTAL (Pricing.totalCost cost))
          span in
      (Resolved response, span_end span)
  | Rejected err => (Rejected err, span_end span)
  end.

(** The costs [makeWrapper] computes for a response, when the
    extraction does not throw. *)
Definition computed (pm : Pricing.PricingModel) (response : Response)
    (args : list (option Kwargs)) : option Pricing.CostResult :=
  match extractTokens response, extractModel response (kwargs_of args) with
  | inr tokens, inr model =>
      Some (Pricing.computeCost pm PROVIDER_NAME model tokens.1 tokens.2)
  | _, _ => None
  end.

End OpenAI.

Module Anthropic.

Definition PROVIDER_NAME := "anthropic".

Record AnthropicUsage : Type := mkUsage {
  input_tokens : option number;
  output_tokens : option number;
}.

Record AnthropicResponse : Type := mkResponse {
  usage : option AnthropicUsage;
  model : option string;
}.

Definition Response := option AnthropicResponse.

Definition extractTokens (response : Response)
    : JsError + (nullable number * nullable number) :=
  match property_of "usage" response usage with
  | inl e => inl e
  | inr None => inr (None, None)
  | inr (Some u) => inr (input_tokens u, output_tokens u)
  end.

Definition extractModel (response : Response) (kwargs : Kwargs)
    : JsError + string :=
  match property_of "model" response model with
  | inl e => inl e
  | inr (Some m) => inr m
  | inr None => inr (default "unknown" (kw_model kwargs))
  end.

Definition makeWrapper {S} `{Tracing S}
    (original : list (option Kwargs) -> Outcome Response)
    (pricing : CostFn) (store settled : Store)
    (args : list (option Kwargs)) : Outcome Response * S :=
  let spanName := "anthropic.messages.create" in
  let stage := default spanName (getStage store) in
  let span := startActiveSpan spanName in
  match original args with
  | Resolved response =>
      let span :=
        try_catch_log
          (let* tokens := lift (extractTokens response) in
           let inputTokens := tokens.1 in
           let outputTokens := tokens.2 in
           let kwargs := kwargs_of args in
           let* model := lift (extractModel response kwargs) in
           let pipelineId := getPipelineId settled in
           when (truthy pipelineId)
             (setAttribute Attributes.PIPELINE_ID (AStr (default "" pipelineId))) ;;
           setAttribute Attributes.STAGE (AStr stage) ;;
           setAttribute Attributes.MODEL (AStr model) ;;
           setAttribute Attributes.PROVIDER (AStr PROVIDER_NAME) ;;
           number_or_skip Attributes.TOKENS_INPUT inputTokens ;;
           number_or_skip Attributes.TOKENS_OUTPUT outputTokens ;;
           let* cost := lift (pricing PROVIDER_NAME model inputTokens outputTokens) in
           number_or_skip Attributes.COST_INPUT (Pricing.inputCost cost) ;;
           number_or_skip Attributes.COST_OUTPUT (Pricing.outputCost cost) ;;
           number_or_skip Attributes.COST_TOTAL (Pricing.totalCost cost))
          span in
      (Resolved response, span_end span)
  | Rejected err => (Rejected err, span_end span)
  end.

Definition computed (pm : Pricing.PricingModel) (response : Response)
    (args : list (option Kwargs)) : option Pricing.CostResult :=
  match extractTokens response, extractModel response (kwargs_of args) with
  | inr tokens, inr model =>
      Some (Pricing.computeCost pm PROVIDER_NAME model tokens.1 tokens.2)
  | _, _ => None
  end.

End Anthropic.

Module Google.

Definition PROVIDER_NAME := "google".

Record GoogleUsageMetadata : Type := mkUsage {
  promptTokenCount : option number;
  candidatesTokenCount : option number;
}.

Record GoogleResponse : Type := mkResponse {
  usageMetadata : option GoogleUsageMetadata;
}.

Definition Response := option GoogleResponse.

Definition extractTokens (response : Response)
    : JsError + (nullable number * nullable number) :=
  match property_of "usageMetadata" response usageMetadata with
  | inl e => inl e
  | inr None => inr (None, None)
  | inr (Some u) => inr (promptTokenCount u, candidatesTokenCount u)
  end.

Definition makeWrapper {S} `{Tracing S}
    (original : list (option Kwargs) -> Outcome Response)
    (modelName : string)
    (pricing : CostFn) (store settled : Store)
    (args : list (option Kwargs)) : Outcome Response * S :=
  let spanName := "google.generativeai.generate_content" in
  let stage := default spanName (getStage store) in
  let span := startActiveSpan spanName in
  match original args with
  | Resolved response =>
      let span :=
        try_catch_log
          (let* tokens := lift (extractTokens response) in
           let inputTokens := tokens.1 in
           let outputTokens := tokens.2 in
           let pipelineId := getPipelineId settled in
           when (truthy pipelineId)
             (setAttribute Attributes.PIPELINE_ID (AStr (default "" pipelineId))) ;;
           setAttribute Attributes.STAGE (AStr stage) ;;
           setAttribute Attributes.MODEL (AStr modelName) ;;
           setAttribute Attributes.PROVIDER (AStr PROVIDER_NAME) ;;
           number_or_skip Attributes.TOKENS_INPUT inputTokens ;;
           number_or_skip Attributes.TOKENS_OUTPUT outputTokens ;;
           let* cost := lift (pricing PROVIDER_NAME modelName inputTokens outputTokens) in
           number_or_skip Attributes.COST_INPUT (Pricing.inputCost cost) ;;
           number_or_skip Attributes.COST_OUTPUT (Pricing.outputCost cost) ;;
           number_or_skip Attributes.COST_TOTAL (Pricing.totalCost cost))
          span in
      (Resolved response, span_end span)
  | Rejected err => (Rejected err, span_end span)
  end.

Definition computed (pm : Pricing.PricingModel) (response : Response)
    (modelName : string) : option Pricing.CostResult :=
  match extractTokens response with
  | inr tokens =>
      Some (Pricing.computeCost pm PROVIDER_NAME modelName tokens.1 tokens.2)
  | inl _ => None
  end.

End Google.

(** What a span carries for the three cost attributes. *)
Definition cost_attributes (span : Span)
    : option AttributeValue * option AttributeValue * option AttributeValue :=
  (lookup Attributes.COST_INPUT (Otel.attributes span),
   lookup Attributes.COST_OUTPUT (Otel.attributes span),
   lookup Attributes.COST_TOTAL (Otel.attributes span)).

(** What it should carry for computed costs [c]: each known cost as
    itself, nothing for a [null] one, nothing at all when no cost was
    computed. *)
Definition expected_cost_attributes (c : option Pricing.CostResult)
    : option AttributeValue * option AttributeValue * option AttributeValue :=
  match c with
  | Some c =>
      (ANum <$> Pricing.inputCost c, ANum <$> Pricing.outputCost c,
       ANum <$> Pricing.totalCost c)
  | None => (None, None, None)
  end.

(** A span whose [setAttribute] always throws. *)
Definition failing : Tracing Span := {|
  startActiveSpan spanName := mkSpan spanName [] false;
  setAttribute _ _ := throw (Error "setAttribute failed");
  span_end s := mkSpan (Otel.name s) (Otel.attributes s) true;
|}.

(** A [pricing] object whose [computeCost] throws. *)
Definition failing_pricing : CostFn :=
  fun _ _ _ _ => inl (TypeError "pricing.computeCost is not a function").

End Providers.

(** ** Numbers: [Number.isInteger] and [String(number)] *)

Module Number.
Import JS.
Local Open Scope Z_scope.

(** A finite double is [(-1)^s * m * 2^e]. *)
Definition isInteger (v : number) : bool :=
  match Prim2SF v with
  | S754_zero _ => true
  | S754_finite _ m e =>
      (0 <=? e)%Z || (Z.pos m mod 2 ^ (- e) =? 0)%Z
  | _ => false
  end.

(** The mathematical value of an integer-valued double ([0] for the
    other ones). *)
Definition integer_value (v : number) : Z :=
  match Prim2SF v with
  | S754_finite s m e =>
      if isInteger v then
        cond_Zopp s (if (0 <=? e)%Z then Z.pos m * 2 ^ e else Z.pos m / 2 ^ (- e))
      else 0%Z
  | _ => 0%Z
  end.

(** [Number.isFinite]: neither NaN nor an infinity. *)
Definition isFinite (v : number) : bool :=
  match Prim2SF v with
  | S754_zero _ | S754_finite _ _ _ => true
  | _ => false
  end.

(** The double nearest to an integer. *)
Definition of_Z (z : Z) : number :=
  SF2Prim (binary_normalize prec emax z 0 false).

(** [Number.MAX_SAFE_INTEGER + 1]. *)
Definition two53 : Z := 2 ^ 53.

(** Decimal digits of a natural number. *)
Definition decimal (z : Z) : string :=
  DecimalString.NilZero.string_of_int (Z.to_int (Z.abs z)).

Fixpoint zeros (n : nat) : string :=
  match n with
  | O => ""
  | S n' => "0" +:+ zeros n'
  end.

Section Shortest.
(** The double [m * 2^e], [m] its integral significand. *)
Variables (m : positive) (e : Z).

(** In units of [2^(e-2)]: the value and the two midpoints to its
    neighbours.  The lower neighbour is half as far at a power of
    two. *)
Definition x4 : Z := 4 * Z.pos m.
Definition hi4 : Z := 4 * Z.pos m + 2.
Definition lo4 : Z :=
  if (Z.pos m =? 2 ^ 52)%Z && (-1074 <? e)%Z then 4 * Z.pos m - 1
  else 4 * Z.pos m - 2.

(** [s * 10^p] and [b * 2^(e-2)], brought to a common scale. *)
Definition scaled_dec (s p : Z) : Z :=
  s * 10 ^ Z.max p 0 * 2 ^ Z.max (2 - e) 0.
Definition scaled_bin (b p : Z) : Z :=
  b * 2 ^ Z.max (e - 2) 0 * 10 ^ Z.max (- p) 0.

(** The least [n] with [m * 2^e < 10^n]. *)
Fixpoint magnitude (fuel : nat) (n : Z) : Z :=
  match fuel with
  | O => n
  | S fuel' =>
      if (scaled_bin x4 n <? scaled_dec 1 n)%Z then n
      else magnitude fuel' (n + 1)
  end.

(** [s * 10^p] reads back as the double: it is nearer to it than to
    either neighbour, a midpoint counting when [m] is even. *)
Definition reads_back (s p : Z) : bool :=
  let c := scaled_dec s p in
  if Z.even (Z.pos m)
  then (scaled_bin lo4 p <=? c)%Z && (c <=? scaled_bin hi4 p)%Z
  else (scaled_bin lo4 p <? c)%Z && (c <? scaled_bin hi4 p)%Z.

(** The best [k]-digit candidate, if one reads back. *)
Definition candidate (n k : Z) : option Z :=
  let p := n - k in
  let x := scaled_bin x4 p in
  let s1 := (x / scaled_dec 1 p)%Z in
  let s2 := (s1 + 1)%Z in
  let d1 := (x - scaled_dec s1 p)%Z in
  let d2 := (scaled_dec s2 p - x)%Z in
  match reads_back s1 p, reads_back s2 p with
  | true, true =>
      if (d1 <? d2)%Z then Some s1
      else if (d2 <? d1)%Z then Some s2
      else if Z.even s1 then Some s1 else Some s2
  | true, false => Some s1
  | false, true => Some s2
  | false, false => None
  end.

(** The digits [s], their number [k] and the exponent [n]: [k] as
    small as possible. *)
Fixpoint search (fuel : nat) (n k : Z) : Z * Z * Z :=
  match fuel with
  | O => (x4 / 4, k, n)%Z
  | S fuel' =>
      match candidate n k with
      | Some s =>
          if (s =? 10 ^ k)%Z then (10 ^ (k - 1), k, n + 1)%Z
          else (s, k, n)
      | None => search fuel' n (k + 1)%Z
      end
  end.

Definition shortest : Z * Z * Z :=
  search 17 (magnitude 700 (-330)) 1.

End Shortest.

Definition str_take (n : nat) (s : string) : string := String.substring 0 n s.
Definition str_drop (n : nat) (s : string) : string :=
  String.substring n (String.length s - n) s.

(** The text of [(s, k, n)]. *)
Definition format (skn : Z * Z * Z) : string :=
  let '(s, k, n) := skn in
  let ds := decimal s in
  if (k <=? n)%Z && (n <=? 21)%Z then
    ds +:+ zeros (Z.to_nat (n - k))
  else if (0 <? n)%Z && (n <=? 21)%Z then
    str_take (Z.to_nat n) ds +:+ "." +:+ str_drop (Z.to_nat n) ds
  else if (-6 <? n)%Z && (n <=? 0)%Z then
    "0." +:+ zeros (Z.to_nat (- n)) +:+ ds
  else
    let e := (n - 1)%Z in
    let exponent := (if (e <? 0)%Z then "-" else "+") +:+ decimal e in
    if (k =? 1)%Z then ds +:+ "e" +:+ exponent
    else str_take 1 ds +:+ "." +:+ str_drop 1 ds +:+ "e" +:+ exponent.

(** [String(v)], that is Number::toString(v, 10).  Its digits are the
    fewest that read back as [v]; below [2^53] every integer is a
    double of its own, so there they are the integer's own digits. *)
Definition toString (v : number) : string :=
  match Prim2SF v with
  | S754_nan => "NaN"
  | S754_zero _ => "0"
  | S754_infinity s => if s then "-Infinity" else "Infinity"
  | S754_finite s m e =>
      (if s then "-" else "") +:+
      (if isInteger v && (Z.abs (integer_value v) <? two53)%Z
       then decimal (integer_value v)
       else format (shortest m e))
  end.

(** The general search alone, for comparison. *)
Definition toString_search (v : number) : string :=
  match Prim2SF v with
  | S754_finite s m e => (if s then "-" else "") +:+ format (shortest m e)
  | _ => toString v
  end.

(** [n >= v] for the length [n] of an array and a number [v].  A length
    is an integer below [2^32], so exactly a double, and the comparison
    is that of the mathematical values (Number::lessThan); it is false
    when [v] is NaN. *)
Definition length_ge (n : nat) (v : number) : bool :=
  match Prim2SF v with
  | S754_zero _ => true
  | S754_infinity negative => negative
  | S754_nan => false
  | S754_finite negative m e =>
      negative
      || (if 0 <=? e then Z.pos m * 2 ^ e <=? Z.of_nat n
          else Z.pos m <=? Z.of_nat n * 2 ^ (- e))
  end.

(** The least length [n] with [n >= v]: [v] rounded up to a whole
    number, 0 for a negative [v]; there is none for NaN and
    [+Infinity]. *)
Definition least_length (v : number) : option nat :=
  match Prim2SF v with
  | S754_zero _ => Some 0%nat
  | S754_infinity negative => if negative then Some 0%nat else None
  | S754_nan => None
  | S754_finite negative m e =>
      if negative then Some 0%nat
      else Some (Z.to_nat (if 0 <=? e then Z.pos m * 2 ^ e
                           else (Z.pos m + 2 ^ (- e) - 1) / 2 ^ (- e)))
  end.

(** The number of elements [splice(0, v)] removes from an array of
    [len] elements: ToIntegerOrInfinity of [v], which drops the fraction
    and takes NaN for 0, clamped between 0 and [len]. *)
Definition delete_count (v : number) (len : nat) : nat :=
  match Prim2SF v with
  | S754_zero _ | S754_nan => 0%nat
  | S754_infinity negative => if negative then 0%nat else len
  | S754_finite negative m e =>
      if negative then 0%nat
      else Nat.min len
             (Z.to_nat (if 0 <=? e then Z.pos m * 2 ^ e
                        else Z.pos m / 2 ^ (- e)))
  end.

End Number.

(** ** The exporter ([exporter.ts]) *)

Module Exporter.
Import JS Otel.

Record SpanContext : Type := mkSpanContext {
  ctx_traceId : string;
  ctx_spanId : string;
}.

(** [ReadableSpan]: the fields the exporter reads.  [HrTime] is a pair
    [seconds, nanoseconds]. *)
Record ReadableSpan : Type := mkReadableSpan {
  rs_name : string;
  rs_attributes : option Attributes;
  spanContext : SpanContext;
  startTime : number * number;
  endTime : number * number;
}.

Inductive OtlpValue : Type :=
| intValue (s : string)
| doubleValue (n : number)
| stringValue (s : string)
| boolValue (b : bool).

Record OtlpAttribute : Type := mkOtlpAttribute {
  key : string;
  value : OtlpValue;
}.

(** The payload leaves as [JSON.stringify(payload)] ([sendWithRetry]).
    A value as a JSON parser reads it from that text. *)
Inductive Json : Type :=
| Jnull
| Jnumber (n : number)
| Jstring (s : string)
| Jbool (b : bool).

(** [JSON.stringify] of a number: NaN and the infinities are written
    [null]; a zero is written [0], without its sign; any other number is
    written with the digits of [String], the shortest that read back as
    the same double. *)
Definition JSON_number (n : number) : Json :=
  if Number.isFinite n
  then if (n =? 0)%float then Jnumber 0 else Jnumber n
  else Jnull.

(** The value object of an attribute as it is read from the body: the
    name of its one member, and the value of that member. *)
Definition JSON_value (v : OtlpValue) : string * Json :=
  match v with
  | intValue s => ("intValue", Jstring s)
  | doubleValue n => ("doubleValue", JSON_number n)
  | stringValue s => ("stringValue", Jstring s)
  | boolValue b => ("boolValue", Jbool b)
  end.

Record OtlpSpan : Type := mkOtlpSpan {
  traceId : string;
  spanId : string;
  name : string;
  startTimeUnixNano : string;
  endTimeUnixNano : string;
  attributes : list OtlpAttribute;
}.

(** [{resourceSpans: [{scopeSpans: [{spans}]}]}]. *)
Record ScopeSpans : Type := mkScopeSpans { spans : list OtlpSpan }.
Record ResourceSpans : Type := mkResourceSpans { scopeSpans : list ScopeSpans }.
Record OtlpPayload : Type := mkOtlpPayload { resourceSpans : list ResourceSpans }.

(** One turn of the loop over [Object.entries(span.attributes)]: what it
    pushes to [attrs]. *)
Definition encode (entry : string * AttributeValue) : list OtlpAttribute :=
  let '(key, value) := entry in
  match value with
  | ANum n =>
      if Number.isInteger n
      then [mkOtlpAttribute key (intValue (Number.toString n))]
      else [mkOtlpAttribute key (doubleValue n)]
  | AStr s => [mkOtlpAttribute key (stringValue s)]
  | ABool b => [mkOtlpAttribute key (boolValue b)]
  | AArray _ | AUndefined => []
  end.

(** The attribute values the loop has a branch for. *)
Definition sendable (v : AttributeValue) : bool :=
  match v with
  | AStr _ | ANum _ | ABool _ => true
  | AArray _ | AUndefined => false
  end.

Definition unixNano (t : number * number) : string :=
  Number.toString (t.1 * 1000000000 + t.2)%float.

Definition spanToOtlp (span : ReadableSpan) : OtlpSpan :=
  let attrs :=
    match rs_attributes span with
    | Some a => concat (map encode a)
    | None => []
    end in
  let context := spanContext span in
  mkOtlpSpan (ctx_traceId context) (ctx_spanId context) (rs_name span)
    (unixNano (startTime span)) (unixNano (endTime span)) attrs.

Inductive ExportResultCode : Type := SUCCESS | FAILED.

(** The fields of [HikariSpanExporter].  [maxQueueSize], [batchSize] and
    [flushIntervalMs] are the numbers the configuration gives, whatever
    they are: the constructor does not check them.  [flushTimer] is
    whether the interval timer is armed. *)
Record HikariSpanExporter : Type := mkExporter {
  endpoint : string;
  maxQueueSize : number;
  batchSize : number;
  flushIntervalMs : number;
  queue : list ReadableSpan;
  shutdown_flag : bool;
  flushTimer : bool;
}.

Definition with_queue (st : HikariSpanExporter) (q : list ReadableSpan)
    : HikariSpanExporter :=
  mkExporter (endpoint st) (maxQueueSize st) (batchSize st)
    (flushIntervalMs st) q (shutdown_flag st) (flushTimer st).

(** [s.replace(/\/$/, "")]: one trailing slash is removed. *)
Fixpoint strip_slash (s : string) : string :=
  match s with
  | "" => ""
  | String c "" => if Ascii.eqb c (Ascii.ascii_of_nat 47) then "" else s
  | String c rest => String c (strip_slash rest)
  end.

(** [constructor(config)]; it also arms the flush timer. *)
Definition new (endpoint : option string)
    (maxQueueSize batchSize flushIntervalMs : option number)
    : HikariSpanExporter :=
  mkExporter (strip_slash (default "http://localhost:8000" endpoint))
    (default 10000%float maxQueueSize) (default 100%float batchSize)
    (default 5000%float flushIntervalMs) [] false true.

(** [Array.prototype.shift]: drops the head; nothing on an empty
    array. *)
Definition shift {A} (q : list A) : list A := tail q.

(** The body of the loop of [export]: [this.queue.length >=
    this.maxQueueSize] decides whether the head is dropped. *)
Definition enqueue (maxQueueSize : number) (q : list ReadableSpan)
    (span : ReadableSpan) : list ReadableSpan :=
  let q := if Number.length_ge (length q) maxQueueSize then shift q else q in
  (q ++ [span])%list.

(** [splice(0, v)]: the removed prefix and what stays. *)
Definition splice0 {A} (v : number) (q : list A) : list A * list A :=
  let n := Number.delete_count v (length q) in
  (take n q, drop n q).

(** [flushBatch], up to its first suspension: the batch leaves the queue
    and its payload is handed to [sendWithRetry]. *)
Definition flushBatch (st : HikariSpanExporter)
    : HikariSpanExporter * option OtlpPayload :=
  if (length (queue st) =? 0)%nat then (st, None)
  else
    let '(batch, rest) := splice0 (batchSize st) (queue st) in
    let st := with_queue st rest in
    if (length batch =? 0)%nat then (st, None)
    else
      let otlpSpans := map spanToOtlp batch in
      (st, Some (mkOtlpPayload [mkResourceSpans [mkScopeSpans otlpSpans]])).

(** [export(spans, resultCallback)]: the new state, the payload sent if
    a flush was started, and the code passed to [resultCallback]. *)
Definition export (st : HikariSpanExporter) (spans : list ReadableSpan)
    : HikariSpanExporter * option OtlpPayload * ExportResultCode :=
  if shutdown_flag st then (st, None, SUCCESS)
  else
    let q := foldl (enqueue (maxQueueSize st)) (queue st) spans in
    let st := with_queue st q in
    let '(st, sent) :=
      if Number.length_ge (length (queue st)) (batchSize st)
      then flushBatch st
      else (st, None) in
    (st, sent, SUCCESS).

(** [forceFlush()]. *)
Definition forceFlush (st : HikariSpanExporter)
    : HikariSpanExporter * option OtlpPayload :=
  flushBatch st.

(** [shutdown()]: raises the flag, clears the timer, flushes once. *)
Definition shutdown (st : HikariSpanExporter)
    : HikariSpanExporter * option OtlpPayload :=
  flushBatch
    (mkExporter (endpoint st) (maxQueueSize st) (batchSize st)
       (flushIntervalMs st) (queue st) true false).

(** What happens to an exporter: the span processor exports, the timer
    or [forceFlush] flushes, the application shuts down. *)
Inductive event : Type :=
| Export (spans : list ReadableSpan)
| Flush
| Shutdown.

Definition step (st : HikariSpanExporter) (ev : event)
    : HikariSpanExporter * option OtlpPayload :=
  match ev with
  | Export spans => (export st spans).1
  | Flush => forceFlush st
  | Shutdown => shutdown st
  end.

(** A run: the final state and the payloads sent, oldest first. *)
Fixpoint run (st : HikariSpanExporter) (evs : list event)
    : HikariSpanExporter * list OtlpPayload :=
  match evs with
  | [] => (st, [])
  | ev :: evs' =>
      let '(st1, sent) := step st ev in
      let '(st2, later) := run st1 evs' in
      (st2, (option_list sent ++ later)%list)
  end.

(** The spans handed to [export] during a run, in order. *)
Definition exported (evs : list event) : list ReadableSpan :=
  concat (omap (fun ev => match ev with Export spans => Some spans | _ => None end) evs).

(** The spans of an event. *)
Definition spans_of (ev : event) : list ReadableSpan :=
  match ev with
  | Export spans => spans
  | _ => []
  end.

(** The payload of a batch. *)
Definition payload_of (batch : list ReadableSpan) : OtlpPayload :=
  mkOtlpPayload [mkResourceSpans [mkScopeSpans (map spanToOtlp batch)]].

(** What [flushBatch] sends for a batch: nothing for an empty one. *)
Definition sent_of (batch : list ReadableSpan) : option OtlpPayload :=
  match batch with
  | [] => None
  | _ => Some (payload_of batch)
  end.

(** A span to run examples on. *)
Definition sample_span (id : string) (attrs : Attributes) : ReadableSpan :=
  mkReadableSpan "openai.chat.completions.create" (Some attrs)
    (mkSpanContext "5b8aa5a2d2c872e8321cf37308d69df2" id)
    (1706000000, 0)%float (1706000001, 500000000)%float.

(** Every number an exporter holds: its three settings and the length
    of its queue. *)
Definition counters (st : HikariSpanExporter) : list number :=
  [maxQueueSize st; batchSize st; flushIntervalMs st;
   Number.of_Z (Z.of_nat (length (queue st)))].

End Exporter.

(** ** The continuous aggregates ([002_continuous_aggregates.sql]) *)

Module Schema.
Import JS.

(** A row of [spans] ([001_initial_schema.sql]); [time] in microseconds
    since the epoch, a nullable column an [option]. *)
Record span_row : Type := mkSpanRow {
  time : Z;
  trace_id : string;
  span_id : string;
  span_name : string;
  pipeline_id : string;
  stage : string;
  model : string;
  provider : string;
  tokens_input : option Z;
  tokens_output : option Z;
  cost_input : option number;
  cost_output : option number;
  cost_total : option number;
  duration_ms : number;
}.

(** [time_bucket(width, time)]: the start of the bucket of [time];
    buckets are aligned on Monday 2000-01-03 00:00 UTC. *)
Definition bucket_origin : Z := 946857600000000.
Definition time_bucket (width t : Z) : Z :=
  (bucket_origin + width * ((t - bucket_origin) / width))%Z.

Definition hour : Z := 3600000000.
Definition day : Z := (24 * hour)%Z.
Definition week : Z := (7 * day)%Z.

(** The [GROUP BY] columns. *)
Definition group_key : Type := Z * string * string * string * string.

Definition key_of (width : Z) (r : span_row) : group_key :=
  (time_bucket width (time r), pipeline_id r, stage r, model r, provider r).

(** The [WHERE] clause. *)
Definition cost_total_is_not_null (r : span_row) : bool :=
  match cost_total r with
  | Some _ => true
  | None => false
  end.

(** SQL aggregates: [SUM] and [AVG] skip NULL inputs and are NULL when
    none is left; [COUNT( * )] counts rows. *)
Definition non_null {A} (l : list (option A)) : list A := omap id l.

Definition SUM_float (l : list (option number)) : option number :=
  match non_null l with
  | [] => None
  | x :: xs => Some (foldl PrimFloat.add x xs)
  end.

Definition SUM_int (l : list (option Z)) : option Z :=
  match non_null l with
  | [] => None
  | x :: xs => Some (foldl Z.add x xs)
  end.

Definition COUNT_star {A} (l : list A) : Z := Z.of_nat (length l).

Definition AVG_float (l : list (option number)) : option number :=
  match non_null l with
  | [] => None
  | x :: xs =>
      Some (foldl PrimFloat.add x xs
            / Number.of_Z (Z.of_nat (length (x :: xs))))%float
  end.

(** A row of a view. *)
Record cost_row : Type := mkCostRow {
  bucket : Z;
  cr_pipeline_id : string;
  cr_stage : string;
  cr_model : string;
  cr_provider : string;
  total_cost : option number;
  total_tokens_input : option Z;
  total_tokens_output : option Z;
  span_count : Z;
  avg_cost_per_span : option number;
}.

(** The [SELECT] list, over the rows of one group. *)
Definition aggregate (k : group_key) (rows : list span_row) : cost_row :=
  let '(b, p, s, m, pr) := k in
  mkCostRow b p s m pr
    (SUM_float (cost_total <$> rows))
    (SUM_int (tokens_input <$> rows))
    (SUM_int (tokens_output <$> rows))
    (COUNT_star rows)
    (AVG_float (cost_total <$> rows)).

(** [GROUP BY]: one group per distinct key, holding the rows of that
    key. *)
Definition group_by (width : Z) (rows : list span_row)
    : list (group_key * list span_row) :=
  (fun k => (k, filter (fun r => key_of width r = k) rows))
    <$> remove_dups (key_of width <$> rows).

(** [SELECT ... FROM spans WHERE cost_total IS NOT NULL GROUP BY ...]. *)
Definition cost_view (width : Z) (spans : list span_row) : list cost_row :=
  (fun g => aggregate g.1 g.2)
    <$> group_by width (filter (fun r => cost_total_is_not_null r = true) spans).

(** The three views differ in the width of the bucket. *)
Inductive interval : Type := Hour | Day | Week.

Definition width_of (i : interval) : Z :=
  match i with
  | Hour => hour
  | Day => day
  | Week => week
  end.

Definition cost_hourly := cost_view (width_of Hour).
Definition cost_daily := cost_view (width_of Day).
Definition cost_weekly := cost_view (width_of Week).

Definition view_of (i : interval) : list span_row -> list cost_row :=
  match i with
  | Hour => cost_hourly
  | Day => cost_daily
  | Week => cost_weekly
  end.

(** The key of a view row. *)
Definition key_of_row (g : cost_row) : group_key :=
  (bucket g, cr_pipeline_id g, cr_stage g, cr_model g, cr_provider g).

End Schema.

(** ** The collector side, as far as the statements about the SDK refer to it *)

Module Collector.
Import JS Exporter.

(** [|x - y| <= 1e-9], computed in doubles: the absolute tolerance of
    the cost invariant. *)
Definition within_tolerance (x y : number) : bool :=
  (abs (x - y) <=? 1e-9)%float.

(** Modelled from the spec: the pipeline cost query of the collector
    (section 4.4.1, step 2), whose code is not among the sources:
    [total_cost] is the sum of the non-null [cost_total] of the
    pipeline's spans, [0.0] when there is none. *)
Definition pipeline_total_cost (cost_totals : list (option number)) : number :=
  default 0%float (Schema.SUM_float cost_totals).

(** What a typed attribute value is read as. *)
Inductive Coerced : Type :=
| CInt (z : Z)
| CFloat (n : number)
| CStr (s : string)
| CBool (b : bool).

(** A decimal string: digits, after an optional minus sign. *)
Definition parse_decimal (s : string) : option Z :=
  Z.of_int <$> DecimalString.NilZero.int_of_string s.

(** Modelled from the spec: the attribute coercion of the collector's
    decoder (section 4.1, step 2), whose code is not among the sources,
    on a value object as it is read from the body: an [intValue] is a
    decimal string and is read as that integer; a [doubleValue] is a
    number and is kept as the floating-point number it is, also when it
    is integer-valued; a [null] is no number. *)
Definition coerce (v : string * Json) : option Coerced :=
  let '(member, j) := v in
  if String.eqb member "intValue" then
    match j with
    | Jstring s => CInt <$> parse_decimal s
    | _ => None
    end
  else if String.eqb member "doubleValue" then
    match j with
    | Jnumber n => Some (CFloat n)
    | _ => None
    end
  else if String.eqb member "stringValue" then
    match j with
    | Jstring s => Some (CStr s)
    | _ => None
    end
  else if String.eqb member "boolValue" then
    match j with
    | Jbool b => Some (CBool b)
    | _ => None
    end
  else None.

(** The value of a string, boolean or number attribute, as the consumer
    should see it: an integer-valued number is that integer. *)
Definition value_of (v : Otel.AttributeValue) : option Coerced :=
  match v with
  | Otel.AStr s => Some (CStr s)
  | Otel.ABool b => Some (CBool b)
  | Otel.ANum n =>
      if Number.isInteger n then Some (CInt (Number.integer_value n))
      else Some (CFloat n)
  | _ => None
  end.

(** The attribute values that reach the consumer unchanged: strings,
    booleans, finite numbers that are not integers, and integers below
    [2^53] in magnitude. *)
Definition recoverable (v : Otel.AttributeValue) : bool :=
  match v with
  | Otel.AStr _ | Otel.ABool _ => true
  | Otel.ANum n =>
      if Number.isInteger n
      then (Z.abs (Number.integer_value n) <? Number.two53)%Z
      else Number.isFinite n
  | _ => false
  end.

End Collector.

(** ** Two statements of the specification, as they are worded *)

Module AsClaimed.
Import JS Otel Exporter Collector.

(** Some number the exporter holds has grown from [st] to [st']. *)
Definition some_counter_incremented (st st' : HikariSpanExporter) : Prop :=
  exists (i : nat) (a b : number),
    counters st !! i = Some a /\ counters st' !! i = Some b
    /\ (a <? b)%float = true.

(** "For every call to [export] on a queue holding at most
    [maxQueueSize] spans: the queue length never exceeds [maxQueueSize],
    an overflow counter is incremented [when the head is discarded],
    and the enqueue never throws to the producer."  Read in the claim's
    favour: for an exporter still running, whose capacity is a whole
    number [max], at least one. *)
Definition export_drops_oldest_and_counts : Prop :=
  forall (st : HikariSpanExporter) (spans : list ReadableSpan) (max : nat),
    shutdown_flag st = false ->
    Number.isInteger (maxQueueSize st) = true ->
    Number.integer_value (maxQueueSize st) = Z.of_nat max ->
    1 <= max ->
    length (queue st) <= max ->
    let '(st', _, code) := export st spans in
    length (queue st') <= max
    /\ (max < length (queue st) + length spans ->
        some_counter_incremented st st')
    /\ code = SUCCESS.

(** "[spanToOtlp] encodes each numeric attribute whose value is an
    integer as [{intValue: <decimal string>}], so a consumer that
    accepts integers as decimal strings recovers [it] exactly." *)
Definition integers_sent_as_decimal_strings : Prop :=
  forall (k : string) (n : number),
    Number.isInteger n = true ->
    exists s, encode (k, ANum n) = [mkOtlpAttribute k (intValue s)]
              /\ parse_decimal s = Some (Number.integer_value n).

(** "For every span serialized by the exporter, a consumer recovers
    every attribute value": every attribute that has a value is sent. *)
Definition every_attribute_is_sent : Prop :=
  forall (span : ReadableSpan) (k : string) (v : AttributeValue),
    (k, v) ∈ default [] (rs_attributes span) ->
    v <> AUndefined ->
    exists a, a ∈ attributes (spanToOtlp span) /\ key a = k.

End AsClaimed.

(** ** Pricing: a sequence of updates *)

Module PricingOps.
Import JS Pricing.

(** [pm.update(key, value.inputCostPerToken, value.outputCostPerToken)]
    for each pair, in order. *)
Definition update_all (pm : PricingModel)
    (entries : list (string * ModelPricing)) : PricingModel :=
  foldl (fun pm kv =>
           update pm kv.1 (inputCostPerToken kv.2) (outputCostPerToken kv.2))
        pm entries.

End PricingOps.

(** ** Context propagation: the store and its setters ([context.ts]) *)

Module ContextOps.
Import Context.

(** Context objects are shared: [setPipelineId] and [setStage] write into
    the object the current context holds, which is the very object the
    caller of [runWithContext] passed.  So objects live at references. *)
Definition ref := positive.

(** The [AsyncLocalStorage] instance [storage], seen from one synchronous
    run: the objects alive, and the one the current context holds. *)
Record AsyncLocalStorage : Type := mkStorage {
  objects : gmap ref HikariContext;
  current : option ref;
}.

(** [storage.getStore()], read. *)
Definition getStore (st : AsyncLocalStorage) : Store :=
  current st ≫= (objects st !!.).

(** An object literal. *)
Definition new_object (c : HikariContext) (st : AsyncLocalStorage)
    : ref * AsyncLocalStorage :=
  let r := fresh (dom (objects st)) in
  (r, mkStorage (<[r := c]> (objects st)) (current st)).

(** [storage.enterWith(c)] with [c] an object literal. *)
Definition enterWith (c : HikariContext) (st : AsyncLocalStorage)
    : AsyncLocalStorage :=
  let '(r, st) := new_object c st in
  mkStorage (objects st) (Some r).

(** [store.field = value] on the object of the current context. *)
Definition assign_store (f : HikariContext -> HikariContext)
    (st : AsyncLocalStorage) : AsyncLocalStorage :=
  match current st with
  | Some r => mkStorage (alter f r (objects st)) (current st)
  | None => st
  end.

(** [setPipelineId(pipelineId)]. *)
Definition setPipelineId (pipelineId : string) (st : AsyncLocalStorage)
    : AsyncLocalStorage :=
  match getStore st with
  | Some _ =>
      assign_store (fun c => mkHikariContext (Some pipelineId) (stage c)) st
  | None => enterWith (mkHikariContext (Some pipelineId) None) st
  end.

(** [setStage(stage)]. *)
Definition setStage (stage : string) (st : AsyncLocalStorage)
    : AsyncLocalStorage :=
  match getStore st with
  | Some _ =>
      assign_store
        (fun c => mkHikariContext (Context.pipelineId c) (Some stage)) st
  | None => enterWith (mkHikariContext None (Some stage)) st
  end.

(** [runWithContext(context, fn)], that is [storage.run(context, fn)]:
    [fn] runs with [context] as the store, and the context of the caller
    is the current one again afterwards; what [fn] wrote into objects
    stays written. *)
Definition runWithContext {T} (context : ref)
    (fn : AsyncLocalStorage -> T * AsyncLocalStorage)
    (st : AsyncLocalStorage) : T * AsyncLocalStorage :=
  let '(result, inner) := fn (mkStorage (objects st) (Some context)) in
  (result, mkStorage (objects inner) (current st)).

(** What the program may do to the context while a call is in flight:
    the setters, called in the context of the call. *)
Inductive write : Type :=
| SetPipelineId (pipelineId : string)
| SetStage (stage : string).

Definition apply_write (st : AsyncLocalStorage) (w : write)
    : AsyncLocalStorage :=
  match w with
  | SetPipelineId pipelineId => setPipelineId pipelineId st
  | SetStage stage => setStage stage st
  end.

Definition in_flight (writes : list write) (st : AsyncLocalStorage)
    : AsyncLocalStorage :=
  foldl apply_write st writes.

(** The pipeline id written last, [pipelineId] when none is written. *)
Definition last_pipeline_id (pipelineId : string) (writes : list write)
    : string :=
  foldl (fun id w =>
           match w with
           | SetPipelineId id' => id'
           | SetStage _ => id
           end)
        pipelineId writes.

End ContextOps.

(** ** The attributes a wrapper may set, in the order it sets them *)

Module Vocabulary.

Definition in_order : list string :=
  [ Attributes.PIPELINE_ID; Attributes.STAGE; Attributes.MODEL;
    Attributes.PROVIDER; Attributes.TOKENS_INPUT; Attributes.TOKENS_OUTPUT;
    Attributes.COST_INPUT; Attributes.COST_OUTPUT; Attributes.COST_TOTAL ].

End Vocabulary.

(** ** Sending a batch ([sendWithRetry], [exporter.ts]) *)

Module Transport.
Import JS Exporter.

Definition RETRY_DELAYS_MS : list Z := [1000; 2000; 4000]%Z.

(** How one [fetch] settles: with a response, whose [ok] and [status]
    are read, or with a rejection. *)
Inductive Reply : Type :=
| Response (ok : bool) (status : Z)
| Failure (err : JsError).

(** What [sendWithRetry] does, in order: a POST of the payload (the body
    is its [JSON.stringify]), a line on the console, a wait. *)
Inductive Effect : Type :=
| Fetch (url : string) (body : OtlpPayload)
| Debug_status (status : Z) (attempt : nat)
| Debug_failed (err : JsError) (attempt : nat)
| Sleep (ms : Z)
| Warn_dropped (retries : nat).

(** The [for] loop, from [attempt] on, with [turns] turns left;
    [fetch n] is how the [n]-th call to [fetch] settles. *)
Fixpoint attempts (fetch : nat -> Reply) (url : string) (body : OtlpPayload)
    (attempt turns : nat) : list Effect :=
  match turns with
  | O => [Warn_dropped (length RETRY_DELAYS_MS)]
  | S turns =>
      Fetch url body ::
      match fetch attempt with
      | Response true _ => []
      | reply =>
          (match reply with
           | Response _ status => Debug_status status (attempt + 1)
           | Failure err => Debug_failed err (attempt + 1)
           end
           :: (if (attempt <? length RETRY_DELAYS_MS - 1)%nat
               then [Sleep (RETRY_DELAYS_MS !!! attempt)]
               else [])
           ++ attempts fetch url body (S attempt) turns)%list
      end
  end.

Definition sendWithRetry (st : HikariSpanExporter) (fetch : nat -> Reply)
    (payload : OtlpPayload) : list Effect :=
  let url := endpoint st +:+ "/v1/traces" in
  attempts fetch url payload 0 (length RETRY_DELAYS_MS).

(** Readings of a trace: the requests made, the time waited, whether
    the batch was given up. *)
Definition requests (trace : list Effect) : list (string * OtlpPayload) :=
  omap (fun e => match e with Fetch url body => Some (url, body) | _ => None end)
       trace.

Definition waits (trace : list Effect) : list Z :=
  omap (fun e => match e with Sleep ms => Some ms | _ => None end) trace.

Definition dropped (trace : list Effect) : bool :=
  existsb (fun e => match e with Warn_dropped _ => true | _ => false end) trace.

Definition ok (r : Reply) : bool :=
  match r with
  | Response true _ => true
  | _ => false
  end.

End Transport.

(** ** Queries on the cost views *)

Module SchemaOps.
Import Schema.

(** [SELECT * FROM spans WHERE cost_total IS NOT NULL]. *)
Abbreviation costed spans :=
  (filter (fun r => cost_total_is_not_null r = true) spans).




(** A span row to run examples on. *)
Definition sample_row (time : Z) (tokens_input : option Z) : span_row :=
  mkSpanRow time "5b8aa5a2d2c872e8321cf37308d69df2" "051581bf3cb55c13"
    "openai.chat.completions.create" "p-1" "plan" "gpt-4o" "openai"
    tokens_input None None None (Some 0.5%float) 12%float.

End SchemaOps.


(** ** The string functions of the version checks *)

Module Text.

(** [s.split(".")]: the pieces between the dots, at least one. *)
Fixpoint split_dot (s : string) : list string :=
  match s with
  | "" => [""]
  | String c rest =>
      if Ascii.eqb c (Ascii.ascii_of_nat 46) then "" :: split_dot rest
      else
        match split_dot rest with
        | piece :: pieces => String c piece :: pieces
        | [] => [String c ""]
        end
  end.

(** A string is the sequence of its UTF-8 bytes.  The dot, the signs
    and the digits are one byte each, and no byte of a longer character
    equals one of them.

    The white space [parseInt] skips is the WhiteSpace and the
    LineTerminator of ECMAScript.  In one byte: TAB, LF, VT, FF, CR and
    the space. *)
Definition is_space (c : Ascii.ascii) : bool :=
  let n := Ascii.nat_of_ascii c in
  ((9 <=? n) && (n <=? 13) || (n =? 32))%nat.

(** In two bytes: the no-break space U+00A0 ([C2 A0]). *)
Definition is_space2 (c1 c2 : Ascii.ascii) : bool :=
  ((Ascii.nat_of_ascii c1 =? 194) && (Ascii.nat_of_ascii c2 =? 160))%nat.

(** In three bytes: U+1680 ([E1 9A 80]), U+2000 to U+200A ([E2 80 80] to
    [E2 80 8A]), the line and paragraph separators U+2028 and U+2029
    ([E2 80 A8], [E2 80 A9]), U+202F ([E2 80 AF]), U+205F ([E2 81 9F]),
    U+3000 ([E3 80 80]) and the byte order mark U+FEFF ([EF BB BF]). *)
Definition is_space3 (c1 c2 c3 : Ascii.ascii) : bool :=
  let n1 := Ascii.nat_of_ascii c1 in
  let n2 := Ascii.nat_of_ascii c2 in
  let n3 := Ascii.nat_of_ascii c3 in
  ((n1 =? 225) && (n2 =? 154) && (n3 =? 128)
   || (n1 =? 226) && (n2 =? 128)
      && ((128 <=? n3) && (n3 <=? 138) || (n3 =? 168) || (n3 =? 169)
          || (n3 =? 175))
   || (n1 =? 226) && (n2 =? 129) && (n3 =? 159)
   || (n1 =? 227) && (n2 =? 128) && (n3 =? 128)
   || (n1 =? 239) && (n2 =? 187) && (n3 =? 191))%nat.

Fixpoint trim_start (s : string) : string :=
  match s with
  | String c1 rest1 =>
      if is_space c1 then trim_start rest1
      else
        match rest1 with
        | String c2 rest2 =>
            if is_space2 c1 c2 then trim_start rest2
            else
              match rest2 with
              | String c3 rest3 =>
                  if is_space3 c1 c2 c3 then trim_start rest3 else s
              | "" => s
              end
        | "" => s
        end
  | "" => ""
  end.

(** The longest prefix of decimal digits. *)
Fixpoint digits (s : string) : Decimal.uint :=
  match s with
  | String c rest =>
      match DecimalString.uint_of_char c (Some (digits rest)) with
      | Some d => d
      | None => Decimal.Nil
      end
  | "" => Decimal.Nil
  end.

(** [parseInt(s, 10)]: white space is skipped, of one byte or more,
    then a sign and the digits that follow are read; [None] is [NaN].  The result is the
    integer the digits spell: the version checks compare it with 0, 3, 4
    and 18 only, which gives the same on it as on the double nearest to
    it. *)
Definition parseInt (s : string) : option Z :=
  let s := trim_start s in
  let '(negative, s) :=
    match s with
    | String c rest =>
        if Ascii.eqb c (Ascii.ascii_of_nat 45) then (true, rest)
        else if Ascii.eqb c (Ascii.ascii_of_nat 43) then (false, rest)
        else (false, s)
    | "" => (false, s)
    end in
  match digits s with
  | Decimal.Nil => None
  | d => Some (if negative then - Z.of_uint d else Z.of_uint d)%Z
  end.

(** [a < b] and [a === b] on numbers; false when one is [NaN]. *)
Definition lt (a b : option Z) : bool :=
  match a, b with
  | Some x, Some y => (x <? y)%Z
  | _, _ => false
  end.

Definition strict_eq (a b : option Z) : bool :=
  match a, b with
  | Some x, Some y => (x =? y)%Z
  | _, _ => false
  end.

(** [x ?? 0], [x] an element of an array that may be missing. *)
Definition or_zero (x : option (option Z)) : option Z := default (Some 0%Z) x.

(** A version number as the libraries write it: the numbers joined with
    dots. *)
Fixpoint dotted (numbers : list Z) : string :=
  match numbers with
  | [] => ""
  | [n] => Number.decimal n
  | n :: rest => Number.decimal n +:+ "." +:+ dotted rest
  end.

End Text.

(** ** Installing and removing the wrappers ([patch], [unpatch]) *)

Module Patching.
Import JS Otel Context Providers Text.

(** What [require(name)] does: it returns the module, or throws, with
    the code [MODULE_NOT_FOUND] when the library is not installed. *)
Inductive Required (M : Type) : Type :=
| Loaded (m : M)
| MODULE_NOT_FOUND
| Throws (err : JsError).
Arguments Loaded {M} m.
Arguments MODULE_NOT_FOUND {M}.
Arguments Throws {M} err.

(** [module.VERSION ?? module.default?.VERSION ?? "0.0.0"]. *)
Definition version_of (VERSION default_VERSION : option string) : string :=
  default "0.0.0" (VERSION ∪ default_VERSION).

(** The check of the Anthropic and Google patches: the version is below
    [min] when its major is smaller, or equal with a smaller minor. *)
Definition below (version MIN_VERSION : string) : bool :=
  let parts := parseInt <$> split_dot version in
  let major := parts !! 0%nat in
  let minor := parts !! 1%nat in
  let mins := parseInt <$> split_dot MIN_VERSION in
  let minMajor := mins !! 0%nat in
  let minMinor := mins !! 1%nat in
  lt (or_zero major) (or_zero minMajor)
  || (strict_eq (or_zero major) (or_zero minMajor)
      && lt (or_zero minor) (or_zero minMinor)).

(** A function held in a method slot or in [originals]: the one the
    library defines, one bound to the object that holds the slot, or a
    wrapper that [makeWrapper] made. *)
Inductive Method : Type :=
| Native
| Bound (target : Method)
| Wrapper (original : Method) (pricing : CostFn).

(** The wrappers a call through [method] goes through. *)
Fixpoint depth (method : Method) : nat :=
  match method with
  | Native => 0
  | Bound target => depth target
  | Wrapper original _ => S (depth original)
  end.

Section Calls.
(** The receivers of a call, [holder] being the object that holds the
    method slot, to which [patch] binds; what the library's own method
    does on a receiver; and the [makeWrapper] of the provider. *)
Context {Receiver Response : Type}.
Context (makeWrapper : (list (option Kwargs) -> Outcome Response) -> CostFn
                       -> Store -> Store -> list (option Kwargs)
                       -> Outcome Response * Span).
Context (holder : Receiver).
Context (native : Receiver -> list (option Kwargs) -> Outcome Response).

(** [method.apply(this, args)]: how the call settles, and the spans it
    ends, in the order in which they end.  Every wrapper on the way reads
    the stage when the call is made, in the context [store]; it resumes
    when what it wraps has settled, the innermost wrapper first, and
    reads the pipeline id then: [settled n] is the context when the
    wrapper around [n] others resumes. *)
Fixpoint invoke (method : Method) (this : Receiver) (store : Store)
    (settled : nat -> Store) (args : list (option Kwargs))
    : Outcome Response * list Span :=
  match method with
  | Native => (native this args, [])
  | Bound target => invoke target holder store settled args
  | Wrapper original pricing =>
      let inner := invoke original this store settled args in
      let outer :=
        makeWrapper (fun _ => inner.1) pricing store
          (settled (depth original)) args in
      (outer.1, (inner.2 ++ [outer.2])%list)
  end.

End Calls.

(** *** OpenAI ([providers/openai.ts]) *)

Module OpenAI.

Definition MIN_VERSION := "4.0".

(** The module [openai], as far as [patch] and [unpatch] look at it:
    [completions] is [proto?.chat?.completions], [proto] being the
    prototype of [openai.default ?? openai], and holds its [create]. *)
Record Library : Type := mkLibrary {
  VERSION : option string;
  default_VERSION : option string;
  completions : option (option Method);
}.

(** The library and the module-level map [originals], which has the one
    key ["create"]. *)
Record State : Type := mkState {
  library : Required Library;
  originals : option Method;
}.

Definition with_create (openai : Library) (create : Method) : Library :=
  mkLibrary (VERSION openai) (default_VERSION openai) (Some (Some create)).

(** [patch(pricing)]: whether the patch was applied, and the state it
    leaves.  Reading [create.bind] of a missing [create] throws, which
    the [catch] turns into [false]. *)
Definition patch (pricing : CostFn) (st : State) : bool * State :=
  match library st with
  | Loaded openai =>
      let version := version_of (VERSION openai) (default_VERSION openai) in
      let major := parseInt (default "0" (split_dot version !! 0%nat)) in
      if lt major (Some 4%Z) then (false, st)
      else
        match completions openai with
        | None => (false, st)
        | Some None => (false, st)
        | Some (Some create) =>
            let original := Bound create in
            (true,
             mkState (Loaded (with_create openai (Wrapper original pricing)))
               (Some original))
        end
  | MODULE_NOT_FOUND => (false, st)
  | Throws _ => (false, st)
  end.

(** [unpatch()]. *)
Definition unpatch (st : State) : State :=
  match library st with
  | Loaded openai =>
      match originals st, completions openai with
      | Some original, Some _ =>
          mkState (Loaded (with_create openai original)) None
      | _, _ => st
      end
  | MODULE_NOT_FOUND => st
  | Throws _ => st
  end.

(** The method a client finds at [chat.completions.create]. *)
Definition create (st : State) : option Method :=
  match library st with
  | Loaded openai => mjoin (completions openai)
  | _ => None
  end.

(** [method.apply(this, args)] on a client of the library. *)
Definition invoke {Receiver} :=
  Patching.invoke (Receiver := Receiver) Providers.OpenAI.makeWrapper.

End OpenAI.

(** *** Anthropic ([providers/anthropic.ts]) *)

Module Anthropic.

Definition MIN_VERSION := "0.18".

(** [messages] is [proto?.messages] and holds its [create]. *)
Record Library : Type := mkLibrary {
  VERSION : option string;
  default_VERSION : option string;
  messages : option (option Method);
}.

Record State : Type := mkState {
  library : Required Library;
  originals : option Method;
}.

Definition with_create (anthropic : Library) (create : Method) : Library :=
  mkLibrary (VERSION anthropic) (default_VERSION anthropic)
    (Some (Some create)).

Definition patch (pricing : CostFn) (st : State) : bool * State :=
  match library st with
  | Loaded anthropic =>
      let version :=
        version_of (VERSION anthropic) (default_VERSION anthropic) in
      if below version MIN_VERSION then (false, st)
      else
        match messages anthropic with
        | None => (false, st)
        | Some None => (false, st)
        | Some (Some create) =>
            let original := Bound create in
            (true,
             mkState
               (Loaded (with_create anthropic (Wrapper original pricing)))
               (Some original))
        end
  | MODULE_NOT_FOUND => (false, st)
  | Throws _ => (false, st)
  end.

Definition unpatch (st : State) : State :=
  match library st with
  | Loaded anthropic =>
      match originals st, messages anthropic with
      | Some original, Some _ =>
          mkState (Loaded (with_create anthropic original)) None
      | _, _ => st
      end
  | MODULE_NOT_FOUND => st
  | Throws _ => st
  end.

Definition create (st : State) : option Method :=
  match library st with
  | Loaded anthropic => mjoin (messages anthropic)
  | _ => None
  end.

Definition invoke {Receiver} :=
  Patching.invoke (Receiver := Receiver) Providers.Anthropic.makeWrapper.

End Anthropic.

(** *** Google ([providers/google.ts]) *)

Module Google.

Definition MIN_VERSION := "0.3".

(** [getGenerativeModel] on the prototype: the library's own, or the
    function [patch] puts there, which calls the one it replaced. *)
Inductive GetModel : Type :=
| NativeGet
| PatchedGet (originalGetModel : GetModel) (pricing : CostFn).

(** [GoogleGenerativeAI] is the class
    [genai.GoogleGenerativeAI ?? genai.default?.GoogleGenerativeAI], if
    there is one, with the [getGenerativeModel] of its prototype. *)
Record Library : Type := mkLibrary {
  VERSION : option string;
  default_VERSION : option string;
  GoogleGenerativeAI : option (option GetModel);
}.

(** [originals] has the one key ["getGenerativeModel"]. *)
Record State : Type := mkState {
  library : Required Library;
  originals : option GetModel;
}.

Definition with_getGenerativeModel (genai : Library) (f : GetModel)
    : Library :=
  mkLibrary (VERSION genai) (default_VERSION genai) (Some (Some f)).

Definition patch (pricing : CostFn) (st : State) : bool * State :=
  match library st with
  | Loaded genai =>
      let version := version_of (VERSION genai) (default_VERSION genai) in
      if below version MIN_VERSION then (false, st)
      else
        match GoogleGenerativeAI genai with
        | None => (false, st)
        | Some None => (false, st)
        | Some (Some originalGetModel) =>
            (true,
             mkState
               (Loaded (with_getGenerativeModel genai
                          (PatchedGet originalGetModel pricing)))
               (Some originalGetModel))
        end
  | MODULE_NOT_FOUND => (false, st)
  | Throws _ => (false, st)
  end.

Definition unpatch (st : State) : State :=
  match library st with
  | Loaded genai =>
      match GoogleGenerativeAI genai with
      | None => st
      | Some _ =>
          match originals st with
          | Some original =>
              mkState (Loaded (with_getGenerativeModel genai original)) None
          | None => st
          end
      end
  | MODULE_NOT_FOUND => st
  | Throws _ => st
  end.

Definition getGenerativeModel (st : State) : option GetModel :=
  match library st with
  | Loaded genai => mjoin (GoogleGenerativeAI genai)
  | _ => None
  end.

(** A model instance: its name, and its [generateContent], which is
    the library's or a wrapper around it bound to the instance. *)
Inductive Generate : Type :=
| NativeGenerate
| BoundGenerate (target : Generate)
| WrappedGenerate (original : Generate) (modelName : string)
    (pricing : CostFn).

Record GenerativeModel : Type := mkGenerativeModel {
  model : string;
  generateContent : Generate;
}.

(** [getGenerativeModel.apply(this, args)], [native] being the instance
    the library's own function returns for this call; the patched
    function writes the wrapper into that instance and returns it. *)
Fixpoint call_getGenerativeModel (f : GetModel) (native : GenerativeModel)
    : GenerativeModel :=
  match f with
  | NativeGet => native
  | PatchedGet originalGetModel pricing =>
      let instance := call_getGenerativeModel originalGetModel native in
      let modelName := model instance in
      let originalGenerate := BoundGenerate (generateContent instance) in
      mkGenerativeModel modelName
        (WrappedGenerate originalGenerate modelName pricing)
  end.

(** The wrappers around the library's [generateContent], outermost
    first: each ends one span on every call. *)
Fixpoint wrappers (g : Generate) : list (string * CostFn) :=
  match g with
  | NativeGenerate => []
  | BoundGenerate target => wrappers target
  | WrappedGenerate original modelName pricing =>
      (modelName, pricing) :: wrappers original
  end.

End Google.

End Patching.

(** ** The instrumentor ([instrumentor.ts]) *)

Module Instrumentor.
Import JS Providers Patching.

(** The three libraries, as the provider modules see them. *)
Record Libraries : Type := mkLibraries {
  openai : OpenAI.State;
  anthropic : Anthropic.State;
  google : Google.State;
}.

Record HikariInstrumentor : Type := mkInstrumentor {
  patchedProviders : list string;
}.

(** [if (patch(pricing)) this.patchedProviders.push(name)]. *)
Definition push_if (patched : bool) (name : string) (l : list string)
    : list string :=
  if patched then (l ++ [name])%list else l.

(** [instrument(pricing)]: the names returned, the instrumentor and the
    libraries afterwards. *)
Definition instrument (pricing : CostFn)
    (self : HikariInstrumentor) (libs : Libraries)
    : list string * HikariInstrumentor * Libraries :=
  let patchedProviders := [] in
  let '(ok, openai) := OpenAI.patch pricing (openai libs) in
  let patchedProviders := push_if ok "openai" patchedProviders in
  let '(ok, anthropic) := Anthropic.patch pricing (anthropic libs) in
  let patchedProviders := push_if ok "anthropic" patchedProviders in
  let '(ok, google) := Google.patch pricing (google libs) in
  let patchedProviders := push_if ok "google" patchedProviders in
  (patchedProviders, mkInstrumentor patchedProviders,
   mkLibraries openai anthropic google).

(** [this.patchedProviders.includes(name)]. *)
Definition includes (l : list string) (name : string) : bool :=
  bool_decide (name ∈ l).

(** [uninstrument()]. *)
Definition uninstrument (self : HikariInstrumentor) (libs : Libraries)
    : HikariInstrumentor * Libraries :=
  let openai :=
    if includes (patchedProviders self) "openai"
    then OpenAI.unpatch (openai libs) else openai libs in
  let anthropic :=
    if includes (patchedProviders self) "anthropic"
    then Anthropic.unpatch (anthropic libs) else anthropic libs in
  let google :=
    if includes (patchedProviders self) "google"
    then Google.unpatch (google libs) else google libs in
  (mkInstrumentor [], mkLibraries openai anthropic google).

(** [getPatchedProviders()]. *)
Definition getPatchedProviders (self : HikariInstrumentor) : list string :=
  patchedProviders self.

End Instrumentor.

(** * Properties *)

(** ** Pricing *)

Module PricingSpec.
Import JS Pricing.

Section SetAll.
Implicit Types (t : gmap string ModelPricing)
               (l : list (string * ModelPricing)).

(** Setting the pairs of a list whose keys are distinct: the list's
    value where it has the key, the old one elsewhere. *)
Lemma set_all_lookup l : forall t k,
  NoDup l.*1 ->
  set_all t l !! k =
    match (list_to_map l : gmap string ModelPricing) !! k with
    | Some v => Some v
    | None => t !! k
    end.
Proof.
  induction l as [|[k0 v0] l IH]; intros t k Hnd; simpl.
  - by rewrite lookup_empty.
  - apply NoDup_cons in Hnd as [Hk0 Hnd].
    unfold set_all in IH |- *. simpl. rewrite IH by done.
    destruct (decide (k0 = k)) as [->|Hne].
    + rewrite lookup_insert_eq.
      rewrite (not_elem_of_list_to_map_1 _ _ Hk0).
      by rewrite lookup_insert_eq.
    + by rewrite !lookup_insert_ne.
Qed.

Lemma set_all_entries t (o : gmap string ModelPricing) k :
  set_all t (Object_entries o) !! k =
    match o !! k with
    | Some v => Some v
    | None => t !! k
    end.
Proof.
  unfold Object_entries.
  rewrite set_all_lookup by apply NoDup_fst_map_to_list.
  by rewrite list_to_map_to_list.
Qed.
End SetAll.

(** The table of a fresh model: the overrides first, then the bundled
    defaults. *)
Lemma new_lookup overrides k :
  table (new overrides) !! k =
    match overrides ≫= (.!! k) with
    | Some v => Some v
    | None => DEFAULT_PRICING !! k
    end.
Proof.
  unfold new. destruct overrides as [o|]; simpl.
  - rewrite !set_all_entries. destruct (o !! k); [done|].
    destruct (DEFAULT_PRICING !! k); [done|]. apply lookup_empty.
  - rewrite set_all_entries.
    destruct (DEFAULT_PRICING !! k); [done|]. apply lookup_empty.
Qed.

(** The cases of [pricing.test.ts]. *)
Example pricing_tests :
  get (new None) "openai" "gpt-4o" = Some (mkModelPricing 0.0000025 0.00001)
  /\ get (new None) "openai" "unknown-model" = None
  /\ computeCost (new None) "openai" "gpt-4o" (Some 1000%float) (Some 500%float)
     = mkCostResult (Some (0.0000025 * 1000)%float) (Some (0.00001 * 500)%float)
         (Some (0.0000025 * 1000 + 0.00001 * 500)%float)
  /\ computeCost (new None) "openai" "gpt-4o" None None
     = mkCostResult None None None
  /\ computeCost (new None) "openai" "gpt-4o" None (Some 500%float)
     = mkCostResult None (Some (0.00001 * 500)%float) None
  /\ computeCost (new None) "openai" "gpt-4o" (Some 1000%float) None
     = mkCostResult (Some (0.0000025 * 1000)%float) None None
  /\ computeCost (new None) "openai" "unknown-model" (Some 1000%float) (Some 500%float)
     = mkCostResult None None None
  /\ get (new None) "custom" "model-1" = None
  /\ get (update (new None) "custom/model-1" 0.000001 0.000002) "custom" "model-1"
     = Some (mkModelPricing 0.000001 0.000002)
  /\ get (new (Some {[ "openai/gpt-4o" := mkModelPricing 0.0000099 0.0000199 ]}))
       "openai" "gpt-4o"
     = Some (mkModelPricing 0.0000099 0.0000199).
Proof. split_and!; vm_compute; reflexivity. Qed.

(** C1. For every provider, model and token counts, the [totalCost] of
    [computeCost] is [null] exactly when [inputCost] or [outputCost] is;
    in particular it is [null] when the model has no price and when a
    token count is [null]. *)
Theorem computeCost_total_null_iff
    (pm : PricingModel) (provider model : string)
    (inputTokens outputTokens : nullable number) :
  let r := computeCost pm provider model inputTokens outputTokens in
  (totalCost r = None <-> inputCost r = None \/ outputCost r = None)
  /\ (get pm provider model = None -> totalCost r = None)
  /\ (inputTokens = None \/ outputTokens = None -> totalCost r = None).
Proof.
  unfold computeCost; simpl.
  destruct (get pm provider model) as [p|],
           inputTokens as [i|], outputTokens as [o|]; simpl;
    intuition congruence.
Qed.

(** Subtracting a finite double from itself gives [+0]. *)
Lemma sub_diag_finite (x : number) :
  Number.isFinite x = true -> Prim2SF (x - x)%float = S754_zero false.
Proof.
  unfold Number.isFinite. rewrite sub_spec. unfold SF64sub, SFsub.
  destruct (Prim2SF x) as [[]| | |s m e]; try done.
  intros _. by rewrite Z.sub_diag.
Qed.

Lemma within_tolerance_refl (x : number) :
  Number.isFinite x = true -> Collector.within_tolerance x x = true.
Proof.
  intros Hfin. unfold Collector.within_tolerance.
  rewrite leb_spec, abs_spec, (sub_diag_finite x Hfin). reflexivity.
Qed.

(** C3. When the model has a price and both token counts are known,
    [computeCost] returns both components and their sum, the very double
    [inputCost + outputCost]; for a finite sum the difference is zero,
    within the tolerance of 1e-9, and a pipeline of that one span totals
    to the same sum. *)
Theorem computeCost_total_is_sum
    (pm : PricingModel) (provider model : string)
    (inputTokens outputTokens : number) (p : ModelPricing) :
  get pm provider model = Some p ->
  let r := computeCost pm provider model (Some inputTokens) (Some outputTokens) in
  let a := (inputCostPerToken p * inputTokens)%float in
  let b := (outputCostPerToken p * outputTokens)%float in
  inputCost r = Some a /\ outputCost r = Some b
  /\ totalCost r = Some (a + b)%float
  /\ (forall t, totalCost r = Some t ->
        t = (a + b)%float
        /\ (Number.isFinite t = true ->
            Collector.within_tolerance t (a + b) = true))
  /\ Collector.pipeline_total_cost [totalCost r] = (a + b)%float.
Proof.
  intros Hp. unfold computeCost. rewrite Hp. simpl.
  split; [done|]. split; [done|]. split; [done|]. split; [|done].
  intros total [= <-]. split; [done|]. apply within_tolerance_refl.
Qed.

Lemma computeCost_total_is_sum_witness :
  get (new None) "openai" "gpt-4o"
    = Some (mkModelPricing 0.0000025 0.00001)
  /\ totalCost (computeCost (new None) "openai" "gpt-4o" (Some 1000%float) (Some 500%float))
    = Some (0.0000025 * 1000 + 0.00001 * 500)%float.
Proof.
  assert (Hget : get (new None) "openai" "gpt-4o"
                 = Some (mkModelPricing 0.0000025 0.00001))
    by (vm_compute; reflexivity).
  split; [exact Hget|].
  exact (proj1 (proj2 (proj2
    (computeCost_total_is_sum (new None) "openai" "gpt-4o" 1000 500 _ Hget)))).
Defined.

(** C9. A model built with overrides [O] answers [get] with [O]'s entry
    for [provider/model] when [O] has one, else with the bundled entry,
    else with [null]; and after [update(key, i, o)] on any model, [get]
    for that key returns the pair just written. *)
Theorem get_precedence_and_update
    (O : gmap string ModelPricing) (provider model : string)
    (pm : PricingModel) (i o : number) :
  let key := template_slash provider model in
  get (new (Some O)) provider model =
    match O !! key with
    | Some v => Some v
    | None => DEFAULT_PRICING !! key
    end
  /\ get (update pm key i o) provider model = Some (mkModelPricing i o).
Proof.
  simpl. split.
  - unfold get. by rewrite new_lookup.
  - unfold get, update; simpl. apply lookup_insert_eq.
Qed.

End PricingSpec.

(** ** Provider wrappers *)

Module ProvidersSpec.
Import JS Otel Context Providers.

(** C2. For each of the three providers, whatever the span
    implementation, the pricing object, the context and the arguments:
    the wrapped method settles exactly as the original one does, with the
    same response or the same error, also when token extraction, the
    pricing lookup or [setAttribute] throws. *)
Theorem wrappers_settle_as_original (S : Type) (T : Tracing S) :
  (forall original pricing store settled args,
      (OpenAI.makeWrapper (S := S) original pricing store settled args).1
      = original args)
  /\ (forall original pricing store settled args,
      (Anthropic.makeWrapper (S := S) original pricing store settled args).1
      = original args)
  /\ (forall original modelName pricing store settled args,
      (Google.makeWrapper (S := S) original modelName pricing store settled args).1
      = original args).
Proof.
  repeat split; intros;
    unfold OpenAI.makeWrapper, Anthropic.makeWrapper, Google.makeWrapper;
    destruct (original args); reflexivity.
Qed.

(** The first case of [providers.test.ts]: the mocked OpenAI response,
    and the span it leaves. *)
Example openai_span_with_hikari_attributes :
  let response :=
    Some (OpenAI.mkResponse
            (Some (OpenAI.mkUsage (Some 100%float) (Some 50%float)))
            (Some "gpt-4o")) in
  OpenAI.makeWrapper (fun _ => Resolved response)
    (of_PricingModel (Pricing.new None)) None None
    [Some (mkKwargs (Some "gpt-4o"))]
  = (Resolved response,
     mkSpan "openai.chat.completions.create"
       [ (Attributes.STAGE, AStr "openai.chat.completions.create");
         (Attributes.MODEL, AStr "gpt-4o");
         (Attributes.PROVIDER, AStr "openai");
         (Attributes.TOKENS_INPUT, ANum 100);
         (Attributes.TOKENS_OUTPUT, ANum 50);
         (Attributes.COST_INPUT, ANum (0.0000025 * 100));
         (Attributes.COST_OUTPUT, ANum (0.00001 * 50));
         (Attributes.COST_TOTAL, ANum (0.0000025 * 100 + 0.00001 * 50)) ]
       true).
Proof. vm_compute. reflexivity. Qed.

(** The same on a run where everything that can throw does: a nullish
    response, a pricing object without [computeCost], a span that
    rejects every attribute. *)
Example wrapper_survives_failures :
  OpenAI.makeWrapper (H := failing) (fun _ => Resolved None)
    failing_pricing None None []
  = (Resolved None, mkSpan "openai.chat.completions.create" [] true)
  /\ Google.makeWrapper (H := failing)
       (fun _ => Resolved (Some (Google.mkResponse None)))
       "gemini-1.5-pro" failing_pricing None None []
  = (Resolved (Some (Google.mkResponse None)),
     mkSpan "google.generativeai.generate_content" [] true).
Proof. split; reflexivity. Qed.

(** Case analysis over what the instrumentation block branches on: the
    price found, the pipeline id, the two token counts. *)
Ltac instrumentation_cases :=
  unfold try_catch_log, bind, when, lift; simpl;
  try match goal with
    | |- context [Pricing.get ?q ?a ?b] => destruct (Pricing.get q a b)
    end;
  try match goal with
    | |- context [truthy ?x] => destruct (truthy x)
    end;
  simpl;
  repeat match goal with
    | n : option number |- _ => destruct n
    end;
  reflexivity.

(** C4. On the recording span and with the pricing model of the SDK,
    for each provider: the span carries [hikari.cost.input],
    [hikari.cost.output] and [hikari.cost.total] exactly for the computed
    costs that are not [null], each with the computed number as its
    value; a [null] cost leaves its attribute unset, and so do a call
    that fails and a response whose tokens cannot be read. *)
Theorem cost_attributes_only_when_known (pm : Pricing.PricingModel)
    (store settled : Store) (args : list (option Kwargs)) :
  (forall original,
      let r := OpenAI.makeWrapper original (of_PricingModel pm) store settled args in
      cost_attributes r.2 =
        expected_cost_attributes
          match r.1 with
          | Resolved response => OpenAI.computed pm response args
          | Rejected _ => None
          end)
  /\ (forall original,
      let r := Anthropic.makeWrapper original (of_PricingModel pm) store settled args in
      cost_attributes r.2 =
        expected_cost_attributes
          match r.1 with
          | Resolved response => Anthropic.computed pm response args
          | Rejected _ => None
          end)
  /\ (forall original modelName,
      let r := Google.makeWrapper original modelName (of_PricingModel pm) store settled args in
      cost_attributes r.2 =
        expected_cost_attributes
          match r.1 with
          | Resolved response => Google.computed pm response modelName
          | Rejected _ => None
          end).
Proof.
  split; [|split]; intros; subst r.
  - unfold OpenAI.makeWrapper, OpenAI.computed, of_PricingModel,
      Pricing.computeCost, OpenAI.extractTokens, OpenAI.extractModel.
    destruct (original args) as [[[[[i o]|] [m|]]|]|e];
      try reflexivity; instrumentation_cases.
  - unfold Anthropic.makeWrapper, Anthropic.computed, of_PricingModel,
      Pricing.computeCost, Anthropic.extractTokens, Anthropic.extractModel.
    destruct (original args) as [[[[[i o]|] [m|]]|]|e];
      try reflexivity; instrumentation_cases.
  - unfold Google.makeWrapper, Google.computed, of_PricingModel,
      Pricing.computeCost, Google.extractTokens.
    destruct (original args) as [[[[[i o]|]]|]|e];
      try reflexivity; instrumentation_cases.
Qed.

(** C10. When the provider call itself fails, the wrapper of each
    provider rejects with the original error and leaves a span that is
    ended (so it is handed to the exporter) and on which [setAttribute]
    was never called: on the recording span no attribute at all, so
    [hikari.stage], [hikari.model] and [hikari.provider], which the
    collector requires, are missing. *)
Theorem failed_call_span_has_no_attributes
    (pricing : CostFn) (store settled : Store) (args : list (option Kwargs))
    (err : JsError) :
  (forall original,
      original args = Rejected err ->
      (forall S (T : Tracing S),
          OpenAI.makeWrapper (S := S) original pricing store settled args
          = (Rejected err,
             span_end (startActiveSpan "openai.chat.completions.create")))
      /\ OpenAI.makeWrapper original pricing store settled args
         = (Rejected err, mkSpan "openai.chat.completions.create" [] true))
  /\ (forall original,
      original args = Rejected err ->
      (forall S (T : Tracing S),
          Anthropic.makeWrapper (S := S) original pricing store settled args
          = (Rejected err,
             span_end (startActiveSpan "anthropic.messages.create")))
      /\ Anthropic.makeWrapper original pricing store settled args
         = (Rejected err, mkSpan "anthropic.messages.create" [] true))
  /\ (forall original modelName,
      original args = Rejected err ->
      (forall S (T : Tracing S),
          Google.makeWrapper (S := S) original modelName pricing store settled args
          = (Rejected err,
             span_end (startActiveSpan "google.generativeai.generate_content")))
      /\ Google.makeWrapper original modelName pricing store settled args
         = (Rejected err, mkSpan "google.generativeai.generate_content" [] true))
  /\ (forall spanName,
      let span := mkSpan spanName [] true in
      ended span = true
      /\ lookup Attributes.STAGE (attributes span) = None
      /\ lookup Attributes.MODEL (attributes span) = None
      /\ lookup Attributes.PROVIDER (attributes span) = None).
Proof.
  split_and!; intros;
    unfold OpenAI.makeWrapper, Anthropic.makeWrapper, Google.makeWrapper;
    try match goal with H : _ = Rejected _ |- _ => rewrite H end;
    split_and!; reflexivity.
Qed.

Lemma failed_call_span_has_no_attributes_witness :
  OpenAI.makeWrapper (fun _ => Rejected (Error "API Error"))
    (of_PricingModel (Pricing.new None)) None None
    [Some (mkKwargs (Some "gpt-4o"))]
  = (Rejected (Error "API Error"),
     mkSpan "openai.chat.completions.create" [] true).
Proof.
  exact (proj2 (proj1 (failed_call_span_has_no_attributes
                  (of_PricingModel (Pricing.new None)) None None
                  [Some (mkKwargs (Some "gpt-4o"))] (Error "API Error"))
                (fun _ => Rejected (Error "API Error")) eq_refl)).
Defined.

End ProvidersSpec.

(** ** The exporter queue *)

Module ExporterSpec.
Import JS Otel Exporter.
Local Open Scope list_scope.

(** [n >= v] holds from the least length on. *)
Lemma length_ge_least (v : number) (n : nat) :
  Number.length_ge n v = true
  <-> exists k, Number.least_length v = Some k /\ k <= n.
Proof.
  unfold Number.length_ge, Number.least_length.
  destruct (Prim2SF v) as [s|[]| |[] m e]; simpl.
  - split; [intros _; exists 0; split; [done|lia]|done].
  - split; [intros _; exists 0; split; [done|lia]|done].
  - split; [done|by intros (k & ? & _)].
  - split; [done|by intros (k & ? & _)].
  - split; [intros _; exists 0; split; [done|lia]|done].
  - destruct (Z.leb_spec 0 e) as [He|He].
    + assert (0 < 2 ^ e)%Z by (apply Z.pow_pos_nonneg; lia).
      rewrite Z.leb_le. split.
      * intros Hle. eexists. split; [done|]. nia.
      * intros (k & [= <-] & Hk). nia.
    + assert (0 < 2 ^ (- e))%Z as Hpow by (apply Z.pow_pos_nonneg; lia).
      pose proof (Z.div_mod (Z.pos m + 2 ^ (- e) - 1) (2 ^ (- e))
                    ltac:(lia)) as Hdiv.
      pose proof (Z.mod_pos_bound (Z.pos m + 2 ^ (- e) - 1) (2 ^ (- e))
                    Hpow) as Hmod.
      rewrite Z.leb_le. split.
      * intros Hle. eexists. split; [done|]. nia.
      * intros (k & [= <-] & Hk). nia.
Qed.

(** For a whole number, at least one, the least length is the number
    itself. *)
Lemma least_length_integer (v : number) (k : nat) :
  Number.isInteger v = true ->
  Number.least_length v = Some k ->
  1 <= k ->
  Number.integer_value v = Z.of_nat k.
Proof.
  unfold Number.integer_value, Number.isInteger, Number.least_length.
  destruct (Prim2SF v) as [s|s| |s m e]; try done.
  - intros _ [= <-]. lia.
  - intros Hint. rewrite Hint. destruct s; [intros [= <-]; lia|].
    intros [= <-] _. cbn [cond_Zopp].
    destruct (Z.leb_spec 0 e) as [He|He].
    + assert (0 < 2 ^ e)%Z by (apply Z.pow_pos_nonneg; lia). nia.
    + simpl in Hint. apply Z.eqb_eq in Hint.
      assert (0 < 2 ^ (- e))%Z as Hpow by (apply Z.pow_pos_nonneg; lia).
      pose proof (Z.div_mod (Z.pos m) (2 ^ (- e)) ltac:(lia)) as Hdiv.
      rewrite Hint in Hdiv.
      assert ((Z.pos m + 2 ^ (- e) - 1) / 2 ^ (- e) = Z.pos m / 2 ^ (- e))%Z
        as ->.
      { symmetry. apply Z.div_unique with (r := (2 ^ (- e) - 1)%Z); lia. }
      assert (0 <= Z.pos m / 2 ^ (- e))%Z by (apply Z.div_pos; lia).
      lia.
Qed.

Section Queue.
(** A capacity that lengths reach, from [max] on. *)
Variable capacity : number.
Variable max : nat.
Hypothesis Hcapacity : Number.least_length capacity = Some max.

Lemma enqueue_full (q : list ReadableSpan) x :
  max <= length q -> enqueue capacity q x = tail q ++ [x].
Proof.
  intros Hq. unfold enqueue, shift.
  rewrite (proj2 (length_ge_least capacity (length q))); [done|].
  by exists max.
Qed.

Lemma enqueue_room (q : list ReadableSpan) x :
  length q < max -> enqueue capacity q x = q ++ [x].
Proof.
  intros Hq. unfold enqueue.
  destruct (Number.length_ge (length q) capacity) eqn:Hge; [|done].
  apply length_ge_least in Hge as (k & Hk & Hle).
  rewrite Hcapacity in Hk. injection Hk as <-. lia.
Qed.

(** The loop of [export], whatever the queue it starts from: the spans
    are appended in order, and as many elements leave at the head as
    there are turns that find the queue full. *)
Lemma enqueue_all_exact (spans : list ReadableSpan) : forall q,
  foldl (enqueue capacity) q spans
  = drop (length spans - (Nat.max max 1 - length q)) (q ++ spans).
Proof.
  induction spans as [|x spans IH]; intros q; cbn [foldl length].
  - by rewrite app_nil_r.
  - rewrite IH. destruct (decide (max <= length q)) as [Hfull|Hroom].
    + rewrite enqueue_full by done. destruct q as [|y q].
      * cbn [tail app length] in *.
        replace (Nat.max max 1) with 1 by lia.
        replace (length spans - (1 - 1)) with (length spans) by lia.
        by replace (S (length spans) - (1 - 0)) with (length spans) by lia.
      * cbn [tail length] in *. rewrite length_app. cbn [length].
        replace (length spans - (Nat.max max 1 - (length q + 1)))
          with (length spans) by lia.
        replace (S (length spans) - (Nat.max max 1 - S (length q)))
          with (S (length spans)) by lia.
        by rewrite <- (assoc_L (++)).
    + rewrite enqueue_room by lia. rewrite length_app. cbn [length].
      rewrite <- (assoc_L (++)). cbn [app]. f_equal. lia.
Qed.

(** On a queue within a capacity of at least one, the loop leaves the
    newest [max] of the old elements followed by the new ones. *)
Lemma enqueue_all_newest (spans : list ReadableSpan) q :
  1 <= max ->
  length q <= max ->
  foldl (enqueue capacity) q spans
  = drop (length (q ++ spans) - max) (q ++ spans).
Proof.
  intros Hmax Hq. rewrite enqueue_all_exact, length_app. f_equal. lia.
Qed.

Lemma enqueue_all_length (spans : list ReadableSpan) q :
  1 <= max ->
  length q <= max ->
  length (foldl (enqueue capacity) q spans) <= max.
Proof.
  intros Hmax Hq. rewrite enqueue_all_newest by done.
  rewrite length_drop. lia.
Qed.

(** Nothing leaves when the spans fit. *)
Lemma enqueue_all_room (spans : list ReadableSpan) q :
  length q + length spans <= max ->
  foldl (enqueue capacity) q spans = q ++ spans.
Proof.
  intros Hroom. rewrite enqueue_all_exact.
  by replace (length spans - (Nat.max max 1 - length q)) with 0 by lia.
Qed.

End Queue.

(** A capacity that no length reaches (NaN, [+Infinity]): nothing ever
    leaves. *)
Lemma enqueue_all_unbounded capacity (spans : list ReadableSpan) :
  Number.least_length capacity = None ->
  forall q, foldl (enqueue capacity) q spans = q ++ spans.
Proof.
  intros Hnone. induction spans as [|x spans IH]; intros q; cbn [foldl].
  - by rewrite app_nil_r.
  - rewrite IH. unfold enqueue.
    destruct (Number.length_ge (length q) capacity) eqn:Hge.
    + apply length_ge_least in Hge as (k & Hk & _). congruence.
    + by rewrite <- (assoc_L (++)).
Qed.

(** The number of elements that leave at the head during the loop. *)
Lemma enqueue_all_dropped capacity (spans q : list ReadableSpan) :
  foldl (enqueue capacity) q spans
  = drop match Number.least_length capacity with
         | Some max => length spans - (Nat.max max 1 - length q)
         | None => 0
         end (q ++ spans).
Proof.
  destruct (Number.least_length capacity) as [max|] eqn:Hcapacity.
  - by apply enqueue_all_exact.
  - by apply enqueue_all_unbounded.
Qed.

(** Whatever the capacity, the loop leaves a suffix. *)
Lemma enqueue_all_suffix capacity (spans q : list ReadableSpan) :
  foldl (enqueue capacity) q spans `suffix_of` q ++ spans.
Proof. rewrite enqueue_all_dropped. apply suffix_drop. Qed.

Lemma suffix_sublist {A} (l1 l2 : list A) :
  l1 `suffix_of` l2 -> l1 `sublist_of` l2.
Proof. intros [k ->]. by apply sublist_inserts_l. Qed.

Lemma with_queue_id st : with_queue st (queue st) = st.
Proof. by destruct st. Qed.

Lemma with_queue_twice st q q' :
  with_queue (with_queue st q) q' = with_queue st q'.
Proof. done. Qed.

(** The count [splice] removes: no more than there is, and the same
    from a shorter array that has that many. *)
Lemma delete_count_le (v : number) (len : nat) :
  Number.delete_count v len <= len.
Proof.
  unfold Number.delete_count.
  destruct (Prim2SF v) as [s|[]| |[] m e]; lia.
Qed.

Lemma delete_count_idemp (v : number) (len : nat) :
  Number.delete_count v (Number.delete_count v len)
  = Number.delete_count v len.
Proof.
  unfold Number.delete_count.
  destruct (Prim2SF v) as [s|[]| |[] m e]; lia.
Qed.

(** For a whole number that is not negative, the count is the number,
    as far as the array goes. *)
Lemma delete_count_integer (v : number) (len : nat) :
  Number.isInteger v = true ->
  Number.delete_count v len
  = Nat.min len (Z.to_nat (Number.integer_value v)).
Proof.
  unfold Number.delete_count, Number.integer_value, Number.isInteger.
  destruct (Prim2SF v) as [s|s| |s m e]; try done; [simpl; lia|].
  intros Hint. rewrite Hint. destruct s; cbn [cond_Zopp]; [|done].
  assert (0 <= if (0 <=? e)%Z then Z.pos m * 2 ^ e
               else Z.pos m / 2 ^ (- e))%Z; [|lia].
  destruct (Z.leb_spec 0 e).
  - apply Z.mul_nonneg_nonneg; [lia|]. by apply Z.pow_nonneg.
  - apply Z.div_pos; [lia|]. apply Z.pow_pos_nonneg; lia.
Qed.

(** [flushBatch]: the first spans of the queue leave it, as many as
    [splice] counts for [batchSize], and are sent unless there is none;
    nothing else changes. *)
Lemma flushBatch_exact st :
  let n := Number.delete_count (batchSize st) (length (queue st)) in
  flushBatch st
  = (with_queue st (drop n (queue st)), sent_of (take n (queue st))).
Proof.
  unfold flushBatch, splice0.
  destruct (queue st) as [|x q] eqn:Hq.
  - cbn [length Nat.eqb]. rewrite take_nil, drop_nil. cbn [sent_of].
    destruct st. cbn in Hq. by subst.
  - cbn [length Nat.eqb].
    by destruct (take _ (x :: q)).
Qed.

(** [flushBatch] splits the queue: a prefix leaves, of no more spans
    than [splice] counts for [batchSize], the rest stays, nothing else
    changes. *)
Lemma flushBatch_prefix st :
  exists batch rest,
    queue st = batch ++ rest
    /\ flushBatch st = (with_queue st rest, sent_of batch)
    /\ Number.delete_count (batchSize st) (length batch) = length batch.
Proof.
  set (n := Number.delete_count (batchSize st) (length (queue st))).
  exists (take n (queue st)), (drop n (queue st)).
  pose proof (delete_count_le (batchSize st) (length (queue st))).
  split_and!.
  - by rewrite take_drop.
  - apply flushBatch_exact.
  - rewrite length_take, Nat.min_l by done. apply delete_count_idemp.
Qed.

Lemma flushBatch_sublist st :
  exists batch,
    (flushBatch st).2 = sent_of batch
    /\ batch ++ queue (flushBatch st).1 = queue st.
Proof.
  destruct (flushBatch_prefix st) as (batch & rest & Hq & -> & _).
  exists batch. by destruct st.
Qed.

(** [export] on an exporter that is not shut down: the loop, then a
    flush when the queue has reached [batchSize]. *)
Lemma export_exact st spans :
  shutdown_flag st = false ->
  let q' := foldl (enqueue (maxQueueSize st)) (queue st) spans in
  let n := Number.delete_count (batchSize st) (length q') in
  export st spans
  = if Number.length_ge (length q') (batchSize st)
    then (with_queue st (drop n q'), sent_of (take n q'), SUCCESS)
    else (with_queue st q', None, SUCCESS).
Proof.
  intros Hflag q' n. unfold export. rewrite Hflag. fold q'.
  change (batchSize (with_queue st q')) with (batchSize st).
  change (queue (with_queue st q')) with q'.
  destruct (Number.length_ge (length q') (batchSize st)); [|done].
  by rewrite flushBatch_exact.
Qed.

Lemma exported_cons ev evs :
  exported (ev :: evs) = spans_of ev ++ exported evs.
Proof. by destruct ev. Qed.

(** One event: what is sent and what stays, in that order, is in order
    within the old queue followed by the event's spans. *)
Lemma step_sublist st ev :
  exists batch,
    (step st ev).2 = sent_of batch
    /\ batch ++ queue (step st ev).1 `sublist_of` queue st ++ spans_of ev.
Proof.
  destruct ev as [spans| |]; simpl.
  - destruct (shutdown_flag st) eqn:Hflag.
    + unfold export. rewrite Hflag.
      exists []. split; [done|]. simpl. by apply sublist_inserts_r.
    + rewrite (export_exact st spans Hflag). cbv zeta.
      set (q' := foldl _ _ _).
      assert (q' `sublist_of` queue st ++ spans) as Hsub
        by apply suffix_sublist, enqueue_all_suffix.
      destruct (Number.length_ge _ (batchSize st)).
      * eexists. split; [done|]. cbn [fst snd queue with_queue].
        by rewrite take_drop.
      * exists []. by split.
  - rewrite app_nil_r. unfold forceFlush.
    destruct (flushBatch_sublist st) as (batch & Hsent & Hq).
    exists batch. by rewrite Hq.
  - rewrite app_nil_r. unfold shutdown.
    set (st1 := mkExporter _ _ _ _ _ _ _).
    destruct (flushBatch_sublist st1) as (batch & Hsent & Hq).
    exists batch. by rewrite Hq.
Qed.

Lemma run_fifo evs : forall st,
  exists batches,
    (run st evs).2 = map payload_of batches
    /\ concat batches ++ queue (run st evs).1
        `sublist_of` queue st ++ exported evs.
Proof.
  induction evs as [|ev evs IH]; intros st; simpl.
  - exists []. by rewrite app_nil_r.
  - destruct (step_sublist st ev) as (batch & Hsent & Hsub).
    destruct (step st ev) as [st1 sent]. simpl in *.
    destruct (IH st1) as (batches & Hlater & Hsub').
    destruct (run st1 evs) as [st2 later]. simpl in *. subst.
    rewrite exported_cons, (assoc_L (++)).
    destruct batch as [|b batch].
    + exists batches. split; [done|].
      simpl in Hsub. etrans; [apply Hsub'|]. by apply sublist_app.
    + exists ((b :: batch) :: batches). split; [done|].
      change (concat ((b :: batch) :: batches))
        with ((b :: batch) ++ concat batches).
      etrans; [|apply sublist_app; [apply Hsub|reflexivity]].
      rewrite <- !(assoc_L (++)). by apply sublist_app.
Qed.

(** A queue that is never found full, up to a length, has room for that
    length. *)
Lemma never_full_room capacity (total : nat) :
  (forall n, n < total -> Number.length_ge n capacity = false) ->
  forall max, Number.least_length capacity = Some max -> total <= max.
Proof.
  intros Hnever max Hmax.
  destruct (decide (total <= max)) as [|Hover]; [done|].
  assert (Number.length_ge max capacity = true) as Hge
    by (apply length_ge_least; by exists max).
  rewrite Hnever in Hge by lia. done.
Qed.

Lemma enqueue_all_never_full capacity (spans q : list ReadableSpan) :
  (forall n, n < length q + length spans ->
             Number.length_ge n capacity = false) ->
  foldl (enqueue capacity) q spans = q ++ spans.
Proof.
  intros Hnever. rewrite enqueue_all_dropped.
  destruct (Number.least_length capacity) as [max|] eqn:Hmax; [|done].
  pose proof (never_full_room _ _ Hnever max Hmax).
  by replace (length spans - (Nat.max max 1 - length q)) with 0 by lia.
Qed.

(** One event on an exporter that is running and is never found full:
    what is sent and what stays are the old queue and the event's
    spans. *)
Lemma step_keeps_all st ev :
  shutdown_flag st = false ->
  ev <> Shutdown ->
  (forall n, n < length (queue st) + length (spans_of ev) ->
             Number.length_ge n (maxQueueSize st) = false) ->
  exists batch,
    (step st ev).2 = sent_of batch
    /\ batch ++ queue (step st ev).1 = queue st ++ spans_of ev
    /\ shutdown_flag (step st ev).1 = false
    /\ maxQueueSize (step st ev).1 = maxQueueSize st.
Proof.
  intros Hflag Hev Hnever. destruct ev as [spans| |]; simpl in *; [| |done].
  - rewrite (export_exact st spans Hflag). cbv zeta.
    rewrite (enqueue_all_never_full _ _ _ Hnever).
    destruct (Number.length_ge _ (batchSize st)).
    + eexists. split; [done|]. cbn [fst snd queue with_queue].
      by rewrite take_drop.
    + exists []. by split_and!.
  - unfold forceFlush. rewrite flushBatch_exact, app_nil_r. cbv zeta.
    eexists. split; [done|]. cbn [fst snd queue with_queue].
    by rewrite take_drop.
Qed.

Lemma run_keeps_all evs : forall st,
  shutdown_flag st = false ->
  Shutdown ∉ evs ->
  (forall n, n < length (queue st) + length (exported evs) ->
             Number.length_ge n (maxQueueSize st) = false) ->
  exists batches,
    (run st evs).2 = map payload_of batches
    /\ concat batches ++ queue (run st evs).1 = queue st ++ exported evs.
Proof.
  induction evs as [|ev evs IH]; intros st Hflag Hev Hnever; simpl.
  - exists []. by rewrite app_nil_r.
  - rewrite exported_cons, length_app in Hnever.
    apply not_elem_of_cons in Hev as [Hne Hev].
    destruct (step_keeps_all st ev Hflag (not_eq_sym Hne))
      as (batch & Hsent & Hq & Hflag1 & Hmax).
    { intros n Hn. apply Hnever. lia. }
    destruct (step st ev) as [st1 sent]; simpl in *.
    destruct (IH st1 Hflag1 Hev) as (batches & Hlater & Hq').
    { intros n Hn. rewrite Hmax. apply Hnever.
      apply (f_equal length) in Hq. rewrite !length_app in Hq. lia. }
    destruct (run st1 evs) as [st2 later]; simpl in *. subst.
    rewrite exported_cons, (assoc_L (++)), <- Hq.
    rewrite <- (assoc_L (++)), <- Hq'.
    destruct batch as [|b batch].
    + by exists batches.
    + exists ((b :: batch) :: batches). split; [done|].
      simpl. by rewrite <- !(assoc_L (++)).
Qed.

(** C6. The queue is first in, first out among what it keeps.  [export],
    on an exporter that is running, appends the spans in the order in
    which it is given them and lets elements leave at the head only, one
    for each turn of the loop that finds the queue full: the queue it
    builds is the old queue followed by the spans, less that many
    elements at the head; when that queue has reached [batchSize], and
    only then, its first spans are sent and leave, as many as [splice]
    counts for [batchSize]: [batchSize] without its fraction, and no
    more than there are.  [flushBatch] takes that many spans off the
    head of the queue and sends them, converted one by one in that
    order, unless there is none.  So over any run of exports, flushes and shutdowns the batches
    sent one after the other, followed by what is still queued, are in
    the order in which [export] received them; and they are all of them,
    none missing or repeated, when the exporter is running and is never
    found full. *)
Theorem queue_is_fifo :
  (forall st spans,
      shutdown_flag st = false ->
      let dropped :=
        match Number.least_length (maxQueueSize st) with
        | Some max => length spans - (Nat.max max 1 - length (queue st))
        | None => 0
        end in
      let q' := drop dropped (queue st ++ spans) in
      let n := Number.delete_count (batchSize st) (length q') in
      export st spans
      = if Number.length_ge (length q') (batchSize st)
        then (with_queue st (drop n q'), sent_of (take n q'), SUCCESS)
        else (with_queue st q', None, SUCCESS))
  /\ (forall st,
        let n := Number.delete_count (batchSize st) (length (queue st)) in
        flushBatch st
        = (with_queue st (drop n (queue st)), sent_of (take n (queue st))))
  /\ (forall batch,
        sent_of batch
        = match batch with
          | [] => None
          | _ => Some (mkOtlpPayload [mkResourceSpans
                         [mkScopeSpans (map spanToOtlp batch)]])
          end)
  /\ (forall st evs, exists batches,
        (run st evs).2 = map payload_of batches
        /\ concat batches ++ queue (run st evs).1
            `sublist_of` queue st ++ exported evs)
  /\ (forall st evs,
        shutdown_flag st = false ->
        Shutdown ∉ evs ->
        (forall n, n < length (queue st) + length (exported evs) ->
                   Number.length_ge n (maxQueueSize st) = false) ->
        exists batches,
          (run st evs).2 = map payload_of batches
          /\ concat batches ++ queue (run st evs).1
             = queue st ++ exported evs).
Proof.
  split_and!.
  - intros st spans Hflag dropped q' n. subst dropped q' n.
    rewrite <- enqueue_all_dropped. by apply export_exact.
  - intros st. apply flushBatch_exact.
  - by intros [|x batch].
  - intros st evs. apply run_fifo.
  - intros st evs. apply run_keeps_all.
Qed.

(** The defaults of the constructor, and a span as it is sent. *)
Example exporter_defaults_and_payload :
  Exporter.new (Some "http://collector:8000/") None None None
  = mkExporter "http://collector:8000" 10000 100 5000 [] false true
  /\ spanToOtlp
       (sample_span "def456"
          [ (Attributes.STAGE, AStr "extract");
            (Attributes.TOKENS_INPUT, ANum 150);
            (Attributes.COST_INPUT, ANum 0.000375) ])
     = mkOtlpSpan "5b8aa5a2d2c872e8321cf37308d69df2" "def456"
         "openai.chat.completions.create"
         "1706000000000000000" "1706000001500000000"
         [ mkOtlpAttribute Attributes.STAGE (stringValue "extract");
           mkOtlpAttribute Attributes.TOKENS_INPUT (intValue "150");
           mkOtlpAttribute Attributes.COST_INPUT (doubleValue 0.000375) ].
Proof. split; vm_compute; reflexivity. Qed.

(** The comparison of a length with a number, on numbers of every kind:
    it is the comparison of the doubles. *)
Example length_ge_is_the_comparison_of_doubles :
  Forall (fun v =>
            Forall (fun n =>
                      Number.length_ge n v
                      = (v <=? Number.of_Z (Z.of_nat n))%float)
                   [0; 1; 2; 3; 4; 99; 100; 101])
         [0; -0; 1; 1.5; 2; 2.000000001; 0.1; 1e-320; -3; 100; 99.5;
          100.00000000000001; 1e300; infinity; neg_infinity; nan]%float.
Proof. repeat constructor. Qed.

(** C5, as the code has it. For every call to [export] on an exporter
    whose capacity is reached at [max] spans, [max] at least one, and
    whose queue is within it: the queue never grows beyond [max],
    neither during the loop nor after it; each incoming span is
    appended, the head being discarded first when the queue is full, so
    that the loop leaves the newest [max] spans of the old queue followed
    by the new ones; the call does not throw and reports [SUCCESS].
    [max] is [maxQueueSize] itself when that is a whole number, and the
    next whole number above it otherwise.  The exporter counts nothing:
    the call changes the queue and no other field.  After [shutdown] the
    call leaves the exporter as it is, the spans being discarded. *)
Theorem export_keeps_newest
    (st : HikariSpanExporter) (spans : list ReadableSpan) (max : nat) :
  Number.least_length (maxQueueSize st) = Some max ->
  1 <= max ->
  length (queue st) <= max ->
  let q' := foldl (enqueue (maxQueueSize st)) (queue st) spans in
  (forall n,
      length (foldl (enqueue (maxQueueSize st)) (queue st) (take n spans))
      <= max)
  /\ q' = drop (length (queue st ++ spans) - max) (queue st ++ spans)
  /\ (export st spans).2 = SUCCESS
  /\ (if shutdown_flag st then (export st spans).1 = (st, None)
      else exists batch rest,
        q' = batch ++ rest
        /\ (export st spans).1 = (with_queue st rest, sent_of batch)
        /\ length rest <= max)
  /\ (Number.isInteger (maxQueueSize st) = true ->
      Number.integer_value (maxQueueSize st) = Z.of_nat max)
  /\ (forall n,
        Number.length_ge n (maxQueueSize st) = true <-> max <= n).
Proof.
  intros Hcapacity Hmax Hq q'. subst q'.
  pose proof (enqueue_all_length _ _ Hcapacity spans _ Hmax Hq) as Hlen.
  split_and!.
  - intros n. by apply (enqueue_all_length _ _ Hcapacity).
  - by apply (enqueue_all_newest _ _ Hcapacity).
  - destruct (shutdown_flag st) eqn:Hflag.
    + unfold export. by rewrite Hflag.
    + rewrite (export_exact st spans Hflag). cbv zeta.
      by destruct (Number.length_ge _ (batchSize st)).
  - destruct (shutdown_flag st) eqn:Hflag.
    + unfold export. by rewrite Hflag.
    + rewrite (export_exact st spans Hflag). cbv zeta.
      set (q' := foldl _ _ _) in *.
      destruct (Number.length_ge _ (batchSize st)).
      * eexists (take _ q'), (drop _ q').
        split_and!; [by rewrite take_drop|done|].
        rewrite length_drop. lia.
      * exists [], q'. by split_and!.
  - intros Hint. by apply least_length_integer.
  - intros n. rewrite length_ge_least. rewrite Hcapacity. split.
    + by intros (k & [= <-] & Hk).
    + intros Hn. by exists max.
Qed.

Lemma export_keeps_newest_witness :
  let a := sample_span "a" [] in
  let b := sample_span "b" [] in
  let c := sample_span "c" [] in
  let st := mkExporter "http://localhost:8000" 2 100 5000 [a; b] false true in
  foldl (enqueue 2) [a; b] [c] = [b; c]
  /\ (export st [c]).2 = SUCCESS.
Proof.
  intros a b c st.
  pose proof (export_keeps_newest st [c] 2 eq_refl ltac:(lia)
                ltac:(simpl; lia))
    as (_ & Hnewest & Hcode & _).
  split; [exact Hnewest | exact Hcode].
Defined.

(** A capacity that is not a whole number is exceeded: with
    [maxQueueSize: 1.5] a queue of one span is not full, and holds two
    after the next span. *)
Example fractional_capacity_is_exceeded :
  let a := sample_span "a" [] in
  let b := sample_span "b" [] in
  let st := mkExporter "http://localhost:8000" 1.5 100 5000 [a] false true in
  Number.length_ge 1 1.5 = false
  /\ Number.least_length 1.5 = Some 2
  /\ queue (export st [b]).1.1 = [a; b]
  /\ Number.length_ge (length (queue (export st [b]).1.1)) 1.5 = true.
Proof. split_and!; reflexivity. Qed.

(** An overflowing call changes no number the exporter holds. *)
Lemma overflow_is_not_counted :
  let a := sample_span "a" [] in
  let b := sample_span "b" [] in
  let st := mkExporter "http://localhost:8000" 1 100 5000 [a] false true in
  (export st [b]).1.1 = with_queue st [b]
  /\ counters (export st [b]).1.1 = counters st.
Proof. split; reflexivity. Qed.

(** C5, as worded, fails: on a full queue of capacity one the head is
    dropped and nothing the exporter holds records it; it has no
    overflow counter. *)
Lemma export_counts_no_overflow :
  ~ AsClaimed.export_drops_oldest_and_counts.
Proof.
  intros Hclaim.
  pose (a := sample_span "a" []). pose (b := sample_span "b" []).
  specialize (Hclaim
    (mkExporter "http://localhost:8000" 1 100 5000 [a] false true) [b] 1).
  simpl in Hclaim.
  destruct Hclaim as (_ & Hcount & _); [done|done|done|lia|lia|].
  destruct Hcount as (i & x & y & Hx & Hy & Hlt); [lia|].
  unfold counters in Hx, Hy. cbn [queue length maxQueueSize batchSize
    flushIntervalMs] in Hx, Hy.
  do 4 (destruct i as [|i]; simpl in Hx, Hy;
        [simplify_eq; vm_compute in Hlt; discriminate|]).
  done.
Qed.

(** After [shutdown] the spans are discarded, and a capacity of zero is
    exceeded. *)
Example export_after_shutdown_and_capacity_zero :
  let a := sample_span "a" [] in
  let b := sample_span "b" [] in
  export (mkExporter "http://localhost:8000" 2 100 5000 [a] true false) [b]
  = (mkExporter "http://localhost:8000" 2 100 5000 [a] true false, None, SUCCESS)
  /\ queue (export (mkExporter "http://localhost:8000" 0 100 5000 [] false true) [a; b]).1.1
     = [b].
Proof. split; reflexivity. Qed.

End ExporterSpec.

(** ** The OTLP encoding of attributes *)

Module OtlpSpec.
Import JS Otel Exporter Collector.
Local Open Scope Z_scope.
Local Open Scope list_scope.

(** Printing an integer in decimal and reading it back. *)
Lemma parse_decimal_to_int z :
  parse_decimal (NilZero.string_of_int (Z.to_int z)) = Some z.
Proof.
  unfold parse_decimal. rewrite NilZero.isi.
  - simpl. by rewrite DecimalZ.of_to.
  - destruct z; simpl; try discriminate.
    intros [= H]. by apply Unsigned.to_uint_nonnil in H.
  - destruct z; simpl; try discriminate.
    intros [= H]. by apply Unsigned.to_uint_nonnil in H.
Qed.

(** The magnitude of a finite, non-zero, integer-valued double. *)
Lemma integer_magnitude_pos (m : positive) (e : Z) :
  (0 <=? e) || (Z.pos m mod 2 ^ (- e) =? 0) = true ->
  0 < (if 0 <=? e then Z.pos m * 2 ^ e else Z.pos m / 2 ^ (- e)).
Proof.
  destruct (Z.leb_spec 0 e) as [He|He]; simpl.
  - intros _. apply Z.mul_pos_pos; [lia|]. by apply Z.pow_pos_nonneg.
  - intros Hmod%Z.eqb_eq.
    assert (0 < 2 ^ (- e)) as Hpow by (apply Z.pow_pos_nonneg; lia).
    pose proof (Z.div_mod (Z.pos m) (2 ^ (- e)) ltac:(lia)) as Hdiv.
    rewrite Hmod in Hdiv. nia.
Qed.

(** [String(n)] of an integer below [2^53] in magnitude is its decimal
    text. *)
Lemma toString_integer (n : number) :
  Number.isInteger n = true ->
  Z.abs (Number.integer_value n) < Number.two53 ->
  Number.toString n
  = NilZero.string_of_int (Z.to_int (Number.integer_value n)).
Proof.
  intros Hint Hsafe. unfold Number.toString.
  rewrite Hint, (proj2 (Z.ltb_lt _ _) Hsafe). simpl.
  revert Hint. unfold Number.integer_value, Number.isInteger, Number.decimal.
  destruct (Prim2SF n) as [s| | |s m e]; try done.
  intros Hint. rewrite Hint.
  pose proof (integer_magnitude_pos m e Hint) as Hpos.
  destruct (if 0 <=? e then _ else _) as [|p|p]; try lia.
  by destruct s.
Qed.

(** A number that is not an integer is not a zero. *)
Lemma JSON_number_finite (n : number) :
  Number.isInteger n = false ->
  Number.isFinite n = true ->
  JSON_number n = Jnumber n.
Proof.
  unfold JSON_number, Number.isInteger, Number.isFinite.
  rewrite FloatAxioms.eqb_spec.
  change (Prim2SF 0) with (S754_zero false).
  destruct (Prim2SF n) as [s|s| |[] m e]; done.
Qed.

Lemma encode_recovered k v :
  recoverable v = true ->
  map (fun a => (key a, coerce (JSON_value (value a)))) (encode (k, v))
  = [(k, value_of v)].
Proof.
  destruct v as [s|n|b|l|]; simpl; try done.
  destruct (Number.isInteger n) eqn:Hint.
  - intros Hsafe%Z.ltb_lt. simpl.
    rewrite toString_integer by done. by rewrite parse_decimal_to_int.
  - intros Hfinite. simpl. by rewrite JSON_number_finite.
Qed.

(** C8, as the code has it. For every span, [spanToOtlp] emits, in the
    order of the span's attributes, one attribute under the same key for
    each string, boolean or number, and none for a value of another kind
    (an array, [undefined]): [{stringValue}] for a string, [{boolValue}]
    for a boolean, [{intValue: String(n)}] for an integer-valued number
    (a cost of 0 included), which is the decimal text of [n] when [n] is
    below [2^53] in magnitude, and [{doubleValue: n}] for any other
    number.  When every attribute is a string, a boolean, a finite
    number that is not an integer or an integer below [2^53] in
    magnitude, a consumer that reads the body [JSON.stringify] has
    written, takes [intValue] as a decimal integer and keeps
    [doubleValue] as it is, recovers every key and value exactly, in
    order.  A NaN or an infinity is encoded [{doubleValue: n}], is
    written [{"doubleValue": null}] in the body, and is not recovered. *)
Theorem spanToOtlp_attributes (span : ReadableSpan) :
  let attrs := default [] (rs_attributes span) in
  Forall2
    (fun kv a =>
       key a = kv.1 /\
       match kv.2 with
       | AStr s => value a = stringValue s
       | ABool b => value a = boolValue b
       | ANum n =>
           if Number.isInteger n
           then value a = intValue (Number.toString n)
                /\ (Z.abs (Number.integer_value n) < Number.two53 ->
                    parse_decimal (Number.toString n)
                    = Some (Number.integer_value n))
           else value a = doubleValue n
       | _ => False
       end)
    (filter (fun kv => sendable kv.2 = true) attrs)
    (attributes (spanToOtlp span))
  /\ (Forall (fun kv => recoverable kv.2 = true) attrs ->
      map (fun a => (key a, coerce (JSON_value (value a))))
          (attributes (spanToOtlp span))
      = map (fun kv => (kv.1, value_of kv.2)) attrs)
  /\ (forall k n,
        (k, ANum n) ∈ attrs ->
        Number.isFinite n = false ->
        encode (k, ANum n) = [mkOtlpAttribute k (doubleValue n)]
        /\ JSON_value (doubleValue n) = ("doubleValue", Jnull)
        /\ coerce (JSON_value (doubleValue n)) = None).
Proof.
  intros attrs.
  assert (attributes (spanToOtlp span) = concat (map encode attrs)) as ->
    by (unfold spanToOtlp, attrs; by destruct (rs_attributes span)).
  clearbody attrs. split_and!.
  - induction attrs as [|[k v] attrs IH]; [constructor|].
    destruct v as [s|n|b|l|];
      [rewrite filter_cons_True by done ..
      | rewrite filter_cons_False by (by simpl)
      | rewrite filter_cons_False by (by simpl)];
      simpl; try apply IH.
    + constructor; [done|apply IH].
    + destruct (Number.isInteger n) eqn:Hint; simpl;
        (constructor; [|apply IH]); simpl; rewrite Hint; [|done].
      split_and!; try done. intros Hsafe.
      rewrite toString_integer by done. apply parse_decimal_to_int.
    + constructor; [done|apply IH].
  - induction 1 as [|[k v] attrs Hv _ IH]; [done|].
    cbn [map concat]. rewrite map_app, IH.
    by rewrite (encode_recovered k v Hv).
  - intros k n _ Hfinite.
    unfold encode, JSON_value, JSON_number, Number.isInteger.
    revert Hfinite. unfold Number.isFinite.
    destruct (Prim2SF n) as [s|s| |s m e]; done.
Qed.

Lemma spanToOtlp_attributes_witness :
  let attrs :=
    [ (Attributes.STAGE, AStr "extract");
      (Attributes.TOKENS_INPUT, ANum 100);
      (Attributes.COST_INPUT, ANum 0);
      (Attributes.COST_TOTAL, ANum 0.00075);
      ("cached", ABool true) ] in
  map (fun a => (key a, coerce (JSON_value (value a))))
      (attributes (spanToOtlp (sample_span "e1" attrs)))
  = [ (Attributes.STAGE, Some (CStr "extract"));
      (Attributes.TOKENS_INPUT, Some (CInt 100));
      (Attributes.COST_INPUT, Some (CInt 0));
      (Attributes.COST_TOTAL, Some (CFloat 0.00075));
      ("cached", Some (CBool true)) ].
Proof.
  intros attrs.
  change (map (fun a => (key a, coerce (JSON_value (value a))))
            (attributes (spanToOtlp (sample_span "e1" attrs)))
          = map (fun kv => (kv.1, value_of kv.2))
              (default [] (rs_attributes (sample_span "e1" attrs)))).
  apply (spanToOtlp_attributes (sample_span "e1" attrs)).
  repeat constructor.
Defined.

(** C8, as worded, fails twice: the integer [1e21] is sent as the text
    "1e+21", which is not a decimal string, so an integer parser rejects
    it; and an attribute whose value is an array is not sent. *)
Lemma large_integers_and_arrays_are_not_recovered :
  ~ AsClaimed.integers_sent_as_decimal_strings
  /\ ~ AsClaimed.every_attribute_is_sent.
Proof.
  split; intros Hclaim.
  - destruct (Hclaim Attributes.TOKENS_INPUT 1e21%float) as (s & Henc & Hparse).
    + vm_compute. reflexivity.
    + vm_compute in Henc. injection Henc as <-.
      vm_compute in Hparse. discriminate.
  - destruct (Hclaim (sample_span "s1" [("tags", AArray [Some (PStr "a")])])
                "tags" (AArray [Some (PStr "a")])) as (a & Ha & _).
    + simpl. apply list_elem_of_here.
    + discriminate.
    + by apply not_elem_of_nil in Ha.
Qed.

(** NaN and the infinities leave as [null]; the sign of a zero written
    as a double would be lost, but a zero is an integer and leaves as
    the text "0". *)
Example non_finite_numbers_arrive_as_null :
  (fun n => map (fun a => (key a, JSON_value (value a)))
              (attributes (spanToOtlp (sample_span "e1" [("x", ANum n)]))))
    <$> [nan; infinity; neg_infinity; 0.5; (-0)]%float
  = [ [("x", ("doubleValue", Jnull))];
      [("x", ("doubleValue", Jnull))];
      [("x", ("doubleValue", Jnull))];
      [("x", ("doubleValue", Jnumber 0.5))];
      [("x", ("intValue", Jstring "0"))] ].
Proof. vm_compute. reflexivity. Qed.

(** Further values that do not come back: [2^60] is sent as the
    shortest digits that read back as the same double, another integer;
    an array is not sent at all. *)
Example values_not_recovered :
  encode ("n", ANum 1152921504606846976)
  = [mkOtlpAttribute "n" (intValue "1152921504606847000")]
  /\ Number.integer_value 1152921504606846976 = 1152921504606846976
  /\ encode ("tags", AArray [Some (PStr "a"); Some (PStr "b")]) = []
  /\ encode ("zero", ANum (-0)) = [mkOtlpAttribute "zero" (intValue "0")].
Proof. split_and!; vm_compute; reflexivity. Qed.

(** [String] on integers below [2^53]: the digit search gives the
    integer's own digits. *)
Example toString_search_agrees :
  Forall (fun n => Number.toString_search n = Number.toString n)
    [1; 7; 10; 100; 150; 1000000; 12345678; 3e15; 4503599627370496;
     4503599627370497; 9007199254740990; 9007199254740991; -42]%float.
Proof. repeat constructor. Qed.

(** [String] as JavaScript prints. *)
Example toString_samples :
  Number.toString <$> [0.5; 0.1; 0.1 + 0.2; 0.00075; 0.000001; 1e-7;
                       1e21; 1e20; 1e23; 5e-324; 1.7976931348623157e308;
                       1706000000000000000; nan; neg_infinity]%float
  = ["0.5"; "0.1"; "0.30000000000000004"; "0.00075"; "0.000001"; "1e-7";
     "1e+21"; "100000000000000000000"; "1e+23"; "5e-324";
     "1.7976931348623157e+308"; "1706000000000000000"; "NaN";
     "-Infinity"]%string.
Proof. vm_compute. reflexivity. Qed.

End OtlpSpec.

(** ** The continuous aggregates *)

Module SchemaSpec.
Import JS Schema.
Local Open Scope list_scope.

Lemma key_of_row_aggregate k rows : key_of_row (aggregate k rows) = k.
Proof. by destruct k as [[[[b p] s] m] pr]. Qed.

(** The keys of a view: the distinct keys of the rows that have a
    cost. *)
Lemma cost_view_keys w spans :
  key_of_row <$> cost_view w spans
  = remove_dups
      (key_of w <$> filter (fun r => cost_total_is_not_null r = true) spans).
Proof.
  unfold cost_view, group_by. rewrite <- !list_fmap_compose.
  rewrite <- (list_fmap_id (remove_dups _)) at 2.
  apply list_fmap_ext. intros _ k _. simpl. apply key_of_row_aggregate.
Qed.

(** A row of a view aggregates the rows of its key that have a cost, of
    which there is at least one. *)
Lemma cost_view_row w spans g :
  g ∈ cost_view w spans ->
  g = aggregate (key_of_row g)
        (filter (fun r => key_of w r = key_of_row g
                          /\ cost_total_is_not_null r = true) spans)
  /\ exists r, r ∈ spans /\ cost_total_is_not_null r = true
               /\ key_of w r = key_of_row g.
Proof.
  unfold cost_view, group_by. rewrite <- list_fmap_compose.
  intros (k & -> & Hk)%list_elem_of_fmap.
  unfold compose. cbn [fst snd].
  rewrite key_of_row_aggregate. split.
  - by rewrite list_filter_filter.
  - apply elem_of_remove_dups, list_elem_of_fmap in Hk as (r & -> & Hr).
    apply list_elem_of_filter in Hr as [Hc Hr]. eauto.
Qed.

Lemma time_bucket_bounds w t :
  (0 < w)%Z -> (time_bucket w t <= t < time_bucket w t + w)%Z.
Proof.
  intros Hw. unfold time_bucket.
  pose proof (Z.div_mod (t - bucket_origin) w ltac:(lia)).
  pose proof (Z.mod_pos_bound (t - bucket_origin) w Hw). lia.
Qed.

Lemma width_of_pos i : (0 < width_of i)%Z.
Proof. by destruct i. Qed.

Lemma view_of_cost_view i : view_of i = cost_view (width_of i).
Proof. by destruct i. Qed.

(** C7. Each of [cost_hourly], [cost_daily] and [cost_weekly] has one row
    per [(bucket, pipeline_id, stage, model, provider)] of the spans
    that have a [cost_total], and that row holds [SUM(cost_total)],
    [SUM(tokens_input)], [SUM(tokens_output)], [COUNT( * )] and
    [AVG(cost_total)] of exactly the spans of that key and bucket whose
    [cost_total] is not null; a span with a null [cost_total] contributes
    to no column, the count included: the view is the same for any two
    tables with the same spans that have a cost. *)
Theorem cost_views_aggregate_costed_rows
    (i : interval) (spans : list span_row) :
  let view := view_of i spans in
  let w := width_of i in
  NoDup (key_of_row <$> view)
  /\ (forall r, r ∈ spans -> cost_total r <> None ->
        key_of w r ∈ key_of_row <$> view)
  /\ (forall g, g ∈ view ->
        let rows :=
          filter (fun r => key_of w r = key_of_row g
                           /\ cost_total_is_not_null r = true) spans in
        rows <> []
        /\ Forall (fun r =>
                     cost_total r <> None
                     /\ (bucket g <= time r < bucket g + w)%Z
                     /\ pipeline_id r = cr_pipeline_id g
                     /\ stage r = cr_stage g
                     /\ model r = cr_model g
                     /\ provider r = cr_provider g) rows
        /\ total_cost g = SUM_float (cost_total <$> rows)
        /\ total_tokens_input g = SUM_int (tokens_input <$> rows)
        /\ total_tokens_output g = SUM_int (tokens_output <$> rows)
        /\ span_count g = COUNT_star rows
        /\ avg_cost_per_span g = AVG_float (cost_total <$> rows))
  /\ (forall spans',
        filter (fun r => cost_total_is_not_null r = true) spans'
        = filter (fun r => cost_total_is_not_null r = true) spans ->
        view_of i spans' = view).
Proof.
  intros view w. subst view w. rewrite view_of_cost_view.
  split_and!.
  - rewrite cost_view_keys. apply NoDup_remove_dups.
  - intros r Hr Hcost. rewrite cost_view_keys.
    apply elem_of_remove_dups, list_elem_of_fmap_2, list_elem_of_filter.
    split; [|done]. unfold cost_total_is_not_null. by destruct (cost_total r).
  - intros g Hg rows.
    apply cost_view_row in Hg as [Hagg (r & Hr & Hc & Hk)].
    fold rows in Hagg. split_and!.
    + intros Hnil. assert (r ∈ rows) as Hin by (by apply list_elem_of_filter).
      rewrite Hnil in Hin. by apply not_elem_of_nil in Hin.
    + apply Forall_forall. intros r' [[Hk' Hc'] _]%list_elem_of_filter.
      unfold key_of, key_of_row in Hk'.
      injection Hk' as Hb Hp Hs Hm Hpr.
      split_and!; try done.
      * unfold cost_total_is_not_null in Hc'. by destruct (cost_total r').
      * rewrite <- Hb. apply time_bucket_bounds, width_of_pos.
      * rewrite <- Hb. apply time_bucket_bounds, width_of_pos.
    + rewrite Hagg at 1. by destruct (key_of_row g) as [[[[??]?]?]?].
    + rewrite Hagg at 1. by destruct (key_of_row g) as [[[[??]?]?]?].
    + rewrite Hagg at 1. by destruct (key_of_row g) as [[[[??]?]?]?].
    + rewrite Hagg at 1. by destruct (key_of_row g) as [[[[??]?]?]?].
    + rewrite Hagg at 1. by destruct (key_of_row g) as [[[[??]?]?]?].
  - intros spans' Heq. unfold cost_view. by rewrite Heq.
Qed.

End SchemaSpec.

(** * Further properties *)

(** ** Pricing: updates and partial costs *)

Module PricingMore.
Import JS Pricing PricingOps.

Lemma update_all_table entries : forall pm,
  table (update_all pm entries) = set_all (table pm) entries.
Proof.
  induction entries as [|[k [i o]] entries IH]; intros pm; [done|].
  unfold update_all, set_all in *. simpl. by rewrite IH.
Qed.

Lemma PricingModel_eq pm1 pm2 : table pm1 = table pm2 -> pm1 = pm2.
Proof. destruct pm1, pm2. simpl. by intros ->. Qed.

(** X1. [update] changes the price of its key only: [get] for any other
    provider and model answers as before. *)
Theorem update_leaves_other_models (pm : PricingModel) (modelKey : string)
    (i o : number) (provider model : string) :
  template_slash provider model <> modelKey ->
  get (update pm modelKey i o) provider model = get pm provider model.
Proof.
  intros Hne. unfold get, update. simpl. by rewrite lookup_insert_ne.
Qed.

Lemma update_leaves_other_models_witness :
  get (update (new None) "custom/model-1" 0.000001 0.000002) "openai" "gpt-4o"
  = get (new None) "openai" "gpt-4o".
Proof.
  apply update_leaves_other_models. vm_compute. discriminate.
Defined.

(** X2. Building a model with overrides is building the bundled one and
    calling [update] for every override; with no entry to override it is
    the bundled model. *)
Theorem new_is_defaults_then_updates (O : gmap string ModelPricing) :
  new (Some O) = update_all (new None) (Object_entries O)
  /\ new (Some ∅) = new None.
Proof.
  split; apply PricingModel_eq.
  - by rewrite update_all_table.
  - unfold new, Object_entries. simpl. by rewrite map_to_list_empty.
Qed.

(** X3. Updates of two different keys can be made in either order, and a
    second update of a key replaces the first. *)
Theorem updates_commute_and_overwrite (pm : PricingModel)
    (k1 k2 : string) (a b c d : number) :
  (k1 <> k2 ->
   update (update pm k1 a b) k2 c d = update (update pm k2 c d) k1 a b)
  /\ update (update pm k1 a b) k1 c d = update pm k1 c d.
Proof.
  split; [intros Hne|]; apply PricingModel_eq; unfold update; simpl.
  - by apply insert_insert_ne.
  - apply insert_insert_eq.
Qed.

(** X4. No operation removes a price: a model that is priced stays priced
    after any sequence of updates, and every bundled model is priced in a
    model built with any overrides. *)
Theorem prices_are_never_removed (pm : PricingModel)
    (entries : list (string * ModelPricing))
    (overrides : option (gmap string ModelPricing)) (provider model : string) :
  (is_Some (get pm provider model) ->
   is_Some (get (update_all pm entries) provider model))
  /\ (is_Some (DEFAULT_PRICING !! template_slash provider model) ->
      is_Some (get (new overrides) provider model)).
Proof.
  split.
  - revert pm. induction entries as [|[k [i o]] entries IH]; intros pm Hp; [done|].
    apply IH. unfold get, update in *. simpl.
    destruct (decide (k = template_slash provider model)) as [->|Hne].
    + rewrite lookup_insert_eq. eauto.
    + by rewrite lookup_insert_ne.
  - intros Hd. unfold get. rewrite PricingSpec.new_lookup.
    by destruct (overrides ≫= _).
Qed.

(** X5. Each component is computed on its own: the input cost is known
    exactly when the model is priced and the input tokens are known,
    whatever the output tokens are, and the same for the output cost; so
    one known component is reported even when the total is not. *)
Theorem computeCost_components_are_independent (pm : PricingModel)
    (provider model : string)
    (inputTokens outputTokens inputTokens' outputTokens' : nullable number) :
  let r := computeCost pm provider model inputTokens outputTokens in
  inputCost r = inputCost (computeCost pm provider model inputTokens outputTokens')
  /\ outputCost r = outputCost (computeCost pm provider model inputTokens' outputTokens)
  /\ (inputCost r = None <-> get pm provider model = None \/ inputTokens = None)
  /\ (outputCost r = None <-> get pm provider model = None \/ outputTokens = None).
Proof.
  unfold computeCost; simpl.
  destruct (get pm provider model) as [p|],
           inputTokens as [i|], outputTokens as [o|]; simpl;
    intuition congruence.
Qed.

(** A finite double times zero is a zero, and two zeros add up to one. *)
Lemma mul_zero_is_zero (x : number) :
  Number.isFinite x = true -> (x * 0 =? 0)%float = true.
Proof.
  unfold Number.isFinite. rewrite FloatAxioms.eqb_spec, mul_spec.
  change (Prim2SF 0) with (S754_zero false).
  destruct (Prim2SF x) as [[]| | |[] m e]; done.
Qed.

Lemma add_zeros_is_zero (x y : number) :
  (x =? 0)%float = true -> (y =? 0)%float = true -> (x + y =? 0)%float = true.
Proof.
  rewrite !FloatAxioms.eqb_spec, add_spec.
  change (Prim2SF 0) with (S754_zero false).
  destruct (Prim2SF x) as [[]|[]| |[] ? ?], (Prim2SF y) as [[]|[]| |[] ? ?];
    done.
Qed.

(** X6. Zero is not unknown: for a model with finite prices, zero tokens
    cost zero, and the costs are reported as numbers equal to 0, not as
    [null]. *)
Theorem zero_tokens_cost_zero (pm : PricingModel) (provider model : string)
    (p : ModelPricing) :
  get pm provider model = Some p ->
  Number.isFinite (inputCostPerToken p) = true ->
  Number.isFinite (outputCostPerToken p) = true ->
  exists a b t,
    computeCost pm provider model (Some 0%float) (Some 0%float)
    = mkCostResult (Some a) (Some b) (Some t)
    /\ (a =? 0)%float = true /\ (b =? 0)%float = true /\ (t =? 0)%float = true.
Proof.
  intros Hp Hi Ho. unfold computeCost. rewrite Hp. simpl.
  eexists _, _, _. split; [reflexivity|].
  pose proof (mul_zero_is_zero _ Hi). pose proof (mul_zero_is_zero _ Ho).
  split_and!; try done. by apply add_zeros_is_zero.
Qed.

Lemma zero_tokens_cost_zero_witness :
  exists a b t,
    computeCost (new None) "openai" "gpt-4o" (Some 0%float) (Some 0%float)
    = mkCostResult (Some a) (Some b) (Some t)
    /\ (a =? 0)%float = true /\ (b =? 0)%float = true /\ (t =? 0)%float = true.
Proof.
  apply (zero_tokens_cost_zero (new None) "openai" "gpt-4o"
           (mkModelPricing 0.0000025 0.00001)); vm_compute; reflexivity.
Defined.

(** X7. A price written with [update] is the price [computeCost] uses
    from then on. *)
Theorem computeCost_uses_updated_price (pm : PricingModel)
    (provider model : string) (i o inputTokens outputTokens : number) :
  computeCost (update pm (template_slash provider model) i o) provider model
    (Some inputTokens) (Some outputTokens)
  = mkCostResult (Some (i * inputTokens)%float) (Some (o * outputTokens)%float)
      (Some (i * inputTokens + o * outputTokens)%float).
Proof.
  unfold computeCost, get, update. simpl. by rewrite lookup_insert_eq.
Qed.

End PricingMore.

(** ** Provider wrappers: what a span carries *)

Module ProvidersMore.
Import JS Otel Context Providers.

(** Case analysis over what the instrumentation block branches on, for
    any pricing object. *)
Ltac block_cases :=
  unfold try_catch_log, bind, when, lift; simpl;
  try match goal with
    | |- context [truthy ?x] => destruct (truthy x) eqn:?
    end;
  simpl;
  repeat match goal with
    | n : option number |- _ => destruct n
    end;
  simpl;
  try match goal with
    | pricing : CostFn |- context [?f ?a ?b ?c ?d] =>
        constr_eq f pricing;
        destruct (f a b c d) as [?|[[?|] [?|] [?|]]]
    end;
  simpl.

(** X8. A call that resolves with a response always leaves a span with
    the three attributes the collector requires, whatever the response
    holds and also when the pricing object throws: [hikari.stage] is the
    stage of the context when the wrapper is called, whatever the context
    becomes while the call is in flight, or else the span name,
    [hikari.provider] the
    provider, [hikari.model] the model of the response, or of the request,
    or "unknown" (for Google, the name of the model instance). *)
Theorem resolved_call_sets_required_attributes
    (pricing : CostFn) (store settled : Store) (args : list (option Kwargs)) :
  (forall original response,
      original args = Resolved (Some response) ->
      let span := (OpenAI.makeWrapper original pricing store settled args).2 in
      lookup Attributes.STAGE (attributes span)
      = Some (AStr (default "openai.chat.completions.create" (getStage store)))
      /\ lookup Attributes.MODEL (attributes span)
         = Some (AStr (default (default "unknown" (kw_model (kwargs_of args)))
                         (OpenAI.model response)))
      /\ lookup Attributes.PROVIDER (attributes span) = Some (AStr "openai"))
  /\ (forall original response,
      original args = Resolved (Some response) ->
      let span := (Anthropic.makeWrapper original pricing store settled args).2 in
      lookup Attributes.STAGE (attributes span)
      = Some (AStr (default "anthropic.messages.create" (getStage store)))
      /\ lookup Attributes.MODEL (attributes span)
         = Some (AStr (default (default "unknown" (kw_model (kwargs_of args)))
                         (Anthropic.model response)))
      /\ lookup Attributes.PROVIDER (attributes span) = Some (AStr "anthropic"))
  /\ (forall original modelName response,
      original args = Resolved (Some response) ->
      let span := (Google.makeWrapper original modelName pricing store settled args).2 in
      lookup Attributes.STAGE (attributes span)
      = Some (AStr (default "google.generativeai.generate_content" (getStage store)))
      /\ lookup Attributes.MODEL (attributes span) = Some (AStr modelName)
      /\ lookup Attributes.PROVIDER (attributes span) = Some (AStr "google")).
Proof.
  split_and!.
  - intros original [[[i o]|] [m|]] Hres span; subst span;
      unfold OpenAI.makeWrapper, OpenAI.extractTokens, OpenAI.extractModel;
      rewrite Hres; block_cases; split_and!; reflexivity.
  - intros original [[[i o]|] [m|]] Hres span; subst span;
      unfold Anthropic.makeWrapper, Anthropic.extractTokens,
        Anthropic.extractModel;
      rewrite Hres; block_cases; split_and!; reflexivity.
  - intros original modelName [[[i o]|]] Hres span; subst span;
      unfold Google.makeWrapper, Google.extractTokens;
      rewrite Hres; block_cases; split_and!; reflexivity.
Qed.

(** X9. The optional attributes mirror what is known: [hikari.pipeline_id]
    is set exactly when the context, as it is once the call has settled,
    holds a pipeline id that is not the empty string, whatever it held
    when the wrapper was called, and each token attribute exactly when
    the response gives
    that count, with the count as its value (a count of 0 included); this
    also when the pricing object throws. *)
Theorem optional_attributes_mirror_context_and_response
    (pricing : CostFn) (store settled : Store) (args : list (option Kwargs)) :
  let pipeline :=
    if truthy (getPipelineId settled) then AStr <$> getPipelineId settled
    else None in
  (forall original response,
      original args = Resolved (Some response) ->
      let span := (OpenAI.makeWrapper original pricing store settled args).2 in
      lookup Attributes.PIPELINE_ID (attributes span) = pipeline
      /\ lookup Attributes.TOKENS_INPUT (attributes span)
         = ANum <$> (OpenAI.usage response ≫= OpenAI.prompt_tokens)
      /\ lookup Attributes.TOKENS_OUTPUT (attributes span)
         = ANum <$> (OpenAI.usage response ≫= OpenAI.completion_tokens))
  /\ (forall original response,
      original args = Resolved (Some response) ->
      let span := (Anthropic.makeWrapper original pricing store settled args).2 in
      lookup Attributes.PIPELINE_ID (attributes span) = pipeline
      /\ lookup Attributes.TOKENS_INPUT (attributes span)
         = ANum <$> (Anthropic.usage response ≫= Anthropic.input_tokens)
      /\ lookup Attributes.TOKENS_OUTPUT (attributes span)
         = ANum <$> (Anthropic.usage response ≫= Anthropic.output_tokens))
  /\ (forall original modelName response,
      original args = Resolved (Some response) ->
      let span := (Google.makeWrapper original modelName pricing store settled args).2 in
      lookup Attributes.PIPELINE_ID (attributes span) = pipeline
      /\ lookup Attributes.TOKENS_INPUT (attributes span)
         = ANum <$> (Google.usageMetadata response ≫= Google.promptTokenCount)
      /\ lookup Attributes.TOKENS_OUTPUT (attributes span)
         = ANum <$> (Google.usageMetadata response ≫= Google.candidatesTokenCount)).
Proof.
  intros pipeline. subst pipeline. split_and!.
  - intros original [[[i o]|] [m|]] Hres span; subst span;
      destruct (getPipelineId settled) as [[|c id]|] eqn:Hid;
      unfold OpenAI.makeWrapper, OpenAI.extractTokens, OpenAI.extractModel;
      rewrite Hres, ?Hid; block_cases; split_and!; reflexivity.
  - intros original [[[i o]|] [m|]] Hres span; subst span;
      destruct (getPipelineId settled) as [[|c id]|] eqn:Hid;
      unfold Anthropic.makeWrapper, Anthropic.extractTokens,
        Anthropic.extractModel;
      rewrite Hres, ?Hid; block_cases; split_and!; reflexivity.
  - intros original modelName [[[i o]|]] Hres span; subst span;
      destruct (getPipelineId settled) as [[|c id]|] eqn:Hid;
      unfold Google.makeWrapper, Google.extractTokens;
      rewrite Hres, ?Hid; block_cases; split_and!; reflexivity.
Qed.

(** Keys in the order of the vocabulary. *)
Ltac in_vocabulary_order :=
  repeat first
    [ apply sublist_nil | apply sublist_skip | apply sublist_cons ].

(** X10. Whatever the call, the context and the pricing object do, a
    wrapper sets nothing but the nine [hikari.*] attributes, each at most
    once and in one fixed order: the keys of the span, as they are listed,
    are a subsequence of the vocabulary. *)
Theorem span_keys_follow_the_vocabulary
    (pricing : CostFn) (store settled : Store) (args : list (option Kwargs)) :
  (forall original,
      (attributes (OpenAI.makeWrapper original pricing store settled args).2).*1
      `sublist_of` Vocabulary.in_order)
  /\ (forall original,
      (attributes (Anthropic.makeWrapper original pricing store settled args).2).*1
      `sublist_of` Vocabulary.in_order)
  /\ (forall original modelName,
      (attributes (Google.makeWrapper original modelName pricing store settled args).2).*1
      `sublist_of` Vocabulary.in_order).
Proof.
  unfold Vocabulary.in_order. split_and!.
  - intros original.
    unfold OpenAI.makeWrapper, OpenAI.extractTokens, OpenAI.extractModel.
    destruct (original args) as [[[[[i o]|] [m|]]|]|e];
      block_cases; in_vocabulary_order.
  - intros original.
    unfold Anthropic.makeWrapper, Anthropic.extractTokens,
      Anthropic.extractModel.
    destruct (original args) as [[[[[i o]|] [m|]]|]|e];
      block_cases; in_vocabulary_order.
  - intros original modelName.
    unfold Google.makeWrapper, Google.extractTokens.
    destruct (original args) as [[[[[i o]|]]|]|e];
      block_cases; in_vocabulary_order.
Qed.

(** X11. Every call leaves its span ended and named after the operation,
    however the call settles and whatever throws on the way; when the call
    resolves with [null] or [undefined] the span has no attribute, the
    first read of the response having thrown. *)
Theorem span_is_always_ended
    (pricing : CostFn) (store settled : Store) (args : list (option Kwargs)) :
  (forall original,
      let span := (OpenAI.makeWrapper original pricing store settled args).2 in
      ended span = true /\ name span = "openai.chat.completions.create"
      /\ (original args = Resolved None -> attributes span = []))
  /\ (forall original,
      let span := (Anthropic.makeWrapper original pricing store settled args).2 in
      ended span = true /\ name span = "anthropic.messages.create"
      /\ (original args = Resolved None -> attributes span = []))
  /\ (forall original modelName,
      let span := (Google.makeWrapper original modelName pricing store settled args).2 in
      ended span = true /\ name span = "google.generativeai.generate_content"
      /\ (original args = Resolved None -> attributes span = [])).
Proof.
  split_and!.
  - intros original span; subst span.
    unfold OpenAI.makeWrapper, OpenAI.extractTokens, OpenAI.extractModel.
    destruct (original args) as [[[[[i o]|] [m|]]|]|e];
      block_cases; split_and!; done.
  - intros original span; subst span.
    unfold Anthropic.makeWrapper, Anthropic.extractTokens,
      Anthropic.extractModel.
    destruct (original args) as [[[[[i o]|] [m|]]|]|e];
      block_cases; split_and!; done.
  - intros original modelName span; subst span.
    unfold Google.makeWrapper, Google.extractTokens.
    destruct (original args) as [[[[[i o]|]]|]|e];
      block_cases; split_and!; done.
Qed.

End ProvidersMore.

Module ContextMore.
Import JS Otel Context ContextOps Providers.

Lemma getStore_assign_store f st c :
  getStore st = Some c -> getStore (assign_store f st) = Some (f c).
Proof.
  unfold getStore, assign_store.
  destruct (current st) as [r|]; [|done]. cbn.
  intros Hc. by rewrite lookup_alter_eq, Hc.
Qed.

Lemma getStore_enterWith c st : getStore (enterWith c st) = Some c.
Proof. unfold getStore, enterWith. cbn. by rewrite lookup_insert_eq. Qed.

Lemma getStore_setPipelineId id st :
  getStore (setPipelineId id st)
  = Some (mkHikariContext (Some id) (getStage (getStore st))).
Proof.
  unfold setPipelineId.
  destruct (getStore st) as [c|] eqn:Hc.
  - by rewrite (getStore_assign_store _ _ _ Hc).
  - by rewrite getStore_enterWith.
Qed.

Lemma getStore_setStage s st :
  getStore (setStage s st)
  = Some (mkHikariContext (getPipelineId (getStore st)) (Some s)).
Proof.
  unfold setStage.
  destruct (getStore st) as [c|] eqn:Hc.
  - by rewrite (getStore_assign_store _ _ _ Hc).
  - by rewrite getStore_enterWith.
Qed.

(** X12. The setters and getters of the context round-trip, inside a
    [runWithContext] and outside of any context alike: after
    [setPipelineId(id)], [getPipelineId()] returns [id] and [getStage()]
    what it returned before; after [setStage(s)], [getStage()] returns [s]
    and [getPipelineId()] what it returned before. *)
Theorem context_setters_round_trip (st : AsyncLocalStorage) (v : string) :
  getPipelineId (getStore (setPipelineId v st)) = Some v
  /\ getStage (getStore (setPipelineId v st)) = getStage (getStore st)
  /\ getStage (getStore (setStage v st)) = Some v
  /\ getPipelineId (getStore (setStage v st)) = getPipelineId (getStore st).
Proof.
  by rewrite getStore_setPipelineId, getStore_setStage.
Qed.

(** X13. [setPipelineId] called inside [runWithContext(context, fn)] writes
    into the object the caller passed: when the run is over the caller is
    back in its own context, no other object has changed, but [context]
    now carries the id, and a later [runWithContext] on the same object
    reads it. *)
Theorem setter_in_run_writes_the_callers_object
    (st : AsyncLocalStorage) (context : ref) (c : HikariContext)
    (id : string) :
  objects st !! context = Some c ->
  let after :=
    (runWithContext context (fun st => (tt, setPipelineId id st)) st).2 in
  current after = current st
  /\ objects after !! context = Some (mkHikariContext (Some id) (stage c))
  /\ (forall r, r <> context -> objects after !! r = objects st !! r)
  /\ (runWithContext context
        (fun st => (getPipelineId (getStore st), st)) after).1 = Some id.
Proof.
  intros Hc after. subst after.
  unfold runWithContext, setPipelineId, getStore, assign_store. cbn.
  rewrite Hc. cbn.
  split_and!.
  - done.
  - by rewrite lookup_alter_eq, Hc.
  - intros r Hr. by rewrite lookup_alter_ne.
  - by rewrite lookup_alter_eq, Hc.
Qed.

Lemma setter_in_run_writes_the_callers_object_witness :
  let st := mkStorage {[ 1%positive := mkHikariContext None (Some "plan") ]}
              None in
  let after :=
    (runWithContext 1%positive (fun st => (tt, setPipelineId "p-1" st)) st).2 in
  current after = None
  /\ objects after !! 1%positive
     = Some (mkHikariContext (Some "p-1") (Some "plan")).
Proof.
  intros st after.
  pose proof (setter_in_run_writes_the_callers_object st 1%positive
                (mkHikariContext None (Some "plan")) "p-1" eq_refl) as H.
  exact (conj (proj1 H) (proj1 (proj2 H))).
Defined.

(** X14. A setter called outside of any context enters a context of its
    own, on a new object: no object that existed is changed. *)
Theorem setter_outside_a_context_changes_no_object
    (st : AsyncLocalStorage) (v : string) (r : ref) (c : HikariContext) :
  getStore st = None ->
  objects st !! r = Some c ->
  objects (setPipelineId v st) !! r = Some c
  /\ objects (setStage v st) !! r = Some c
  /\ current (setPipelineId v st) <> Some r
  /\ current (setStage v st) <> Some r.
Proof.
  intros Hnone Hr.
  unfold setPipelineId, setStage. rewrite Hnone.
  unfold enterWith, new_object. cbn.
  assert (fresh (dom (objects st)) <> r) as Hfresh.
  { intros Heq. apply (is_fresh (dom (objects st))).
    rewrite Heq. apply elem_of_dom. by exists c. }
  split_and!.
  - by rewrite lookup_insert_ne.
  - by rewrite lookup_insert_ne.
  - congruence.
  - congruence.
Qed.

Lemma setter_outside_a_context_changes_no_object_witness :
  let st := mkStorage {[ 1%positive := mkHikariContext None (Some "plan") ]}
              None in
  objects (setPipelineId "p-1" st) !! 1%positive
  = Some (mkHikariContext None (Some "plan")).
Proof.
  intros st.
  exact (proj1 (setter_outside_a_context_changes_no_object st "p-1" 1%positive
                  (mkHikariContext None (Some "plan")) eq_refl eq_refl)).
Defined.

Lemma getPipelineId_in_flight writes : forall st id,
  getPipelineId (getStore st) = Some id ->
  getPipelineId (getStore (in_flight writes st))
  = Some (last_pipeline_id id writes).
Proof.
  induction writes as [|w writes IH]; intros st id Hid; [done|].
  unfold in_flight, last_pipeline_id in *. cbn [foldl].
  apply IH. destruct w as [id'|stage]; cbn [apply_write].
  - by rewrite getStore_setPipelineId.
  - by rewrite getStore_setStage.
Qed.

(** X15. Context and wrappers together.  Once [setPipelineId(id)] and
    [setStage(s)] have run, in either order, the span of every call made
    then that resolves with a response carries [hikari.stage = s], also
    when [setStage] is called again while the call is in flight.  Its
    pipeline id is the one the context holds when the call settles: [id]
    when no setter ran in between, and otherwise the id that
    [setPipelineId] wrote last while the call was in flight; when that id
    is the empty string the span has no pipeline id at all. *)
Theorem calls_are_tagged_with_the_context_set
    (pricing : CostFn) (st called : AsyncLocalStorage) (id s : string)
    (writes : list write) (args : list (option Kwargs)) :
  called = setStage s (setPipelineId id st)
  \/ called = setPipelineId id (setStage s st) ->
  let store := getStore called in
  let settled := getStore (in_flight writes called) in
  let id' := last_pipeline_id id writes in
  let tagged (span : Span) :=
    lookup Attributes.STAGE (attributes span) = Some (AStr s)
    /\ lookup Attributes.PIPELINE_ID (attributes span)
       = (if decide (id' = "") then None else Some (AStr id')) in
  (forall original response,
      original args = Resolved (Some response) ->
      tagged (OpenAI.makeWrapper original pricing store settled args).2)
  /\ (forall original response,
      original args = Resolved (Some response) ->
      tagged (Anthropic.makeWrapper original pricing store settled args).2)
  /\ (forall original modelName response,
      original args = Resolved (Some response) ->
      tagged (Google.makeWrapper original modelName pricing store settled args).2).
Proof.
  intros Hcalled store settled id' tagged. subst store tagged.
  assert (getStore called = Some (mkHikariContext (Some id) (Some s)))
    as Hstore.
  { destruct Hcalled as [-> | ->].
    - by rewrite getStore_setStage, getStore_setPipelineId.
    - by rewrite getStore_setPipelineId, getStore_setStage. }
  assert (getPipelineId settled = Some id') as Hsettled.
  { apply getPipelineId_in_flight. by rewrite Hstore. }
  rewrite Hstore. clearbody settled id'. clear Hstore Hcalled.
  split_and!.
  - intros original [[[i o]|] [m|]] Hres;
      unfold OpenAI.makeWrapper, OpenAI.extractTokens, OpenAI.extractModel;
      rewrite Hres, Hsettled; destruct id' as [|a id'];
      ProvidersMore.block_cases; split_and!; reflexivity.
  - intros original [[[i o]|] [m|]] Hres;
      unfold Anthropic.makeWrapper, Anthropic.extractTokens,
        Anthropic.extractModel;
      rewrite Hres, Hsettled; destruct id' as [|a id'];
      ProvidersMore.block_cases; split_and!; reflexivity.
  - intros original modelName [[[i o]|]] Hres;
      unfold Google.makeWrapper, Google.extractTokens;
      rewrite Hres, Hsettled; destruct id' as [|a id'];
      ProvidersMore.block_cases; split_and!; reflexivity.
Qed.

Lemma calls_are_tagged_with_the_context_set_witness :
  let called := setStage "plan" (setPipelineId "p-1" (mkStorage ∅ None)) in
  let span :=
    (OpenAI.makeWrapper
       (fun _ => Resolved (Some (OpenAI.mkResponse None None)))
       failing_pricing (getStore called)
       (getStore (in_flight [SetPipelineId "p-2"; SetStage "act"] called))
       []).2 in
  lookup Attributes.STAGE (attributes span) = Some (AStr "plan")
  /\ lookup Attributes.PIPELINE_ID (attributes span) = Some (AStr "p-2").
Proof.
  exact (proj1 (calls_are_tagged_with_the_context_set failing_pricing
                  (mkStorage ∅ None) _ "p-1" "plan"
                  [SetPipelineId "p-2"; SetStage "act"] []
                  (or_introl eq_refl))
               (fun _ => Resolved (Some (OpenAI.mkResponse None None)))
               (OpenAI.mkResponse None None) eq_refl).
Defined.

End ContextMore.

Module ExporterMore.
Import JS Otel Exporter Transport.
Local Open Scope list_scope.

(** The test [this.queue.length >= this.batchSize] of [export]. *)
Ltac batch_reached :=
  match goal with
  | |- context [Number.length_ge ?n (batchSize ?st)] =>
      destruct (Number.length_ge n (batchSize st))
  end.

(** The settings of an exporter. *)
Lemma flushBatch_fields st :
  let st' := (flushBatch st).1 in
  endpoint st' = endpoint st /\ maxQueueSize st' = maxQueueSize st
  /\ batchSize st' = batchSize st /\ flushIntervalMs st' = flushIntervalMs st
  /\ shutdown_flag st' = shutdown_flag st /\ flushTimer st' = flushTimer st.
Proof.
  destruct (ExporterSpec.flushBatch_prefix st) as (batch & rest & _ & Heq & _).
  cbv zeta. rewrite Heq. by destruct st.
Qed.

Lemma flushBatch_queue_length st :
  length (queue (flushBatch st).1) <= length (queue st).
Proof.
  destruct (ExporterSpec.flushBatch_prefix st) as (batch & rest & Hq & Heq & _).
  rewrite Heq, Hq, length_app. destruct st; simpl. lia.
Qed.

Lemma step_invariants st ev :
  let st' := (step st ev).1 in
  endpoint st' = endpoint st /\ maxQueueSize st' = maxQueueSize st
  /\ batchSize st' = batchSize st /\ flushIntervalMs st' = flushIntervalMs st
  /\ (shutdown_flag st = true -> shutdown_flag st' = true)
  /\ (forall max,
        Number.least_length (maxQueueSize st) = Some max ->
        1 <= max ->
        length (queue st) <= max ->
        length (queue st') <= max).
Proof.
  destruct ev as [spans| |]; cbv zeta; simpl.
  - unfold export. destruct (shutdown_flag st) eqn:Hflag; simpl.
    { by rewrite Hflag. }
    set (st1 := with_queue st _).
    assert (endpoint st1 = endpoint st /\ maxQueueSize st1 = maxQueueSize st
            /\ batchSize st1 = batchSize st
            /\ flushIntervalMs st1 = flushIntervalMs st)
      as (He & Hm & Hb & Hf) by (by destruct st).
    assert (forall max,
               Number.least_length (maxQueueSize st) = Some max ->
               1 <= max ->
               length (queue st) <= max ->
               length (queue st1) <= max) as Hlen.
    { intros max Hcapacity Hmax Hq. subst st1. cbn [queue with_queue].
      by apply (ExporterSpec.enqueue_all_length _ _ Hcapacity). }
    batch_reached; simpl.
    + pose proof (flushBatch_fields st1) as (He' & Hm' & Hb' & Hf' & _).
      pose proof (flushBatch_queue_length st1) as Hle.
      destruct (flushBatch st1) as [st2 sent]; simpl in *.
      split_and!; try congruence. intros max Hcapacity Hmax Hq.
      specialize (Hlen max Hcapacity Hmax Hq). lia.
    + split_and!; done.
  - unfold forceFlush.
    pose proof (flushBatch_fields st) as (He & Hm & Hb & Hf & Hs & _).
    pose proof (flushBatch_queue_length st) as Hle.
    split_and!; try congruence. intros max _ _ Hq. lia.
  - unfold shutdown. set (st1 := mkExporter _ _ _ _ _ _ _).
    pose proof (flushBatch_fields st1) as (He & Hm & Hb & Hf & Hs & _).
    pose proof (flushBatch_queue_length st1) as Hle.
    split_and!; try done. intros max _ _ Hq. simpl in Hle. lia.
Qed.

(** X16. Over any run of exports, flushes and shutdowns an exporter keeps
    its settings and stays shut down once it is, whatever its settings
    and its queue.  When its capacity is reached at [max] spans, [max] at
    least one, and its queue starts within it, it never holds more than
    [max] spans; [max] is [maxQueueSize] itself when that is a whole
    number, and the next whole number above it otherwise. *)
Theorem run_keeps_settings_and_capacity
    (evs : list event) (st : HikariSpanExporter) :
  let st' := (run st evs).1 in
  endpoint st' = endpoint st /\ maxQueueSize st' = maxQueueSize st
  /\ batchSize st' = batchSize st /\ flushIntervalMs st' = flushIntervalMs st
  /\ (shutdown_flag st = true -> shutdown_flag st' = true)
  /\ (forall max,
        Number.least_length (maxQueueSize st) = Some max ->
        1 <= max ->
        length (queue st) <= max ->
        length (queue st') <= max
        /\ (Number.isInteger (maxQueueSize st) = true ->
            Number.integer_value (maxQueueSize st) = Z.of_nat max)).
Proof.
  revert st. induction evs as [|ev evs IH]; intros st; cbv zeta; simpl.
  - split_and!; try done. intros max Hcapacity Hmax Hq.
    split; [done|]. intros Hint.
    by apply ExporterSpec.least_length_integer.
  - pose proof (step_invariants st ev) as (He & Hm & Hb & Hf & Hs & Hlen).
    destruct (step st ev) as [st1 sent]; simpl in *.
    specialize (IH st1). cbv zeta in IH.
    destruct (run st1 evs) as [st2 later]; simpl in *.
    destruct IH as (He' & Hm' & Hb' & Hf' & Hs' & Hlen').
    split_and!; try congruence; [auto|].
    intros max Hcapacity Hmax Hq.
    rewrite Hm in Hlen'.
    destruct (Hlen' max Hcapacity Hmax (Hlen max Hcapacity Hmax Hq))
      as [Hbound _].
    split; [done|]. intros Hint.
    by apply ExporterSpec.least_length_integer.
Qed.

Lemma delete_count_none (v : number) :
  Number.delete_count v 0 = 0.
Proof. pose proof (ExporterSpec.delete_count_le v 0). lia. Qed.

Lemma step_batch st ev :
  exists batch,
    (step st ev).2 = sent_of batch
    /\ Number.delete_count (batchSize st) (length batch) = length batch.
Proof.
  assert (forall st0, exists batch,
             (flushBatch st0).2 = sent_of batch
             /\ Number.delete_count (batchSize st0) (length batch)
                = length batch)
    as Hflush.
  { intros st0.
    destruct (ExporterSpec.flushBatch_prefix st0)
      as (batch & rest & _ & Heq & Hlen).
    exists batch. by rewrite Heq. }
  destruct ev as [spans| |]; simpl.
  - unfold export. destruct (shutdown_flag st).
    { exists []. split; [done|apply delete_count_none]. }
    set (st1 := with_queue st _).
    assert (batchSize st1 = batchSize st) as Hb by (by destruct st).
    batch_reached.
    + destruct (Hflush st1) as (batch & Hsent & Hlen).
      destruct (flushBatch st1) as [st2 sent]; simpl in *.
      exists batch. split; [done|congruence].
    + exists []. split; [done|apply delete_count_none].
  - apply Hflush.
  - unfold shutdown. set (st1 := mkExporter _ _ _ _ _ _ _).
    destruct (Hflush st1) as (batch & Hsent & Hlen). by exists batch.
Qed.

(** A batch within the count of a whole number is within the number. *)
Lemma within_count_integer (v : number) (n : nat) :
  Number.delete_count v n = n ->
  Number.isInteger v = true ->
  1 <= n ->
  (Z.of_nat n <= Number.integer_value v)%Z.
Proof.
  intros Hn Hint Hpos.
  rewrite ExporterSpec.delete_count_integer in Hn by done. lia.
Qed.

(** A number that counts for no span: it counts for none of any
    array. *)
Lemma delete_count_nothing (v : number) (n : nat) :
  Number.delete_count v 1 = 0 ->
  Number.delete_count v n = n ->
  n = 0.
Proof.
  unfold Number.delete_count.
  destruct (Prim2SF v) as [s|[]| |[] m e]; lia.
Qed.

(** X17. Every payload an exporter sends holds at least one span and at
    most [batchSize] spans: no more than [splice] counts for [batchSize],
    which is [batchSize] without its fraction, so no more than
    [batchSize] itself when that is a whole number.  So an exporter
    configured with a [batchSize] for which [splice] counts nothing (a
    whole number that is 0 or less, a number below one, NaN) never sends
    anything, whatever is exported, flushed or shut down. *)
Theorem payloads_hold_one_to_batchSize_spans (evs : list event) :
  forall st,
  Forall (fun payload =>
            exists batch,
              payload = payload_of batch /\ batch <> []
              /\ Number.delete_count (batchSize st) (length batch)
                 = length batch
              /\ (Number.isInteger (batchSize st) = true ->
                  (Z.of_nat (length batch)
                   <= Number.integer_value (batchSize st))%Z))
         (run st evs).2
  /\ (Number.delete_count (batchSize st) 1 = 0 -> (run st evs).2 = [])
  /\ (Number.isInteger (batchSize st) = true ->
      (Number.integer_value (batchSize st) <= 0)%Z ->
      (run st evs).2 = []).
Proof.
  assert (forall st,
    Forall (fun payload =>
              exists batch,
                payload = payload_of batch /\ batch <> []
                /\ Number.delete_count (batchSize st) (length batch)
                   = length batch)
           (run st evs).2) as Hall.
  { induction evs as [|ev evs IH]; intros st; simpl; [constructor|].
    destruct (step_batch st ev) as (batch & Hsent & Hlen).
    pose proof (step_invariants st ev) as (_ & _ & Hb & _).
    destruct (step st ev) as [st1 sent]; simpl in *.
    specialize (IH st1). rewrite Hb in IH.
    destruct (run st1 evs) as [st2 later]; simpl in *. subst sent.
    apply Forall_app. split; [|done].
    destruct batch as [|x batch]; simpl; [constructor|].
    constructor; [|constructor]. by exists (x :: batch). }
  assert (forall st, Number.delete_count (batchSize st) 1 = 0 ->
                     (run st evs).2 = []) as Hnone.
  { intros st Hzero. specialize (Hall st).
    destruct (run st evs).2 as [|payload later]; [done|].
    apply Forall_cons in Hall as [(batch & _ & Hne & Hlen) _].
    apply (delete_count_nothing _ _ Hzero) in Hlen.
    by destruct batch. }
  intros st. split_and!.
  - eapply Forall_impl; [apply Hall|]. cbv beta.
    intros payload (batch & -> & Hne & Hlen).
    exists batch. split_and!; try done.
    intros Hint. apply within_count_integer; try done.
    destruct batch; [done|simpl; lia].
  - apply Hnone.
  - intros Hint Hzero. apply Hnone.
    rewrite ExporterSpec.delete_count_integer by done. lia.
Qed.

(** A [batchSize] that is not a whole number: with [batchSize: 1.5] a
    queue of two spans has reached it, and one span is sent; with NaN or
    0.5 nothing is ever sent, and with [Infinity] a flush sends the
    whole queue. *)
Example fractional_batchSize :
  let a := sample_span "a" [] in
  let b := sample_span "b" [] in
  let st batchSize := mkExporter "http://localhost:8000" 10 batchSize 5000 [a] false true in
  export (st 1.5%float) [b]
  = (with_queue (st 1.5%float) [b], Some (payload_of [a]), SUCCESS)
  /\ (run (st nan) [Export [b]; Flush; Shutdown]).2 = []
  /\ (run (st 0.5%float) [Export [b]; Flush; Shutdown]).2 = []
  /\ (run (st infinity) [Export [b]; Flush]).2 = [payload_of [a; b]].
Proof. split_and!; reflexivity. Qed.

(** X18. While the exporter is not shut down and the spans it is given
    fit in the queue together with what it held, so that [export] never
    finds the queue full (no overflow), nothing is lost, repeated or
    reordered: the batches sent, one after the other, followed by what is
    still queued, are exactly the initial queue followed by the spans
    exported. *)
Theorem nothing_is_lost_within_capacity (evs : list event) :
  forall st,
  shutdown_flag st = false ->
  Shutdown ∉ evs ->
  (forall n, n < length (queue st) + length (exported evs) ->
             Number.length_ge n (maxQueueSize st) = false) ->
  exists batches,
    (run st evs).2 = map payload_of batches
    /\ concat batches ++ queue (run st evs).1 = queue st ++ exported evs.
Proof.
  intros st Hflag Hev Hroom. by apply ExporterSpec.run_keeps_all.
Qed.

Lemma nothing_is_lost_within_capacity_witness :
  let a := sample_span "a" [] in
  let b := sample_span "b" [] in
  let c := sample_span "c" [] in
  let st := mkExporter "http://localhost:8000" 3 2 5000 [a] false true in
  let evs := [Export [b]; Export [c]; Flush] in
  exists batches,
    (run st evs).2 = map payload_of batches
    /\ concat batches ++ queue (run st evs).1 = [a; b; c].
Proof.
  intros a b c st evs.
  apply (nothing_is_lost_within_capacity evs st).
  - reflexivity.
  - subst evs. rewrite !not_elem_of_cons. split_and!; try done.
    apply not_elem_of_nil.
  - intros n Hn. simpl in Hn.
    destruct n as [|[|[|n]]]; [reflexivity..|lia].
Defined.

(** X19. [shutdown] raises the flag, clears the timer and sends one batch
    only: the first [batchSize] spans of the queue leave ([batchSize]
    without its fraction, as [splice] counts it, and no more than there
    are), the others stay queued; from then on [export] discards what it
    is given, so whatever is exported later, nothing is sent and the
    exporter does not change. *)
Theorem shutdown_sends_one_batch_and_closes (st : HikariSpanExporter) :
  let st' := (shutdown st).1 in
  let n := Number.delete_count (batchSize st) (length (queue st)) in
  shutdown_flag st' = true /\ flushTimer st' = false
  /\ (shutdown st).2 = sent_of (take n (queue st))
  /\ queue st' = drop n (queue st)
  /\ (Number.isInteger (batchSize st) = true ->
      n = Nat.min (length (queue st))
            (Z.to_nat (Number.integer_value (batchSize st))))
  /\ (forall spans, export st' spans = (st', None, SUCCESS))
  /\ (forall evs,
        Forall (fun ev => exists spans, ev = Export spans) evs ->
        run st' evs = (st', [])).
Proof.
  cbv zeta.
  set (n := Number.delete_count (batchSize st) (length (queue st))).
  assert (shutdown st
          = (mkExporter (endpoint st) (maxQueueSize st) (batchSize st)
               (flushIntervalMs st) (drop n (queue st)) true false,
             sent_of (take n (queue st)))) as Heq.
  { unfold shutdown. by rewrite ExporterSpec.flushBatch_exact. }
  rewrite Heq. cbn [fst snd shutdown_flag flushTimer queue].
  set (st' := mkExporter _ _ _ _ _ _ _).
  assert (forall spans, export st' spans = (st', None, SUCCESS)) as Hexport
    by done.
  split_and!; try done.
  { intros Hint. by apply ExporterSpec.delete_count_integer. }
  intros evs Hevs. induction Hevs as [|ev evs [spans ->] _ IH]; [done|].
  cbn [run step]. rewrite Hexport. cbn [fst]. by rewrite IH.
Qed.

Lemma attempts_requests fetch url body turns : forall attempt,
  Forall (fun r => r = (url, body))
         (requests (attempts fetch url body attempt turns)).
Proof.
  induction turns as [|turns IH]; intros attempt; simpl.
  - constructor.
  - constructor; [done|].
    destruct (fetch attempt) as [[] status|err]; simpl;
      try constructor;
      destruct (attempt <? _)%nat; simpl; apply IH.
Qed.

(** X20. [sendWithRetry] posts the same payload to [endpoint/v1/traces]
    until one reply is [ok], three times at most, and stops at the first
    [ok] reply; it waits 1000 ms after a first failure and 2000 ms after
    a second, and never the 4000 ms that close [RETRY_DELAYS_MS]; it gives
    the batch up exactly when the three replies are failures (a response
    that is not [ok], or a rejected [fetch]). *)
Theorem sendWithRetry_tries_three_times
    (st : HikariSpanExporter) (fetch : nat -> Reply) (payload : OtlpPayload) :
  let trace := sendWithRetry st fetch payload in
  Forall (fun r => r = (endpoint st +:+ "/v1/traces", payload))
         (requests trace)
  /\ length (requests trace)
     = (if ok (fetch 0%nat) then 1
        else if ok (fetch 1%nat) then 2 else 3)
  /\ waits trace
     = (if ok (fetch 0%nat) then []
        else if ok (fetch 1%nat) then [1000%Z] else [1000%Z; 2000%Z])
  /\ dropped trace
     = negb (ok (fetch 0%nat)) && negb (ok (fetch 1%nat))
       && negb (ok (fetch 2%nat)).
Proof.
  cbv zeta. split.
  - apply attempts_requests.
  - unfold sendWithRetry, ok. simpl.
    destruct (fetch 0%nat) as [[] s0|e0];
      destruct (fetch 1%nat) as [[] s1|e1];
      destruct (fetch 2%nat) as [[] s2|e2]; simpl; done.
Qed.

Lemma strip_slash_slash s : strip_slash (s +:+ "/") = s.
Proof.
  induction s as [|c s IH]; [done|].
  simpl. rewrite IH. by destruct s.
Qed.

Lemma strip_slash_other s :
  (forall t, s <> t +:+ "/") -> strip_slash s = s.
Proof.
  induction s as [|c s IH]; intros Hs; [done|].
  destruct s as [|d s].
  - simpl. destruct (Ascii.eqb_spec c (Ascii.ascii_of_nat 47)) as [->|]; [|done].
    by destruct (Hs "").
  - change (strip_slash (String c (String d s)))
      with (String c (strip_slash (String d s))).
    rewrite IH; [done|]. intros t Ht. apply (Hs (String c t)).
    simpl. by rewrite Ht.
Qed.

(** X21. An endpoint given with one trailing slash and the same endpoint
    given without it make the same exporter, which posts to the endpoint
    followed by [/v1/traces]; only one slash is removed.  Without an
    endpoint the requests go to [http://localhost:8000/v1/traces]. *)
Theorem trailing_slash_of_endpoint_is_ignored
    (e : string) (maxQueueSize batchSize flushIntervalMs : option number) :
  let exporter endpoint := new endpoint maxQueueSize batchSize flushIntervalMs in
  endpoint (exporter (Some (e +:+ "/"))) = e
  /\ ((forall t, e <> t +:+ "/") ->
      exporter (Some (e +:+ "/")) = exporter (Some e)
      /\ forall fetch payload,
           Forall (fun r => r = (e +:+ "/v1/traces", payload))
             (requests (sendWithRetry (exporter (Some e)) fetch payload)))
  /\ (forall fetch payload,
        Forall (fun r => r = ("http://localhost:8000/v1/traces", payload))
          (requests (sendWithRetry (exporter None) fetch payload))).
Proof.
  cbv zeta.
  assert (forall o, endpoint (new o maxQueueSize batchSize flushIntervalMs)
                    = strip_slash (default "http://localhost:8000" o))
    as Hend by done.
  split_and!.
  - rewrite Hend. apply strip_slash_slash.
  - intros He. split.
    + unfold new. cbn [from_option id].
      by rewrite strip_slash_slash, strip_slash_other.
    + intros fetch payload. unfold sendWithRetry. rewrite Hend.
      cbn [from_option id]. rewrite (strip_slash_other e He).
      apply attempts_requests.
  - intros fetch payload. unfold sendWithRetry. rewrite Hend.
    apply attempts_requests.
Qed.

End ExporterMore.

Module SchemaMore.
Import JS Schema SchemaOps.
Local Open Scope list_scope.
Local Open Scope Z_scope.

Section Counting.
Context {A K : Type} `{EqDecision K} (f : A -> K).
Context (P : K -> Prop) `{forall k, Decision (P k)}.






End Counting.








Lemma non_null_nil_iff {A} (l : list (option A)) :
  non_null l = [] <-> Forall (fun x => x = None) l.
Proof.
  unfold non_null. induction l as [|[a|] l IH]; simpl.
  - split; [constructor|done].
  - split; [done|]. by intros [? _]%Forall_cons.
  - rewrite IH. split; [by constructor|]. by intros [_ ?]%Forall_cons.
Qed.

Lemma SUM_int_None_iff (l : list (option Z)) :
  SUM_int l = None <-> Forall (fun x => x = None) l.
Proof.
  rewrite <- non_null_nil_iff. unfold SUM_int.
  by destruct (non_null l).
Qed.

Lemma non_null_cons {A B} (f : A -> option B) (l : list A) x :
  x ∈ l -> is_Some (f x) -> exists c cs, non_null (f <$> l) = c :: cs.
Proof.
  intros Hx [b Hb]. unfold non_null.
  induction Hx as [x l|x y l Hx IH]; simpl.
  - rewrite Hb. simpl. eauto.
  - destruct (f y); simpl; eauto.
Qed.

(** X23. No row of a view is empty or without a cost: its [span_count] is
    at least 1 and its [total_cost] and [avg_cost_per_span] are not NULL.
    Its token totals can be NULL: [total_tokens_input] is NULL exactly
    when [tokens_input] is NULL in every span of the row, and likewise
    [total_tokens_output]. *)
Theorem view_rows_have_spans_and_costs
    (i : interval) (spans : list span_row) (g : cost_row) :
  g ∈ view_of i spans ->
  let rows :=
    filter (fun r => key_of (width_of i) r = key_of_row g
                     /\ cost_total_is_not_null r = true) spans in
  1 <= span_count g
  /\ total_cost g <> None
  /\ avg_cost_per_span g <> None
  /\ (total_tokens_input g = None
      <-> Forall (fun r => tokens_input r = None) rows)
  /\ (total_tokens_output g = None
      <-> Forall (fun r => tokens_output r = None) rows).
Proof.
  rewrite SchemaSpec.view_of_cost_view. intros Hg rows.
  apply SchemaSpec.cost_view_row in Hg as [Hagg (r & Hr & Hc & Hk)].
  fold rows in Hagg.
  assert (r ∈ rows) as Hin by (by apply list_elem_of_filter).
  assert (exists c cs, non_null (cost_total <$> rows) = c :: cs)
    as (c & cs & Hcosts).
  { apply (non_null_cons cost_total rows r Hin).
    unfold cost_total_is_not_null in Hc. by destruct (cost_total r). }
  rewrite Hagg. destruct (key_of_row g) as [[[[b p] s] m] pr].
  cbn [aggregate span_count total_cost avg_cost_per_span total_tokens_input
       total_tokens_output].
  split_and!.
  - unfold COUNT_star. destruct rows as [|r' rows'].
    + by apply elem_of_nil in Hin.
    + simpl. lia.
  - unfold SUM_float. by rewrite Hcosts.
  - unfold AVG_float. by rewrite Hcosts.
  - rewrite SUM_int_None_iff. apply Forall_fmap.
  - rewrite SUM_int_None_iff. apply Forall_fmap.
Qed.

Lemma view_rows_have_spans_and_costs_witness :
  let r := sample_row 1706000000000000 None in
  let g := aggregate (key_of hour r) [r] in
  g ∈ cost_hourly [r]
  /\ 1 <= span_count g /\ total_cost g <> None
  /\ total_tokens_input g = None.
Proof.
  intros r g.
  assert (g ∈ view_of Hour [r]) as Hg by (vm_compute; left).
  pose proof (view_rows_have_spans_and_costs Hour [r] g Hg)
    as (Hcount & Hcost & _ & Htokens & _).
  split_and!; [exact Hg|exact Hcount|exact Hcost|].
  apply Htokens. vm_compute. by repeat constructor.
Defined.




End SchemaMore.


(** ** Patching: version checks, round trips, what cannot be undone *)

Module PatchingMore.
Import JS Otel Context Providers Text Patching.
Local Open Scope list_scope.

Lemma digits_string_of_uint (d : Decimal.uint) (rest : string) :
  (forall c s, rest = String c s ->
               DecimalString.uint_of_char c (Some Decimal.Nil) = None) ->
  digits (NilEmpty.string_of_uint d +:+ rest) = d.
Proof.
  intros Hrest. induction d; simpl; try (by rewrite IHd).
  destruct rest as [|c s]; [done|]. simpl.
  specialize (Hrest c s eq_refl).
  destruct c as [[] [] [] [] [] [] [] []]; simpl in *; congruence.
Qed.

Lemma decimal_unsigned (n : Z) :
  (0 <= n)%Z ->
  exists d, d <> Decimal.Nil /\ Z.of_uint d = n
            /\ Number.decimal n = NilEmpty.string_of_uint d.
Proof.
  intros Hn. unfold Number.decimal. rewrite Z.abs_eq by done.
  pose proof (DecimalZ.of_to n) as Hof.
  destruct n as [|p|p]; [| |lia].
  - exists (Decimal.D0 Decimal.Nil). by split_and!.
  - exists (Pos.to_uint p). split_and!.
    + apply Unsigned.to_uint_nonnil.
    + exact Hof.
    + simpl. unfold NilZero.string_of_uint.
      pose proof (Unsigned.to_uint_nonnil p).
      by destruct (Pos.to_uint p).
Qed.

(** A digit is no white space, and starts none. *)
Lemma trim_start_digit (c : Ascii.ascii) (s : string) :
  DecimalString.uint_of_char c (Some Decimal.Nil) <> None ->
  trim_start (String c s) = String c s.
Proof.
  intros Hdigit.
  assert (is_space c = false
          /\ (forall c2, is_space2 c c2 = false)
          /\ (forall c2 c3, is_space3 c c2 c3 = false)) as (H1 & H2 & H3).
  { destruct c as [[] [] [] [] [] [] [] []]; 
      try (by exfalso; apply Hdigit); by split_and!. }
  cbn [trim_start]. rewrite H1.
  destruct s as [|c2 [|c3 s]]; [done| |]; rewrite H2; [done|].
  by rewrite H3.
Qed.

(** A number in decimal reads back as itself, whatever follows it that
    is not a digit. *)
Lemma parseInt_decimal (n : Z) (rest : string) :
  (0 <= n)%Z ->
  (forall c s, rest = String c s ->
               DecimalString.uint_of_char c (Some Decimal.Nil) = None) ->
  parseInt (Number.decimal n +:+ rest) = Some n.
Proof.
  intros Hn Hrest.
  destruct (decimal_unsigned n Hn) as (d & Hnil & <- & ->).
  unfold parseInt.
  destruct d; [done|..];
    cbn [NilEmpty.string_of_uint];
    change (String ?c ?s +:+ rest) with (String c (s +:+ rest));
    rewrite trim_start_digit by done;
    simpl; rewrite (digits_string_of_uint _ rest Hrest); reflexivity.
Qed.

Lemma split_dot_decimal (n : Z) (rest : string) :
  split_dot (Number.decimal n +:+ "." +:+ rest)
  = Number.decimal n :: split_dot rest.
Proof.
  unfold Number.decimal.
  assert (forall d, split_dot (NilEmpty.string_of_uint d +:+ "." +:+ rest)
                    = NilEmpty.string_of_uint d :: split_dot rest) as Hd.
  { induction d; simpl; try (by rewrite IHd). done. }
  destruct (Z.to_int (Z.abs n)) as [d|d] eqn:Hint.
  - simpl. unfold NilZero.string_of_uint.
    destruct d; try apply Hd. done.
  - pose proof (Z.abs_nonneg n).
    destruct (Z.abs n); simpl in Hint; try discriminate; lia.
Qed.

Lemma split_dot_decimal_end (n : Z) :
  split_dot (Number.decimal n) = [Number.decimal n].
Proof.
  unfold Number.decimal.
  assert (forall d, d <> Decimal.Nil ->
                    split_dot (NilEmpty.string_of_uint d)
                    = [NilEmpty.string_of_uint d]) as Hd.
  { induction d; intros Hnil; try done;
      simpl; destruct d; try done; by rewrite IHd. }
  destruct (Z.to_int (Z.abs n)) as [d|d] eqn:Hint.
  - simpl. unfold NilZero.string_of_uint. destruct d; try by apply Hd. done.
  - pose proof (Z.abs_nonneg n).
    destruct (Z.abs n); simpl in Hint; try discriminate; lia.
Qed.

Lemma split_dot_dotted (n : Z) (numbers : list Z) :
  split_dot (dotted (n :: numbers)) = Number.decimal <$> n :: numbers.
Proof.
  revert n. induction numbers as [|m numbers IH]; intros n.
  - apply split_dot_decimal_end.
  - change (dotted (n :: m :: numbers))
      with (Number.decimal n +:+ "." +:+ dotted (m :: numbers)).
    by rewrite split_dot_decimal, IH.
Qed.

Lemma append_empty (s : string) : s +:+ "" = s.
Proof.
  induction s as [|c s IH]; [done|].
  change (String c (s +:+ "") = String c s). by rewrite IH.
Qed.

Lemma parseInt_decimal_alone (n : Z) :
  (0 <= n)%Z -> parseInt (Number.decimal n) = Some n.
Proof.
  intros Hn. pose proof (parseInt_decimal n "" Hn) as Hp.
  rewrite append_empty in Hp. by apply Hp.
Qed.

(** The parts of a dotted version, parsed. *)
Lemma below_dotted (major : Z) (more : list Z) (minMajor minMinor : Z) :
  (0 <= major)%Z -> Forall (fun n => 0 <= n)%Z more ->
  (0 <= minMajor)%Z -> (0 <= minMinor)%Z ->
  below (dotted (major :: more)) (dotted [minMajor; minMinor])
  = (major <? minMajor)%Z
    || ((major =? minMajor)%Z && (default 0%Z (head more) <? minMinor)%Z).
Proof.
  intros Hmajor Hmore Hmin1 Hmin2. unfold below.
  rewrite !split_dot_dotted. simpl.
  rewrite !parseInt_decimal_alone by done. simpl.
  destruct more as [|minor more]; simpl; [done|].
  apply Forall_cons in Hmore as [Hminor _].
  by rewrite parseInt_decimal_alone.
Qed.

Lemma version_of_Some v default_VERSION :
  version_of (Some v) default_VERSION = v.
Proof. by destruct default_VERSION. Qed.

(** X25. The version checks, on a version written as numbers joined with
    dots: OpenAI is patched exactly from major version 4 on; Anthropic
    and Google unless the major version is 0 and the minor version, 0
    when there is none, is below 18 (Anthropic) or 3 (Google).  A version
    whose first part does not start with a number is not refused by any
    of them. *)
Theorem version_checks
    (pricing : CostFn) (major : Z) (more : list Z) (create : Method)
    (getModel : Google.GetModel) (default_VERSION : option string) :
  (0 <= major)%Z -> Forall (fun n => 0 <= n)%Z more ->
  let version := Some (dotted (major :: more)) in
  let minor := default 0%Z (head more) in
  (OpenAI.patch pricing
     (OpenAI.mkState
        (Loaded (OpenAI.mkLibrary version default_VERSION (Some (Some create))))
        None)).1
  = (4 <=? major)%Z
  /\ (Anthropic.patch pricing
        (Anthropic.mkState
           (Loaded (Anthropic.mkLibrary version default_VERSION
                      (Some (Some create))))
           None)).1
     = negb ((major =? 0)%Z && (minor <? 18)%Z)
  /\ (Google.patch pricing
        (Google.mkState
           (Loaded (Google.mkLibrary version default_VERSION
                      (Some (Some getModel))))
           None)).1
     = negb ((major =? 0)%Z && (minor <? 3)%Z)
  /\ (forall v,
        parseInt (default "0" (head (split_dot v))) = None ->
        (OpenAI.patch pricing
           (OpenAI.mkState
              (Loaded (OpenAI.mkLibrary (Some v) default_VERSION
                         (Some (Some create))))
              None)).1 = true
        /\ (Anthropic.patch pricing
              (Anthropic.mkState
                 (Loaded (Anthropic.mkLibrary (Some v) default_VERSION
                            (Some (Some create))))
                 None)).1 = true
        /\ (Google.patch pricing
              (Google.mkState
                 (Loaded (Google.mkLibrary (Some v) default_VERSION
                            (Some (Some getModel))))
                 None)).1 = true).
Proof.
  intros Hmajor Hmore version minor. subst version minor.
  pose proof (below_dotted major more 0 18 Hmajor Hmore) as H18.
  pose proof (below_dotted major more 0 3 Hmajor Hmore) as H3.
  split_and!.
  - unfold OpenAI.patch. cbn [OpenAI.library OpenAI.VERSION
      OpenAI.default_VERSION OpenAI.completions].
    rewrite version_of_Some, split_dot_dotted.
    change ((Number.decimal <$> major :: more) !! 0%nat)
      with (Some (Number.decimal major)).
    cbn [from_option id].
    rewrite parseInt_decimal_alone by done. cbn [lt].
    destruct (Z.ltb_spec major 4), (Z.leb_spec 4 major); done || lia.
  - unfold Anthropic.patch. cbn [Anthropic.library
      Anthropic.VERSION Anthropic.default_VERSION Anthropic.messages].
    rewrite version_of_Some.
    change Anthropic.MIN_VERSION with (dotted [0; 18]%Z).
    rewrite H18 by lia. clear H18 H3.
    destruct (Z.ltb_spec major 0); [lia|]. cbn [orb].
    by destruct (_ && _).
  - unfold Google.patch. cbn [Google.library
      Google.VERSION Google.default_VERSION Google.GoogleGenerativeAI].
    rewrite version_of_Some.
    change Google.MIN_VERSION with (dotted [0; 3]%Z).
    rewrite H3 by lia. clear H18 H3.
    destruct (Z.ltb_spec major 0); [lia|]. cbn [orb].
    by destruct (_ && _).
  - intros v Hnan. clear H18 H3.
    assert (forall MIN_VERSION, below v MIN_VERSION = false) as Hbelow.
    { intros MIN_VERSION. unfold below.
      destruct (split_dot v) as [|piece pieces]; [done|].
      cbn [head from_option id] in Hnan.
      rewrite fmap_cons. cbn [lookup list_lookup or_zero from_option id].
      by rewrite Hnan. }
    split_and!.
    + unfold OpenAI.patch. cbn [OpenAI.library OpenAI.VERSION
        OpenAI.default_VERSION OpenAI.completions].
      rewrite version_of_Some.
      replace (split_dot v !! 0%nat) with (head (split_dot v))
        by (by destruct (split_dot v)).
      by rewrite Hnan.
    + unfold Anthropic.patch. cbn [Anthropic.library Anthropic.VERSION
        Anthropic.default_VERSION Anthropic.messages].
      by rewrite version_of_Some, Hbelow.
    + unfold Google.patch. cbn [Google.library Google.VERSION
        Google.default_VERSION Google.GoogleGenerativeAI].
      by rewrite version_of_Some, Hbelow.
Qed.

Lemma version_checks_witness :
  (OpenAI.patch failing_pricing
     (OpenAI.mkState
        (Loaded (OpenAI.mkLibrary (Some (dotted [4; 20; 1]%Z)) None
                   (Some (Some Native))))
        None)).1 = true
  /\ (Anthropic.patch failing_pricing
        (Anthropic.mkState
           (Loaded (Anthropic.mkLibrary (Some (dotted [4; 20; 1]%Z)) None
                      (Some (Some Native))))
           None)).1 = true.
Proof.
  assert (Forall (fun n => 0 <= n)%Z [20; 1]%Z) as Hmore
    by (repeat constructor; lia).
  pose proof (version_checks failing_pricing 4 [20; 1]%Z Native
                Google.NativeGet None ltac:(lia) Hmore) as H.
  exact (conj (proj1 H) (proj1 (proj2 H))).
Defined.

(** White space before the number is skipped, in one byte or more: a
    version [3.9] after a no-break space is read as 3, and refused; so is
    one after a byte order mark; a letter is not skipped. *)
Example white_space_before_a_version :
  let nbsp := String (Ascii.ascii_of_nat 194) (String (Ascii.ascii_of_nat 160) "") in
  let bom :=
    String (Ascii.ascii_of_nat 239)
      (String (Ascii.ascii_of_nat 187) (String (Ascii.ascii_of_nat 191) "")) in
  parseInt (nbsp +:+ "3.9") = Some 3%Z
  /\ parseInt (bom +:+ " " +:+ nbsp +:+ "-12abc") = Some (-12)%Z
  /\ parseInt "v4" = None
  /\ parseInt "" = None
  /\ (OpenAI.patch failing_pricing
        (OpenAI.mkState
           (Loaded (OpenAI.mkLibrary (Some (nbsp +:+ "3.9")) None
                      (Some (Some Native))))
           None)).1 = false
  /\ (OpenAI.patch failing_pricing
        (OpenAI.mkState
           (Loaded (OpenAI.mkLibrary (Some "v4.1") None (Some (Some Native))))
           None)).1 = true.
Proof. split_and!; vm_compute; reflexivity. Qed.

Lemma makeWrapper_openai_settles original pricing store settled args :
  (Providers.OpenAI.makeWrapper (S := Span) original pricing store settled args).1
  = original args.
Proof.
  unfold Providers.OpenAI.makeWrapper. by destruct (original args).
Qed.

Lemma makeWrapper_anthropic_settles original pricing store settled args :
  (Providers.Anthropic.makeWrapper (S := Span) original pricing store settled args).1
  = original args.
Proof.
  unfold Providers.Anthropic.makeWrapper. by destruct (original args).
Qed.

(** What a patch that was applied has done. *)
Lemma openai_patch_applied pricing st :
  (OpenAI.patch pricing st).1 = true ->
  exists openai create,
    OpenAI.library st = Loaded openai
    /\ OpenAI.completions openai = Some (Some create)
    /\ (OpenAI.patch pricing st).2
       = OpenAI.mkState
           (Loaded (OpenAI.with_create openai (Wrapper (Bound create) pricing)))
           (Some (Bound create)).
Proof.
  unfold OpenAI.patch.
  destruct (OpenAI.library st) as [openai| |err]; [|done..].
  destruct (lt _ _); [done|].
  destruct (OpenAI.completions openai) as [[create|]|] eqn:Hc; [|done..].
  intros _. by exists openai, create.
Qed.

Lemma anthropic_patch_applied pricing st :
  (Anthropic.patch pricing st).1 = true ->
  exists anthropic create,
    Anthropic.library st = Loaded anthropic
    /\ Anthropic.messages anthropic = Some (Some create)
    /\ (Anthropic.patch pricing st).2
       = Anthropic.mkState
           (Loaded (Anthropic.with_create anthropic
                      (Wrapper (Bound create) pricing)))
           (Some (Bound create)).
Proof.
  unfold Anthropic.patch.
  destruct (Anthropic.library st) as [anthropic| |err]; [|done..].
  destruct (below _ _); [done|].
  destruct (Anthropic.messages anthropic) as [[create|]|] eqn:Hc; [|done..].
  intros _. by exists anthropic, create.
Qed.

Lemma google_patch_applied pricing st :
  (Google.patch pricing st).1 = true ->
  exists genai getModel,
    Google.library st = Loaded genai
    /\ Google.GoogleGenerativeAI genai = Some (Some getModel)
    /\ (Google.patch pricing st).2
       = Google.mkState
           (Loaded (Google.with_getGenerativeModel genai
                      (Google.PatchedGet getModel pricing)))
           (Some getModel).
Proof.
  unfold Google.patch.
  destruct (Google.library st) as [genai| |err]; [|done..].
  destruct (below _ _); [done|].
  destruct (Google.GoogleGenerativeAI genai) as [[getModel|]|] eqn:Hc;
    [|done..].
  intros _. by exists genai, getModel.
Qed.

Lemma openai_patch_refused pricing st :
  (OpenAI.patch pricing st).1 = false -> (OpenAI.patch pricing st).2 = st.
Proof.
  unfold OpenAI.patch.
  destruct (OpenAI.library st) as [openai| |err]; [|done..].
  destruct (lt _ _); [done|].
  by destruct (OpenAI.completions openai) as [[create|]|].
Qed.

Lemma anthropic_patch_refused pricing st :
  (Anthropic.patch pricing st).1 = false ->
  (Anthropic.patch pricing st).2 = st.
Proof.
  unfold Anthropic.patch.
  destruct (Anthropic.library st) as [anthropic| |err]; [|done..].
  destruct (below _ _); [done|].
  by destruct (Anthropic.messages anthropic) as [[create|]|].
Qed.

Lemma google_patch_refused pricing st :
  (Google.patch pricing st).1 = false -> (Google.patch pricing st).2 = st.
Proof.
  unfold Google.patch.
  destruct (Google.library st) as [genai| |err]; [|done..].
  destruct (below _ _); [done|].
  by destruct (Google.GoogleGenerativeAI genai) as [[getModel|]|].
Qed.

Lemma openai_unpatch_nothing st :
  OpenAI.originals st = None -> OpenAI.unpatch st = st.
Proof.
  unfold OpenAI.unpatch. intros ->. by destruct (OpenAI.library st).
Qed.

Lemma anthropic_unpatch_nothing st :
  Anthropic.originals st = None -> Anthropic.unpatch st = st.
Proof.
  unfold Anthropic.unpatch. intros ->. by destruct (Anthropic.library st).
Qed.

Lemma google_unpatch_nothing st :
  Google.originals st = None -> Google.unpatch st = st.
Proof.
  unfold Google.unpatch. intros ->.
  destruct (Google.library st) as [genai| |err]; [|done..].
  by destruct (Google.GoogleGenerativeAI genai).
Qed.

(** X26. A patch that reports [false] (library not installed, version
    too old, structure not recognized, method missing) has changed
    nothing, neither in the library nor in [originals]; and [unpatch]
    changes nothing when there is nothing to restore. *)
Theorem refused_patch_changes_nothing (pricing : CostFn) :
  (forall st, (OpenAI.patch pricing st).1 = false ->
              (OpenAI.patch pricing st).2 = st)
  /\ (forall st, (Anthropic.patch pricing st).1 = false ->
                 (Anthropic.patch pricing st).2 = st)
  /\ (forall st, (Google.patch pricing st).1 = false ->
                 (Google.patch pricing st).2 = st)
  /\ (forall openai originals,
        OpenAI.completions openai = None
        \/ OpenAI.completions openai = Some None ->
        OpenAI.patch pricing (OpenAI.mkState (Loaded openai) originals)
        = (false, OpenAI.mkState (Loaded openai) originals))
  /\ (forall originals,
        OpenAI.patch pricing (OpenAI.mkState MODULE_NOT_FOUND originals)
        = (false, OpenAI.mkState MODULE_NOT_FOUND originals))
  /\ (forall st, OpenAI.originals st = None -> OpenAI.unpatch st = st)
  /\ (forall st, Anthropic.originals st = None -> Anthropic.unpatch st = st)
  /\ (forall st, Google.originals st = None -> Google.unpatch st = st).
Proof.
  split_and!.
  - apply openai_patch_refused.
  - apply anthropic_patch_refused.
  - apply google_patch_refused.
  - intros openai originals Hc. unfold OpenAI.patch. cbn.
    destruct (lt _ _); [done|]. by destruct Hc as [-> | ->].
  - done.
  - apply openai_unpatch_nothing.
  - apply anthropic_unpatch_nothing.
  - apply google_unpatch_nothing.
Qed.

Lemma google_unpatch_patch pricing st :
  Google.originals st = None ->
  Google.unpatch (Google.patch pricing st).2 = st.
Proof.
  intros Hnone.
  destruct ((Google.patch pricing st).1) eqn:Hok.
  - destruct (google_patch_applied pricing st Hok)
      as (genai & getModel & Hlib & Hcls & ->).
    unfold Google.unpatch. cbn.
    destruct st as [library originals]. cbn in *. subst.
    clear Hok. destruct genai as [v dv cls]. cbn in Hcls. subst cls.
    reflexivity.
  - rewrite (google_patch_refused pricing st Hok).
    by apply google_unpatch_nothing.
Qed.

(** X27. [unpatch] after a patch that was applied.  For Google the
    library is exactly as before the patch.  For OpenAI and Anthropic
    [originals] is empty again and the wrapper is gone, but the method
    restored is not the one that was there: it is that one bound to the
    object holding it, so a call on any receiver runs it on that
    object. *)
Theorem unpatch_after_patch (pricing : CostFn) :
  (forall st,
      Google.originals st = None ->
      Google.unpatch (Google.patch pricing st).2 = st)
  /\ (forall st,
        (OpenAI.patch pricing st).1 = true ->
        let st' := OpenAI.unpatch (OpenAI.patch pricing st).2 in
        exists create,
          OpenAI.create st = Some create
          /\ OpenAI.create st' = Some (Bound create)
          /\ OpenAI.originals st' = None
          /\ forall Receiver (holder this : Receiver) native store settled args,
               OpenAI.invoke holder native (Bound create) this store settled args
               = OpenAI.invoke holder native create holder store settled args)
  /\ (forall st,
        (Anthropic.patch pricing st).1 = true ->
        let st' := Anthropic.unpatch (Anthropic.patch pricing st).2 in
        exists create,
          Anthropic.create st = Some create
          /\ Anthropic.create st' = Some (Bound create)
          /\ Anthropic.originals st' = None
          /\ forall Receiver (holder this : Receiver) native store settled args,
               Anthropic.invoke holder native (Bound create) this store settled args
               = Anthropic.invoke holder native create holder store settled args).
Proof.
  split_and!.
  - apply google_unpatch_patch.
  - intros st Hok st'. subst st'.
    destruct (openai_patch_applied pricing st Hok)
      as (openai & create & Hlib & Hc & ->).
    exists create. unfold OpenAI.create, OpenAI.unpatch. cbn.
    rewrite Hlib, Hc. by split_and!.
  - intros st Hok st'. subst st'.
    destruct (anthropic_patch_applied pricing st Hok)
      as (anthropic & create & Hlib & Hc & ->).
    exists create. unfold Anthropic.create, Anthropic.unpatch. cbn.
    rewrite Hlib, Hc. by split_and!.
Qed.

(** X28. After a patch that was applied, a call through the patched
    method settles as the method that was there does on the object
    holding it, and ends exactly one span more: the span [makeWrapper]
    makes for that call, with the pricing given to [patch].  For Google
    the patched [getGenerativeModel] returns the instance the one that
    was there returns, under the same model name, with one more wrapper
    around its [generateContent], made for that name and pricing. *)
Theorem patched_call_ends_one_more_span
    (pricing : CostFn) {Receiver : Type} (holder this : Receiver)
    (store : Store) (settled : nat -> Store) (args : list (option Kwargs)) :
  (forall st native,
      (OpenAI.patch pricing st).1 = true ->
      exists create patched,
        OpenAI.create st = Some create
        /\ OpenAI.create (OpenAI.patch pricing st).2 = Some patched
        /\ let before := OpenAI.invoke holder native create holder store settled args in
           let wrapped :=
             Providers.OpenAI.makeWrapper (fun _ => before.1) pricing store
               (settled (depth create)) args in
           OpenAI.invoke holder native patched this store settled args
           = (before.1, before.2 ++ [wrapped.2]))
  /\ (forall st native,
        (Anthropic.patch pricing st).1 = true ->
        exists create patched,
          Anthropic.create st = Some create
          /\ Anthropic.create (Anthropic.patch pricing st).2 = Some patched
          /\ let before :=
               Anthropic.invoke holder native create holder store settled args in
             let wrapped :=
               Providers.Anthropic.makeWrapper (fun _ => before.1) pricing
                 store (settled (depth create)) args in
             Anthropic.invoke holder native patched this store settled args
             = (before.1, before.2 ++ [wrapped.2]))
  /\ (forall st native,
        (Google.patch pricing st).1 = true ->
        exists getModel patched,
          Google.getGenerativeModel st = Some getModel
          /\ Google.getGenerativeModel (Google.patch pricing st).2
             = Some patched
          /\ let before := Google.call_getGenerativeModel getModel native in
             let instance := Google.call_getGenerativeModel patched native in
             Google.model instance = Google.model before
             /\ Google.wrappers (Google.generateContent instance)
                = (Google.model before, pricing)
                  :: Google.wrappers (Google.generateContent before)).
Proof.
  split_and!.
  - intros st native Hok.
    destruct (openai_patch_applied pricing st Hok)
      as (openai & create & Hlib & Hc & ->).
    exists create, (Wrapper (Bound create) pricing).
    unfold OpenAI.create. cbn. rewrite Hlib, Hc. split_and!; [done..|].
    unfold OpenAI.invoke. cbn [invoke].
    by rewrite makeWrapper_openai_settles.
  - intros st native Hok.
    destruct (anthropic_patch_applied pricing st Hok)
      as (anthropic & create & Hlib & Hc & ->).
    exists create, (Wrapper (Bound create) pricing).
    unfold Anthropic.create. cbn. rewrite Hlib, Hc. split_and!; [done..|].
    unfold Anthropic.invoke. cbn [invoke].
    by rewrite makeWrapper_anthropic_settles.
  - intros st native Hok.
    destruct (google_patch_applied pricing st Hok)
      as (genai & getModel & Hlib & Hc & ->).
    exists getModel, (Google.PatchedGet getModel pricing).
    unfold Google.getGenerativeModel. cbn. rewrite Hlib, Hc. done.
Qed.

Lemma openai_patch_again pricing openai create originals :
  (OpenAI.patch pricing (OpenAI.mkState (Loaded openai) originals)).1 = true ->
  forall pricing' originals',
    OpenAI.patch pricing'
      (OpenAI.mkState (Loaded (OpenAI.with_create openai create)) originals')
    = (true,
       OpenAI.mkState
         (Loaded (OpenAI.with_create openai (Wrapper (Bound create) pricing')))
         (Some (Bound create))).
Proof.
  unfold OpenAI.patch. cbn.
  destruct (lt _ _); [done|]. done.
Qed.

Lemma anthropic_patch_again pricing anthropic create originals :
  (Anthropic.patch pricing
     (Anthropic.mkState (Loaded anthropic) originals)).1 = true ->
  forall pricing' originals',
    Anthropic.patch pricing'
      (Anthropic.mkState (Loaded (Anthropic.with_create anthropic create))
         originals')
    = (true,
       Anthropic.mkState
         (Loaded (Anthropic.with_create anthropic
                    (Wrapper (Bound create) pricing')))
         (Some (Bound create))).
Proof.
  unfold Anthropic.patch. cbn.
  destruct (below _ _); [done|]. done.
Qed.

Lemma google_patch_again pricing genai getModel originals :
  (Google.patch pricing (Google.mkState (Loaded genai) originals)).1 = true ->
  forall pricing' originals',
    Google.patch pricing'
      (Google.mkState (Loaded (Google.with_getGenerativeModel genai getModel))
         originals')
    = (true,
       Google.mkState
         (Loaded (Google.with_getGenerativeModel genai
                    (Google.PatchedGet getModel pricing')))
         (Some getModel)).
Proof.
  unfold Google.patch. cbn.
  destruct (below _ _); [done|]. done.
Qed.

Lemma iter_fixed {A} (f : A -> A) (x : A) (n : nat) :
  f x = x -> Nat.iter n f x = x.
Proof. intros Hx. induction n as [|n IH]; [done|]. simpl. by rewrite IH. Qed.

(** X29. A second patch cannot be undone.  When [patch] is applied twice,
    the second [patch] replaces in [originals] what the first had saved;
    [unpatch], called once or more, then removes the second wrapper only:
    the first stays in place, with the pricing of the first patch, and
    [originals] is empty, so nothing can remove it: every call still ends
    the span of the first wrapper. *)
Theorem second_patch_cannot_be_undone
    (pricing1 pricing2 : CostFn) (n : nat) :
  (forall st,
      (OpenAI.patch pricing1 st).1 = true ->
      let twice := OpenAI.patch pricing2 (OpenAI.patch pricing1 st).2 in
      let st' := Nat.iter (S n) OpenAI.unpatch twice.2 in
      twice.1 = true
      /\ OpenAI.originals st' = None
      /\ exists create stuck,
           OpenAI.create st = Some create
           /\ OpenAI.create st' = Some stuck
           /\ stuck = Bound (Wrapper (Bound create) pricing1)
           /\ forall Receiver (holder this : Receiver) native store settled args,
                let before :=
                  OpenAI.invoke holder native create holder store settled args in
                let wrapped :=
                  Providers.OpenAI.makeWrapper (fun _ => before.1) pricing1
                    store (settled (depth create)) args in
                OpenAI.invoke holder native stuck this store settled args
                = (before.1, before.2 ++ [wrapped.2]))
  /\ (forall st,
        (Anthropic.patch pricing1 st).1 = true ->
        let twice := Anthropic.patch pricing2 (Anthropic.patch pricing1 st).2 in
        let st' := Nat.iter (S n) Anthropic.unpatch twice.2 in
        twice.1 = true
        /\ Anthropic.originals st' = None
        /\ exists create stuck,
             Anthropic.create st = Some create
             /\ Anthropic.create st' = Some stuck
             /\ stuck = Bound (Wrapper (Bound create) pricing1)
             /\ forall Receiver (holder this : Receiver) native store settled args,
                  let before :=
                    Anthropic.invoke holder native create holder store settled args in
                  let wrapped :=
                    Providers.Anthropic.makeWrapper (fun _ => before.1)
                      pricing1 store (settled (depth create)) args in
                  Anthropic.invoke holder native stuck this store settled args
                  = (before.1, before.2 ++ [wrapped.2]))
  /\ (forall st,
        (Google.patch pricing1 st).1 = true ->
        let twice := Google.patch pricing2 (Google.patch pricing1 st).2 in
        let st' := Nat.iter (S n) Google.unpatch twice.2 in
        twice.1 = true
        /\ Google.originals st' = None
        /\ exists getModel,
             Google.getGenerativeModel st = Some getModel
             /\ Google.getGenerativeModel st'
                = Some (Google.PatchedGet getModel pricing1)).
Proof.
  split_and!.
  - intros [library originals] Hok twice st'. subst twice st'.
    destruct (openai_patch_applied pricing1 _ Hok)
      as (openai & create & Hlib & Hc & ->).
    cbn in Hlib. subst library.
    rewrite (openai_patch_again _ _ _ _ Hok). cbn [fst snd].
    rewrite Nat.iter_succ_r.
    unfold OpenAI.unpatch at 2. cbn.
    rewrite iter_fixed by done.
    unfold OpenAI.create. cbn. rewrite Hc. split_and!; [done..|].
    exists create, (Bound (Wrapper (Bound create) pricing1)).
    split_and!; [done..|]. intros Receiver holder this native store settled args.
    unfold OpenAI.invoke. cbn [invoke].
    by rewrite makeWrapper_openai_settles.
  - intros [library originals] Hok twice st'. subst twice st'.
    destruct (anthropic_patch_applied pricing1 _ Hok)
      as (anthropic & create & Hlib & Hc & ->).
    cbn in Hlib. subst library.
    rewrite (anthropic_patch_again _ _ _ _ Hok). cbn [fst snd].
    rewrite Nat.iter_succ_r.
    unfold Anthropic.unpatch at 2. cbn.
    rewrite iter_fixed by done.
    unfold Anthropic.create. cbn. rewrite Hc. split_and!; [done..|].
    exists create, (Bound (Wrapper (Bound create) pricing1)).
    split_and!; [done..|]. intros Receiver holder this native store settled args.
    unfold Anthropic.invoke. cbn [invoke].
    by rewrite makeWrapper_anthropic_settles.
  - intros [library originals] Hok twice st'. subst twice st'.
    destruct (google_patch_applied pricing1 _ Hok)
      as (genai & getModel & Hlib & Hc & ->).
    cbn in Hlib. subst library.
    rewrite (google_patch_again _ _ _ _ Hok). cbn [fst snd].
    rewrite Nat.iter_succ_r.
    unfold Google.unpatch at 2. cbn.
    rewrite iter_fixed by done.
    unfold Google.getGenerativeModel. cbn. rewrite Hc. eauto.
Qed.

(** X30. The instrumentor.  [instrument] forgets what the instrumentor
    listed before and reports the providers whose patch was applied, in
    the order openai, anthropic, google; [getPatchedProviders] returns
    that list.  [uninstrument] empties the list and unpatches the listed
    providers only: a provider whose patch was refused is left exactly as
    it was, also when it holds a wrapper that somebody else installed,
    and an instrumentor that lists nothing changes no library. *)
Theorem instrumentor_patches_and_restores
    (pricing : CostFn) (self : Instrumentor.HikariInstrumentor)
    (libs : Instrumentor.Libraries) :
  let done := Instrumentor.instrument pricing self libs in
  let names := done.1.1 in
  let undone := Instrumentor.uninstrument done.1.2 done.2 in
  Instrumentor.getPatchedProviders done.1.2 = names
  /\ names
     = filter (fun name =>
                 name = "openai"
                 /\ (OpenAI.patch pricing (Instrumentor.openai libs)).1 = true
                 \/ name = "anthropic"
                    /\ (Anthropic.patch pricing
                          (Instrumentor.anthropic libs)).1 = true
                 \/ name = "google"
                    /\ (Google.patch pricing (Instrumentor.google libs)).1
                       = true)
         ["openai"; "anthropic"; "google"]
  /\ Instrumentor.getPatchedProviders undone.1 = []
  /\ ((OpenAI.patch pricing (Instrumentor.openai libs)).1 = false ->
      Instrumentor.openai undone.2 = Instrumentor.openai libs)
  /\ ((Anthropic.patch pricing (Instrumentor.anthropic libs)).1 = false ->
      Instrumentor.anthropic undone.2 = Instrumentor.anthropic libs)
  /\ ((Google.patch pricing (Instrumentor.google libs)).1 = false ->
      Instrumentor.google undone.2 = Instrumentor.google libs)
  /\ ((OpenAI.patch pricing (Instrumentor.openai libs)).1 = true ->
      Instrumentor.openai undone.2
      = OpenAI.unpatch (OpenAI.patch pricing (Instrumentor.openai libs)).2)
  /\ ((Anthropic.patch pricing (Instrumentor.anthropic libs)).1 = true ->
      Instrumentor.anthropic undone.2
      = Anthropic.unpatch
          (Anthropic.patch pricing (Instrumentor.anthropic libs)).2)
  /\ ((Google.patch pricing (Instrumentor.google libs)).1 = true ->
      Google.originals (Instrumentor.google libs) = None ->
      Instrumentor.google undone.2 = Instrumentor.google libs)
  /\ (Instrumentor.uninstrument (Instrumentor.mkInstrumentor []) libs).2
     = libs.
Proof.
  cbv zeta. unfold Instrumentor.instrument, Instrumentor.uninstrument.
  pose proof (openai_patch_refused pricing (Instrumentor.openai libs)) as Ho.
  pose proof (anthropic_patch_refused pricing (Instrumentor.anthropic libs))
    as Ha.
  pose proof (google_patch_refused pricing (Instrumentor.google libs)) as Hg.
  pose proof (google_unpatch_patch pricing (Instrumentor.google libs))
    as Hround.
  destruct (OpenAI.patch pricing (Instrumentor.openai libs)) as [[] openai];
    destruct (Anthropic.patch pricing (Instrumentor.anthropic libs))
      as [[] anthropic];
    destruct (Google.patch pricing (Instrumentor.google libs)) as [[] google];
    cbn in *;
    (split_and!; [done|done|done|intros; try done; auto..|by destruct libs]).
Qed.

End PatchingMore.

